(** * mintox TCP relay: secure connection engine

    A shallow embedding of [src/mintox/tcp_server.go]: the wire framing
    ([CreatePacket], [Unpacket]), the nonce bookkeeping ([WritePacket]), the
    bounded control queue ([SendCtrlPacket]), the handshake
    ([HandleHandshake]) and the inbound decode loop ([doReadPacket],
    [runReadLoop]).

    Conventions.
    - A Go [[]byte] is a [list byte]; [len] is the Go length as an integer.
    - A Go [uint16] is an integer kept in [0, 65536) by [uint16]; an [int32]
      counter wraps through [int32].
    - A pointer field of the connection is represented by the value it points
      to; a field that was never assigned holds the empty byte string.
    - A function that can stop the process ([log.Fatalln], a failed
      [gopp.Assert], a run-time panic) returns an [Abort].
    - What the environment decides (the result of a socket write, freshly
      drawn random values, the measured duration of an enqueue) is an explicit
      argument. *)

From Stdlib Require Import ZArith List Lia Bool String.
From Stdlib Require Import Strings.Byte.
From Stdlib Require Import Relations.Relation_Operators.
From Stdlib Require DecimalString.
Import ListNotations.

Open Scope string_scope.
Open Scope list_scope.
Open Scope Z_scope.

(* ------------------------------------------------------------------ *)
(** ** Bytes and fixed-width integers *)

Definition byte_to_Z (b : byte) : Z := Z.of_N (Byte.to_N b).

(** Go's conversion [byte(z)]: the low eight bits. *)
Definition byte_of_Z (z : Z) : byte :=
  match Byte.of_N (Z.to_N (z mod 256)) with
  | Some b => b
  | None => x00
  end.

(** Go's conversion [uint16(z)]. *)
Definition uint16 (z : Z) : Z := z mod 65536.

(** Go's conversion [int32(z)], two's complement. *)
Definition int32 (z : Z) : Z := (z + 2147483648) mod 4294967296 - 2147483648.

(** Go's [len] on a slice. *)
Definition len {A : Type} (l : list A) : Z := Z.of_nat (List.length l).

(** [binary.Write(w, binary.BigEndian, v)] for a [uint16] value. *)
Definition put_uint16_be (v : Z) : list byte :=
  [byte_of_Z (Z.shiftr v 8); byte_of_Z v].

(** [binary.Read(r, binary.BigEndian, &v)] for a [uint16] destination: an
    error, and no assignment, when fewer than two bytes can be read. *)
Definition get_uint16_be (l : list byte) : option Z :=
  match l with
  | b0 :: b1 :: _ => Some (Z.lor (Z.shiftl (byte_to_Z b0) 8) (byte_to_Z b1))
  | _ => None
  end.

Fixpoint bytes_eqb (a b : list byte) : bool :=
  match a, b with
  | [], [] => true
  | x :: a', y :: b' => Byte.eqb x y && bytes_eqb a' b'
  | _, _ => false
  end.

(* ------------------------------------------------------------------ *)
(** ** Protocol constants *)

Definition MAX_PACKET_SIZE : Z := 2048.
Definition NUM_RESERVED_PORTS : Z := 16.

Definition TCP_PACKET_ROUTING_REQUEST : Z := 0.
Definition TCP_PACKET_ROUTING_RESPONSE : Z := 1.
Definition TCP_PACKET_CONNECTION_NOTIFICATION : Z := 2.
Definition TCP_PACKET_DISCONNECT_NOTIFICATION : Z := 3.
Definition TCP_PACKET_PING : Z := 4.
Definition TCP_PACKET_PONG : Z := 5.
Definition TCP_PACKET_OOB_SEND : Z := 6.
Definition TCP_PACKET_OOB_RECV : Z := 7.
Definition TCP_PACKET_ONION_REQUEST : Z := 8.
Definition TCP_PACKET_ONION_RESPONSE : Z := 9.

(** Modelled from the spec: the constant [PUBLIC_KEY_SIZE], declared outside
    this file; a public key is a fixed 32-byte value. *)
Definition PUBLIC_KEY_SIZE : Z := 32.

(** Modelled from the spec: the constant [NONCE_SIZE], declared outside this
    file; a nonce is a fixed 24-byte value. *)
Definition NONCE_SIZE : Z := 24.

Inductive status : Type :=
| TCP_STATUS_NO_STATUS
| TCP_STATUS_CONNECTED
| TCP_STATUS_UNCONFIRMED
| TCP_STATUS_CONFIRMED.

(** The value of the [iota] constant. *)
Definition status_code (s : status) : Z :=
  match s with
  | TCP_STATUS_NO_STATUS => 0
  | TCP_STATUS_CONNECTED => 1
  | TCP_STATUS_UNCONFIRMED => 2
  | TCP_STATUS_CONFIRMED => 3
  end.

(* ------------------------------------------------------------------ *)
(** ** Keys, nonces and the cryptographic collaborators *)

Definition CryptoKey : Type := list byte.
Definition CBNonce : Type := list byte.

(** [NewCryptoKey(b)] and [NewCBNonce(b)] wrap a copy of the bytes. *)
Definition NewCryptoKey (b : list byte) : CryptoKey := b.
Definition NewCBNonce (b : list byte) : CBNonce := b.

(** Increment of a byte string read least significant byte first. *)
Fixpoint incr_lsb_first (l : list byte) : list byte :=
  match l with
  | [] => []
  | b :: tl =>
      if byte_to_Z b =? 255 then x00 :: incr_lsb_first tl
      else byte_of_Z (byte_to_Z b + 1) :: tl
  end.

(** Modelled from the spec: [CBNonce.Incr], declared outside this file; the
    nonce's increment operation, adding one to the nonce read as a big-endian
    unsigned integer of its own width. *)
Definition Incr (n : CBNonce) : CBNonce := rev (incr_lsb_first (rev n)).

(** The number a byte string denotes, least significant byte first. *)
Fixpoint lsb_first_value (l : list byte) : Z :=
  match l with
  | [] => 0
  | b :: tl => byte_to_Z b + 256 * lsb_first_value tl
  end.

(** The number a nonce denotes, big-endian. *)
Definition nonce_value (n : CBNonce) : Z := lsb_first_value (rev n).

Inductive error : Type :=
| ErrDataTooLong (got want : Z)
| ErrCtrlQueueFull
| ErrCrypto
| ErrSocket
| ErrEOF.

(** The cryptographic primitives are declared outside this file.  They are
    taken as parameters, with the Go result pairs [(value, err)]. *)
Class Crypto : Type := {
  MAC_SIZE : Z;
  CBBeforeNm : CryptoKey -> CryptoKey -> CryptoKey * option error;
  EncryptDataSymmetric :
    CryptoKey -> CBNonce -> list byte -> list byte * option error;
  DecryptDataSymmetric :
    CryptoKey -> CBNonce -> list byte -> list byte * option error
}.

(** Modelled from the spec: the contract of the cryptographic primitives,
    which are declared outside this file.  The ciphertext is as long as the
    plaintext plus the MAC, and decryption under the same key and nonce
    returns the plaintext.  The handshake request size is assigned to a
    [uint16] as a constant, so it fits sixteen bits. *)
Class CryptoContract (C : Crypto) : Prop := {
  mac_size_range : 0 <= MAC_SIZE <= 65535 - 2 * (PUBLIC_KEY_SIZE + NONCE_SIZE);
  encrypt_length : forall k n p,
      len (fst (EncryptDataSymmetric k n p)) = len p + MAC_SIZE;
  decrypt_encrypt : forall k n p,
      DecryptDataSymmetric k n (fst (EncryptDataSymmetric k n p)) = (p, None)
}.

(* ------------------------------------------------------------------ *)
(** ** Outcomes *)

Inductive abort : Type :=
| AssertFailed (info : string)
| Fatal (info : string)
| Panic (info : string).

Inductive result (A : Type) : Type :=
| Done (a : A)
| Abort (e : abort).

Arguments Done {A} a.
Arguments Abort {A} e.

Definition bind {A B : Type} (r : result A) (k : A -> result B) : result B :=
  match r with
  | Done a => k a
  | Abort e => Abort e
  end.

Notation "x <- r ;; k" := (bind r (fun x => k))
  (at level 61, r at next level, right associativity).
Notation "' p <- r ;; k" := (bind r (fun p => k))
  (at level 61, p pattern, r at next level, right associativity).

(* ------------------------------------------------------------------ *)
(** ** The secure connection *)

(** A buffered Go channel of byte slices: its capacity and what it holds,
    oldest entry first. *)
Record chan : Type := mkChan {
  chan_cap : Z;
  chan_buf : list (list byte)
}.

Definition make_chan (cap : Z) : chan := mkChan cap [].

(** [select { case ch <- v: ... default: ... }]: the send happens exactly when
    the buffer has room. *)
Definition chan_try_send (ch : chan) (v : list byte) : option chan :=
  if len (chan_buf ch) <? chan_cap ch
  then Some (mkChan (chan_cap ch) (chan_buf ch ++ [v]))
  else None.

(** Invocations of the lifecycle callbacks, in order. *)
Inductive event : Type :=
| EvNetRecv (n : Z)
| EvNetSent (n : Z)
| EvConfirmed
| EvClosed.

Record TCPSecureConn : Type := mkConn {
  Sock : list byte;           (* bytes the socket accepted, in order *)
  Pubkey : CryptoKey;
  Seckey : CryptoKey;
  Shrkey : CryptoKey;
  RecvNonce : CBNonce;
  SentNonce : CBNonce;
  Status : status;
  crbuf : list byte;          (* conn read ring buffer, oldest byte first *)
  cwctrlq : chan;
  cwctrldlen : Z;
  cwdataq : chan;
  cwdatadlen : Z;
  OnNetRecv : bool;           (* is the callback set *)
  OnClosed : bool;
  OnConfirmed : bool;
  OnNetSent : bool;
  events : list event         (* callbacks fired so far *)
}.

Definition set_Sock (v : list byte) (c : TCPSecureConn) : TCPSecureConn :=
  mkConn v (Pubkey c) (Seckey c) (Shrkey c) (RecvNonce c) (SentNonce c)
    (Status c) (crbuf c) (cwctrlq c) (cwctrldlen c) (cwdataq c) (cwdatadlen c)
    (OnNetRecv c) (OnClosed c) (OnConfirmed c) (OnNetSent c) (events c).

Definition set_Pubkey (v : CryptoKey) (c : TCPSecureConn) : TCPSecureConn :=
  mkConn (Sock c) v (Seckey c) (Shrkey c) (RecvNonce c) (SentNonce c)
    (Status c) (crbuf c) (cwctrlq c) (cwctrldlen c) (cwdataq c) (cwdatadlen c)
    (OnNetRecv c) (OnClosed c) (OnConfirmed c) (OnNetSent c) (events c).

Definition set_Shrkey (v : CryptoKey) (c : TCPSecureConn) : TCPSecureConn :=
  mkConn (Sock c) (Pubkey c) (Seckey c) v (RecvNonce c) (SentNonce c)
    (Status c) (crbuf c) (cwctrlq c) (cwctrldlen c) (cwdataq c) (cwdatadlen c)
    (OnNetRecv c) (OnClosed c) (OnConfirmed c) (OnNetSent c) (events c).

Definition set_RecvNonce (v : CBNonce) (c : TCPSecureConn) : TCPSecureConn :=
  mkConn (Sock c) (Pubkey c) (Seckey c) (Shrkey c) v (SentNonce c)
    (Status c) (crbuf c) (cwctrlq c) (cwctrldlen c) (cwdataq c) (cwdatadlen c)
    (OnNetRecv c) (OnClosed c) (OnConfirmed c) (OnNetSent c) (events c).

Definition set_SentNonce (v : CBNonce) (c : TCPSecureConn) : TCPSecureConn :=
  mkConn (Sock c) (Pubkey c) (Seckey c) (Shrkey c) (RecvNonce c) v
    (Status c) (crbuf c) (cwctrlq c) (cwctrldlen c) (cwdataq c) (cwdatadlen c)
    (OnNetRecv c) (OnClosed c) (OnConfirmed c) (OnNetSent c) (events c).

Definition set_Status (v : status) (c : TCPSecureConn) : TCPSecureConn :=
  mkConn (Sock c) (Pubkey c) (Seckey c) (Shrkey c) (RecvNonce c) (SentNonce c)
    v (crbuf c) (cwctrlq c) (cwctrldlen c) (cwdataq c) (cwdatadlen c)
    (OnNetRecv c) (OnClosed c) (OnConfirmed c) (OnNetSent c) (events c).

Definition set_crbuf (v : list byte) (c : TCPSecureConn) : TCPSecureConn :=
  mkConn (Sock c) (Pubkey c) (Seckey c) (Shrkey c) (RecvNonce c) (SentNonce c)
    (Status c) v (cwctrlq c) (cwctrldlen c) (cwdataq c) (cwdatadlen c)
    (OnNetRecv c) (OnClosed c) (OnConfirmed c) (OnNetSent c) (events c).

Definition set_cwctrlq (q : chan) (n : Z) (c : TCPSecureConn) : TCPSecureConn :=
  mkConn (Sock c) (Pubkey c) (Seckey c) (Shrkey c) (RecvNonce c) (SentNonce c)
    (Status c) (crbuf c) q n (cwdataq c) (cwdatadlen c)
    (OnNetRecv c) (OnClosed c) (OnConfirmed c) (OnNetSent c) (events c).

Definition set_cwdataq (q : chan) (n : Z) (c : TCPSecureConn) : TCPSecureConn :=
  mkConn (Sock c) (Pubkey c) (Seckey c) (Shrkey c) (RecvNonce c) (SentNonce c)
    (Status c) (crbuf c) (cwctrlq c) (cwctrldlen c) q n
    (OnNetRecv c) (OnClosed c) (OnConfirmed c) (OnNetSent c) (events c).

(** Fire a callback when it is set. *)
Definition fire (set : bool) (e : event) (c : TCPSecureConn) : TCPSecureConn :=
  if set then
    mkConn (Sock c) (Pubkey c) (Seckey c) (Shrkey c) (RecvNonce c) (SentNonce c)
      (Status c) (crbuf c) (cwctrlq c) (cwctrldlen c) (cwdataq c) (cwdatadlen c)
      (OnNetRecv c) (OnClosed c) (OnConfirmed c) (OnNetSent c) (events c ++ [e])
  else c.

(** Capacity of the inbound ring buffer, [buffer.New(1024 * 1024)]. *)
Definition CRBUF_CAP : Z := 1024 * 1024.

(** [NewTCPSecureConn]: empty tables and buffers, a control queue of 64
    entries and a data queue of 128. *)
Definition NewTCPSecureConn : TCPSecureConn :=
  mkConn [] [] [] [] [] [] TCP_STATUS_NO_STATUS [] (make_chan 64) 0
    (make_chan 128) 0 false false false false [].

(** [crbuf.Read(p)] with [len(p) = n]: the oldest [min n Len] bytes leave the
    buffer. *)
Definition crbuf_Read (n : Z) (c : TCPSecureConn) : list byte * TCPSecureConn :=
  (firstn (Z.to_nat n) (crbuf c), set_crbuf (skipn (Z.to_nat n) (crbuf c)) c).

(** [crbuf.Write(p)], below the capacity of the ring: the bytes join the
    buffer behind those it holds. *)
Definition crbuf_Write (p : list byte) (c : TCPSecureConn) : TCPSecureConn :=
  set_crbuf (crbuf c ++ p) c.

(** What a call of [Sock.Write] returned: bytes written and error. *)
Record write_result : Type := mkWrite {
  wr_n : Z;
  wr_err : option error
}.

Definition Sock_Write (w : write_result) (data : list byte) (c : TCPSecureConn)
  : TCPSecureConn :=
  set_Sock (Sock c ++ firstn (Z.to_nat (wr_n w)) data) c.

(** A Go slice expression [l[lo:hi]]; a slice's capacity is taken to be its
    length, so the expression panics exactly when the bounds leave the
    slice. *)
Definition slice (lo hi : Z) (l : list byte) : result (list byte) :=
  if (0 <=? lo) && (lo <=? hi) && (hi <=? len l)
  then Done (firstn (Z.to_nat (hi - lo)) (skipn (Z.to_nat lo) l))
  else Abort (Panic "slice bounds out of range").

(** [l[lo:]]. *)
Definition slice_from (lo : Z) (l : list byte) : result (list byte) :=
  slice lo (len l) l.

(** [l[0]]. *)
Definition index0 (l : list byte) : result Z :=
  match l with
  | b :: _ => Done (byte_to_Z b)
  | [] => Abort (Panic "index out of range")
  end.

(** What the environment contributes to one run of the inbound pipeline: the
    values [HandleHandshake] draws at random, the result of its socket write,
    and the duration [SendCtrlPacket] measures around its enqueue, in
    nanoseconds. *)
Record environment : Type := mkEnv {
  rnd_SentNonce : CBNonce;
  rnd_srvTmpNonce : CBNonce;
  rnd_tmpPubkey : CryptoKey;
  rnd_tmpSeckey : CryptoKey;
  hs_write : write_result;
  enqueue_elapsed : Z
}.

Definition Millisecond : Z := 1000000.

(** What [c.Read(rdbuf)] returned: the bytes [rdbuf[:rn]] and the error. *)
Record read_result : Type := mkRead {
  rd_data : list byte;
  rd_err : option error
}.

(** The first [switch] of [doReadPacket]: a buffer to decode, or not enough
    bytes yet. *)
Inductive fetched : Type :=
| Fetched (c : TCPSecureConn) (nxtpktlen : Z) (rdbuf : list byte)
| Starved (c : TCPSecureConn) (nxtpktlen : Z)
| FetchAbort (e : abort).

(** One pass through the body of the [for] loop of [doReadPacket]. *)
Inductive iteration : Type :=
| Next (c : TCPSecureConn) (nxtpktlen : Z)
| Return (c : TCPSecureConn) (nxtpktlen : Z)
| Halt (e : abort).

(** One pass through the body of the [for] loop of [runReadLoop]. *)
Inductive read_loop : Type :=
| Running (c : TCPSecureConn) (nxtpktlen : Z)
| Stopped (c : TCPSecureConn)
| Crashed (e : abort).

Section Connection.

Context {C : Crypto}.

(** [CreatePacket]: length prefix and ciphertext; the send nonce is left as it
    is. *)
Definition CreatePacket (plain : list byte) (c : TCPSecureConn)
  : list byte * option error :=
  let '(encdat, err) := EncryptDataSymmetric (Shrkey c) (SentNonce c) plain in
  (put_uint16_be (uint16 (len encdat)) ++ encdat, err).

(** [Unpacket]: [encpkt[2:]] panics on a frame shorter than its prefix; the
    receive nonce is incremented whatever the decryption returned. *)
Definition Unpacket (encpkt : list byte) (c : TCPSecureConn)
  : result (Z * list byte * option error * TCPSecureConn) :=
  let datlen := match get_uint16_be encpkt with Some v => v | None => 0 end in
  body <- slice_from 2 encpkt ;;
  let '(plnpkt, err) := DecryptDataSymmetric (Shrkey c) (RecvNonce c) body in
  Done (datlen, plnpkt, err, set_RecvNonce (Incr (RecvNonce c)) c).

(** [WritePacket]: frame, write, and increment the send nonce when the write
    returned no error. *)
Definition WritePacket (w : write_result) (data : list byte) (c : TCPSecureConn)
  : Z * option error * TCPSecureConn :=
  let '(encpkt, _) := CreatePacket data c in
  let c1 := Sock_Write w encpkt c in
  match wr_err w with
  | None => (wr_n w, None, set_SentNonce (Incr (SentNonce c1)) c1)
  | Some e => (wr_n w, Some e, c1)
  end.

(** [SendCtrlPacket]; [dtime] is [time.Since(btime)]. *)
Definition SendCtrlPacket (dtime : Z) (data : list byte) (c : TCPSecureConn)
  : result (option error * TCPSecureConn) :=
  if len data >? 2048 then Done (Some (ErrDataTooLong (len data) 2048), c)
  else if len (chan_buf (cwctrlq c)) >=? chan_cap (cwctrlq c)
  then Done (Some ErrCtrlQueueFull, c)
  else
    match chan_try_send (cwctrlq c) data with
    | Some q =>
        let c1 :=
          set_cwctrlq q (int32 (cwctrldlen c + int32 (len data))) c in
        if dtime >? 5 * Millisecond then Abort (Fatal "send use too long")
        else Done (None, c1)
    | None => Done (Some ErrCtrlQueueFull, c)
    end.

(** [HandlePingRequest]: a PONG carrying [rpkt[1:]] goes to the control queue;
    what [SendCtrlPacket] returns is dropped. *)
Definition HandlePingRequest (env : environment) (rpkt : list byte)
    (c : TCPSecureConn) : result TCPSecureConn :=
  pingid <- slice_from 1 rpkt ;;
  ' (_, c1) <- SendCtrlPacket (enqueue_elapsed env)
                 (byte_of_Z TCP_PACKET_PONG :: pingid) c ;;
  Done c1.

(** [HandleHandshake]. *)
Definition HandleHandshake (env : environment) (rdbuf : list byte)
    (c : TCPSecureConn) : result TCPSecureConn :=
  pk <- slice 0 PUBLIC_KEY_SIZE rdbuf ;;
  let cliPubkey := NewCryptoKey pk in
  nn <- slice PUBLIC_KEY_SIZE (PUBLIC_KEY_SIZE + NONCE_SIZE) rdbuf ;;
  let cliTmpNonce := NewCBNonce nn in
  let '(shrkey, _) := CBBeforeNm cliPubkey (Seckey c) in
  let c1 := set_Pubkey cliPubkey c in
  blob <- slice_from (PUBLIC_KEY_SIZE + NONCE_SIZE) rdbuf ;;
  let '(cliplnpkt, _) := DecryptDataSymmetric shrkey cliTmpNonce blob in
  tpk <- slice 0 PUBLIC_KEY_SIZE cliplnpkt ;;
  let hstmppk := NewCryptoKey tpk in
  seed <- slice PUBLIC_KEY_SIZE (PUBLIC_KEY_SIZE + NONCE_SIZE) cliplnpkt ;;
  let c2 := set_RecvNonce (NewCBNonce seed) c1 in
  let c3 := set_SentNonce (rnd_SentNonce env) c2 in
  let srvTmpNonce := rnd_srvTmpNonce env in
  let tmpPubkey := rnd_tmpPubkey env in
  let tmpSeckey := rnd_tmpSeckey env in
  let c4 := set_Shrkey (fst (CBBeforeNm hstmppk tmpSeckey)) c3 in
  let srvplnpkt := tmpPubkey ++ SentNonce c4 in
  let '(encpkt, _) := EncryptDataSymmetric shrkey srvTmpNonce srvplnpkt in
  let wrbuf := srvTmpNonce ++ encpkt in
  Done (Sock_Write (hs_write env) wrbuf c4).

(** The handshake request size, a [uint16] constant. *)
Definition HANDSHAKE_REQUEST_SIZE : Z :=
  (PUBLIC_KEY_SIZE + NONCE_SIZE) * 2 + MAC_SIZE.

(** The case "length+payload" of the first [switch] of [doReadPacket].  The
    frame buffer [rdbuf] holds the two bytes of the length, written back at
    its front, and then the bytes read from the ring. *)
Definition fetch_frame (c : TCPSecureConn) (nxtpktlen : Z) : fetched :=
  if (nxtpktlen =? 0) && (len (crbuf c) <? 2) then Starved c nxtpktlen
  else
    let '(c1, nxtpktlen) :=
      if (nxtpktlen =? 0) && (len (crbuf c) >=? 2) then
        let '(pktlenbuf, c1) := crbuf_Read 2 c in
        (c1, match get_uint16_be pktlenbuf with
             | Some v => v
             | None => nxtpktlen
             end)
      else (c, nxtpktlen) in
    if len (crbuf c1) <? nxtpktlen then Starved c1 nxtpktlen
    else
      let rdlen := uint16 (2 + nxtpktlen) in
      if rdlen <? 2 then FetchAbort (Panic "slice bounds out of range")
      else
        let '(body, c2) := crbuf_Read (rdlen - 2) c1 in
        if len body + 2 =? rdlen
        then Fetched c2 nxtpktlen (put_uint16_be nxtpktlen ++ body)
        else FetchAbort (AssertFailed "not read enough data").

(** The first [switch] of [doReadPacket]. *)
Definition fetch (c : TCPSecureConn) (nxtpktlen : Z) : fetched :=
  match Status c with
  | TCP_STATUS_NO_STATUS =>
      let nxtpktlen := HANDSHAKE_REQUEST_SIZE in
      let '(rdbuf, c1) := crbuf_Read nxtpktlen c in
      if len rdbuf =? nxtpktlen then Fetched c1 nxtpktlen rdbuf
      else FetchAbort (AssertFailed "not read enough data")
  | TCP_STATUS_UNCONFIRMED | TCP_STATUS_CONFIRMED => fetch_frame c nxtpktlen
  | TCP_STATUS_CONNECTED => Fetched c nxtpktlen []
  end.

(** The inner [switch] on the packet type, in state Confirmed. *)
Definition handle_confirmed (ptype : Z) : result unit :=
  if ptype =? TCP_PACKET_PING then Done tt
  else if ptype =? TCP_PACKET_PONG then Done tt
  else if ptype =? TCP_PACKET_ROUTING_RESPONSE then Done tt
  else if ptype =? TCP_PACKET_CONNECTION_NOTIFICATION then Done tt
  else if ptype =? TCP_PACKET_DISCONNECT_NOTIFICATION then Done tt
  else if ptype =? TCP_PACKET_OOB_RECV then Done tt
  else if ptype =? TCP_PACKET_ONION_RESPONSE then Done tt
  else if ptype >=? NUM_RESERVED_PORTS then Done tt
  else if (ptype >? TCP_PACKET_ONION_RESPONSE) && (ptype <? NUM_RESERVED_PORTS)
  then Done tt
  else Abort (Fatal "wtf").

(** The second [switch] of [doReadPacket]. *)
Definition dispatch (env : environment) (rdbuf : list byte) (c : TCPSecureConn)
  : result TCPSecureConn :=
  match Status c with
  | TCP_STATUS_NO_STATUS =>
      c1 <- HandleHandshake env rdbuf c ;;
      Done (set_Status TCP_STATUS_UNCONFIRMED c1)
  | TCP_STATUS_UNCONFIRMED =>
      ' (_, plnpkt, _, c1) <- Unpacket rdbuf c ;;
      _ <- index0 plnpkt ;;
      c2 <- HandlePingRequest env plnpkt c1 ;;
      let c3 := set_Status TCP_STATUS_CONFIRMED c2 in
      Done (fire (OnConfirmed c3) EvConfirmed c3)
  | TCP_STATUS_CONFIRMED =>
      ' (_, plnpkt, _, c1) <- Unpacket rdbuf c ;;
      ptype <- index0 plnpkt ;;
      _ <- handle_confirmed ptype ;;
      Done c1
  | TCP_STATUS_CONNECTED => Abort (Fatal "wtf")
  end.

Definition doReadPacket_iter (env : environment) (c : TCPSecureConn)
    (nxtpktlen : Z) : iteration :=
  match fetch c nxtpktlen with
  | Starved c1 n => Return c1 n
  | FetchAbort e => Halt e
  | Fetched c1 _ rdbuf =>
      match dispatch env rdbuf c1 with
      | Done c2 => Next c2 0
      | Abort e => Halt e
      end
  end.

(** The [for] loop of [doReadPacket], bounded by [fuel] passes. *)
Fixpoint doReadPacket_loop (fuel : nat) (env : environment) (c : TCPSecureConn)
    (nxtpktlen : Z) : option (result (TCPSecureConn * Z)) :=
  match fuel with
  | O => None
  | S fuel' =>
      match doReadPacket_iter env c nxtpktlen with
      | Return c1 n => Some (Done (c1, n))
      | Halt e => Some (Abort e)
      | Next c1 n => doReadPacket_loop fuel' env c1 n
      end
  end.

(** [doReadPacket]: every pass that goes on takes bytes out of the buffer, so
    one pass more than the buffer holds bytes is enough. *)
Definition doReadPacket (env : environment) (c : TCPSecureConn) (nxtpktlen : Z)
  : option (result (TCPSecureConn * Z)) :=
  doReadPacket_loop (S (List.length (crbuf c))) env c nxtpktlen.

(** The receiving half of one pass of [runReadLoop]: from [c.Read] to
    [crbuf.Write]. *)
Definition runReadLoop_recv (r : read_result) (c : TCPSecureConn)
    (nxtpktlen : Z) : read_loop :=
  let rn := len (rd_data r) in
  let c0 :=
    match rd_err r with
    | Some ErrEOF => set_Status TCP_STATUS_NO_STATUS c
    | _ => c
    end in
  match rd_err r with
  | Some _ => Stopped (fire (OnClosed c0) EvClosed c0)
  | None =>
      if rn <? 1 then Stopped (fire (OnClosed c0) EvClosed c0)
      else
        let c1 := fire (OnNetRecv c0) (EvNetRecv rn) c0 in
        if len (crbuf c1) + rn <=? CRBUF_CAP
        then Running (crbuf_Write (rd_data r) c1) nxtpktlen
        else Crashed (AssertFailed "ring buffer full")
  end.

(** One pass of [runReadLoop]. *)
Definition runReadLoop_iter (env : environment) (r : read_result)
    (c : TCPSecureConn) (nxtpktlen : Z) : option read_loop :=
  match runReadLoop_recv r c nxtpktlen with
  | Running c1 n =>
      match doReadPacket env c1 n with
      | Some (Done (c2, n2)) => Some (Running c2 n2)
      | Some (Abort e) => Some (Crashed e)
      | None => None
      end
  | other => Some other
  end.

(** [runReadLoop] over the successive results of [c.Read]. *)
Fixpoint runReadLoop (env : environment) (reads : list read_result)
    (c : TCPSecureConn) (nxtpktlen : Z) : option read_loop :=
  match reads with
  | [] => Some (Running c nxtpktlen)
  | r :: reads' =>
      match runReadLoop_iter env r c nxtpktlen with
      | Some (Running c1 n) => runReadLoop env reads' c1 n
      | other => other
      end
  end.

(** A receive from a channel that holds something. *)
Definition chan_recv (ch : chan) : option (list byte * chan) :=
  match chan_buf ch with
  | v :: rest => Some (v, mkChan (chan_cap ch) rest)
  | [] => None
  end.

(** The sending half of one pass of [runWriteLoop]: [WritePacket], then the
    bytes-sent callback when the write went through. *)
Definition runWriteLoop_send (w : write_result) (data : list byte)
    (c : TCPSecureConn) : option error * TCPSecureConn :=
  let '(wn, err, c1) := WritePacket w data c in
  match err with
  | Some e => (Some e, c1)
  | None => (None, fire (OnNetSent c1) (EvNetSent wn) c1)
  end.

(** [flushCtrl], over the entries the control queue holds; [sockw i] is the
    result of the [i]-th socket write. *)
Fixpoint flushCtrl (items : list (list byte)) (sockw : nat -> write_result)
    (c : TCPSecureConn) : option error * TCPSecureConn :=
  match items with
  | [] => (None, c)
  | data :: rest =>
      let c1 :=
        set_cwctrlq (mkChan (chan_cap (cwctrlq c)) rest)
          (int32 (cwctrldlen c + int32 (- int32 (len data)))) c in
      match runWriteLoop_send (sockw O) data c1 with
      | (Some e, c2) => (Some e, c2)
      | (None, c2) => flushCtrl rest (fun i => sockw (S i)) c2
      end
  end.

(** One pass of [runWriteLoop]; [pick_ctrl] is the choice [select] makes when
    both queues hold something.  [None]: both queues are empty and the loop
    waits.  The boolean tells whether the loop goes on. *)
Definition runWriteLoop_iter (pick_ctrl : bool) (sockw : nat -> write_result)
    (c : TCPSecureConn) : option (bool * TCPSecureConn) :=
  let from_ctrl :=
    match chan_recv (cwctrlq c), chan_recv (cwdataq c) with
    | Some _, Some _ => Some pick_ctrl
    | Some _, None => Some true
    | None, Some _ => Some false
    | None, None => None
    end in
  match from_ctrl with
  | None => None
  | Some true =>
      match chan_recv (cwctrlq c) with
      | Some (data, q) =>
          let c1 :=
            set_cwctrlq q (int32 (cwctrldlen c + int32 (- int32 (len data)))) c in
          match runWriteLoop_send (sockw O) data c1 with
          | (Some _, c2) => Some (false, c2)
          | (None, c2) => Some (true, c2)
          end
      | None => None
      end
  | Some false =>
      match chan_recv (cwdataq c) with
      | Some (data, q) =>
          let c1 :=
            set_cwdataq q (int32 (cwdatadlen c + int32 (- int32 (len data)))) c in
          match runWriteLoop_send (sockw O) data c1 with
          | (Some _, c2) => Some (false, c2)
          | (None, c2) =>
              match flushCtrl (chan_buf (cwctrlq c2))
                      (fun i => sockw (S i)) c2 with
              | (Some _, c3) => Some (false, c3)
              | (None, c3) => Some (true, c3)
              end
          end
      | None => None
      end
  end.

(** The atomic steps of a connection whose two pipelines are active: a pass of
    the decode loop, a socket read that lets the read loop go on, a pass of
    the write loop that lets it go on, and an enqueue by a producer. *)
Inductive pipeline_step : TCPSecureConn * Z -> TCPSecureConn * Z -> Prop :=
| step_decode : forall env c n c' n',
    doReadPacket_iter env c n = Next c' n' ->
    pipeline_step (c, n) (c', n')
| step_starved : forall env c n c' n',
    doReadPacket_iter env c n = Return c' n' ->
    pipeline_step (c, n) (c', n')
| step_recv : forall r c n c' n',
    runReadLoop_recv r c n = Running c' n' ->
    pipeline_step (c, n) (c', n')
| step_write : forall pick sockw c n c',
    runWriteLoop_iter pick sockw c = Some (true, c') ->
    pipeline_step (c, n) (c', n)
| step_enqueue : forall dtime data c n err c',
    SendCtrlPacket dtime data c = Done (err, c') ->
    pipeline_step (c, n) (c', n).

End Connection.

(* ------------------------------------------------------------------ *)
(** ** A concrete instance of the cryptographic collaborators

    An instance that only authenticates: the ciphertext is the plaintext
    followed by a 16-byte tag computed from key, nonce and plaintext.  It shows
    that the contract can be met and lets the model run on concrete inputs. *)

Module Toy.

Definition checksum (l : list byte) : Z :=
  fold_right (fun b acc => byte_to_Z b + acc) 0 l.

Definition tag (k : CryptoKey) (n : CBNonce) (p : list byte) : list byte :=
  repeat (byte_of_Z (checksum k + 3 * checksum n + 7 * checksum p + 1)) 16.

Definition encrypt (k : CryptoKey) (n : CBNonce) (p : list byte)
  : list byte * option error :=
  (p ++ tag k n p, None).

Definition decrypt (k : CryptoKey) (n : CBNonce) (ct : list byte)
  : list byte * option error :=
  if len ct <? 16 then ([], Some ErrCrypto)
  else
    let m := (List.length ct - 16)%nat in
    let p := firstn m ct in
    if bytes_eqb (skipn m ct) (tag k n p) then (p, None)
    else ([], Some ErrCrypto).

Definition beforenm (pk sk : CryptoKey) : CryptoKey * option error :=
  (map (fun ab => byte_of_Z (Z.lxor (byte_to_Z (fst ab)) (byte_to_Z (snd ab))))
     (combine pk sk), None).

Definition crypto : Crypto := {|
  MAC_SIZE := 16;
  CBBeforeNm := beforenm;
  EncryptDataSymmetric := encrypt;
  DecryptDataSymmetric := decrypt
|}.

(** A connection after the handshake, with room in both queues. *)
Definition established (st : status) : TCPSecureConn :=
  mkConn [] (repeat x01 32) (repeat x02 32) (repeat x03 32)
    (repeat x00 24) (repeat x00 24) st [] (make_chan 64) 0 (make_chan 128) 0
    false false true false [].

Definition env0 : environment :=
  mkEnv (repeat x07 24) (repeat x08 24) (repeat x09 32) (repeat x0a 32)
    (mkWrite 96 None) 1000.

(** The ping request [{type = 4, pingid = 42}]. *)
Definition ping42 : list byte := [x04; x00; x00; x00; x00; x00; x00; x00; x2a].

(** The pong [{type = 5, pingid = 42}]. *)
Definition pong42 : list byte := [x05; x00; x00; x00; x00; x00; x00; x00; x2a].

(** A frame whose ciphertext was tampered with: length prefix 25, a
    nine-byte body and a tag of sixteen zero bytes. *)
Definition tampered_frame : list byte :=
  [x00; x19] ++ ping42 ++ repeat x00 16.

(** The frame [CreatePacket] builds for the ping request. *)
Definition ping_frame : list byte :=
  fst (@CreatePacket crypto ping42 (established TCP_STATUS_CONFIRMED)).

(** The ciphertext of that frame. *)
Definition ping_ct : list byte := skipn 2 ping_frame.

(** A frame whose plaintext is a ROUTING_REQUEST (type 0). *)
Definition routing_request : list byte := [x00; x01].

Definition routing_ct : list byte :=
  fst (encrypt (repeat x03 32) (repeat x00 24) routing_request).

(** A handshake request, and a connection that just accepted its bytes. *)
Definition client_pk : CryptoKey := repeat x11 32.
Definition client_nonce : CBNonce := repeat x12 24.
Definition client_tmp_pk : CryptoKey := repeat x13 32.
Definition recv_seed : CBNonce := repeat x14 24.
Definition server_sk : CryptoKey := repeat x02 32.

Definition hs_blob : list byte :=
  fst (encrypt (fst (beforenm client_pk server_sk)) client_nonce
         (client_tmp_pk ++ recv_seed)).

Definition accepted (buf : list byte) : TCPSecureConn :=
  mkConn [] [] server_sk [] [] [] TCP_STATUS_NO_STATUS buf (make_chan 64) 0
    (make_chan 128) 0 false false false false [].

(** A 100-byte frame: routed data for connection id 16, 82 bytes of
    plaintext. *)
Definition data_frame : list byte :=
  fst (@CreatePacket crypto (x10 :: repeat x55 81)
         (established TCP_STATUS_CONFIRMED)).

Definition hs_request : list byte := client_pk ++ client_nonce ++ hs_blob.

(** The session key both sides derive, and the client's first data frame: the
    ping request under the session key and the receive-nonce seed. *)
Definition session_key : CryptoKey :=
  fst (beforenm client_tmp_pk (rnd_tmpSeckey env0)).

Definition first_ping_frame : list byte :=
  put_uint16_be 25 ++ fst (encrypt session_key recv_seed ping42).

(** The handshake response the relay writes. *)
Definition hs_response : list byte :=
  rnd_srvTmpNonce env0 ++
  fst (encrypt (fst (beforenm client_pk server_sk)) (rnd_srvTmpNonce env0)
         (rnd_tmpPubkey env0 ++ rnd_SentNonce env0)).

(** A length prefix of 65534 followed by as many bytes. *)
Definition oversized_frame : list byte :=
  [xff; xfe] ++ repeat x00 (Z.to_nat 65534).

End Toy.

(* ------------------------------------------------------------------ *)
(** ** The forward order of the connection status *)

(** The two transitions of the handshake state machine. *)
Inductive status_succ : status -> status -> Prop :=
| succ_handshake : status_succ TCP_STATUS_NO_STATUS TCP_STATUS_UNCONFIRMED
| succ_confirm : status_succ TCP_STATUS_UNCONFIRMED TCP_STATUS_CONFIRMED.

(** A step of the state machine: the status stays, or moves to its
    successor. *)
Definition status_forward (s s' : status) : Prop :=
  s' = s \/ status_succ s s'.

(* ------------------------------------------------------------------ *)
(** ** Packet names *)

(** The map [tcppktnames]; a key that is absent reads as the empty string. *)
Definition tcppktnames : list (Z * string) :=
  [(TCP_PACKET_ROUTING_REQUEST, "ROUTING_REQUEST");
   (TCP_PACKET_ROUTING_RESPONSE, "ROUTING_RESPONSE");
   (TCP_PACKET_CONNECTION_NOTIFICATION, "CONNECTION_NOTIFICATION");
   (TCP_PACKET_DISCONNECT_NOTIFICATION, "DISCONNECT_NOTIFICATION");
   (TCP_PACKET_PING, "PING");
   (TCP_PACKET_PONG, "PONG");
   (TCP_PACKET_OOB_SEND, "OOB_SEND");
   (TCP_PACKET_OOB_RECV, "OOB_RECV");
   (TCP_PACKET_ONION_REQUEST, "ONION_REQUEST");
   (TCP_PACKET_ONION_RESPONSE, "ONION_RESPONSE")].

Fixpoint name_lookup (m : list (Z * string)) (k : Z) : string :=
  match m with
  | [] => ""
  | (k', v) :: rest => if k' =? k then v else name_lookup rest k
  end.

(** [fmt.Sprintf("%d", n)] for a byte. *)
Definition decimal (n : Z) : string :=
  DecimalString.NilEmpty.string_of_uint (N.to_uint (Z.to_N n)).

(** [tcppktname]. *)
Definition tcppktname (ptype : Z) : string :=
  if (ptype >? TCP_PACKET_ONION_RESPONSE) && (ptype <? NUM_RESERVED_PORTS)
  then "TCP_PACKET_INVALID"
  else if ptype >=? NUM_RESERVED_PORTS
  then String.append "DATA_FOR_CONNID_" (decimal ptype)
  else name_lookup tcppktnames ptype.

(* ------------------------------------------------------------------ *)
(** ** Ping packets *)

(** Go's conversion [uint64(z)]. *)
Definition uint64 (z : Z) : Z := z mod 2 ^ 64.

(** [binary.Write(w, binary.BigEndian, v)] for an unsigned integer of [k]
    bytes. *)
Fixpoint put_be (k : nat) (v : Z) : list byte :=
  match k with
  | O => []
  | S k' => put_be k' (Z.shiftr v 8) ++ [byte_of_Z v]
  end.

Definition put_uint64_be (v : Z) : list byte := put_be 8 v.

(** The number a byte string denotes, big-endian, as [binary.BigEndian]
    reads it. *)
Definition be_value (l : list byte) : Z :=
  fold_left (fun acc b => Z.lor (Z.shiftl acc 8) (byte_to_Z b)) l 0.

Section Ping.

Context {C : Crypto}.

(** [MakePingPacket]; [rnd] is what [rand.Uint64()] returned.  The result is
    the frame and the ping id the call stores in [this.Pingid]. *)
Definition MakePingPacket (rnd : Z) (c : TCPSecureConn) : list byte * Z :=
  let pingid := uint64 rnd in
  let pingid := if pingid =? 0 then 1 else pingid in
  let ping_plain := byte_of_Z TCP_PACKET_PING :: put_uint64_be pingid in
  let '(encpkt, _) := CreatePacket ping_plain c in
  (encpkt, pingid).

(** The frames [WritePacket] puts on the wire for successive payloads: each
    under the send nonce the one before left. *)
Fixpoint wire_frames (key : CryptoKey) (nonce : CBNonce)
    (items : list (list byte)) : list (list byte) :=
  match items with
  | [] => []
  | data :: rest =>
      let encdat := fst (EncryptDataSymmetric key nonce data) in
      (put_uint16_be (uint16 (len encdat)) ++ encdat)
        :: wire_frames key (Incr nonce) rest
  end.



End Ping.

(* ------------------------------------------------------------------ *)
(** ** Queue bookkeeping *)

(** The bytes a queue holds. *)
Definition total_len (q : list (list byte)) : Z :=
  fold_right (fun d acc => len d + acc) 0 q.

(** A queue within its capacity whose byte counter is right. *)
Definition chan_ok (q : chan) (dlen : Z) : Prop :=
  len (chan_buf q) <= chan_cap q /\ dlen = int32 (total_len (chan_buf q)).

Definition queues_ok (c : TCPSecureConn) : Prop :=
  chan_ok (cwctrlq c) (cwctrldlen c) /\ chan_ok (cwdataq c) (cwdatadlen c).

(** Two connections with the same queues and byte counters. *)
Definition same_queues (c c' : TCPSecureConn) : Prop :=
  cwctrlq c' = cwctrlq c /\ cwctrldlen c' = cwctrldlen c /\
  cwdataq c' = cwdataq c /\ cwdatadlen c' = cwdatadlen c.

(** Every socket write went through, in full. *)
Definition full_writes (sockw : nat -> write_result)
    (frames : list (list byte)) : Prop :=
  forall i, wr_err (sockw i) = None /\
            len (nth i frames []) <= wr_n (sockw i).

(* ------------------------------------------------------------------ *)
(** ** The relay server *)

Definition set_Seckey (v : CryptoKey) (c : TCPSecureConn) : TCPSecureConn :=
  mkConn (Sock c) (Pubkey c) v (Shrkey c) (RecvNonce c) (SentNonce c)
    (Status c) (crbuf c) (cwctrlq c) (cwctrldlen c) (cwdataq c) (cwdatadlen c)
    (OnNetRecv c) (OnClosed c) (OnConfirmed c) (OnNetSent c) (events c).

(** The server.  A listener is named by the port it listens on, an accepted
    socket by a number; the two registries are maps, read by key. *)
Record TCPServer : Type := mkServer {
  lsners : list Z;
  srv_Pubkey : CryptoKey;
  srv_Seckey : CryptoKey;
  Conns : list byte -> option TCPSecureConn;
  HSConns : Z -> option TCPSecureConn
}.

(** The [for] loop of [NewTCPServer]; [listen i port] tells whether the
    [i]-th call of [net.Listen] went through. *)
Fixpoint listen_ports (listen : nat -> Z -> bool) (i : nat) (ports : list Z)
    (acc : list Z) : option (list Z) :=
  match ports with
  | [] => Some acc
  | port :: rest =>
      if listen i port then listen_ports listen (S i) rest (acc ++ [port])
      else None
  end.

(** [NewTCPServer]; [derive] is [CBDerivePubkey], declared outside this file.
    [None] is the [nil] the function returns when a port cannot be listened
    on. *)
Definition NewTCPServer (derive : CryptoKey -> CryptoKey)
    (listen : nat -> Z -> bool) (ports : list Z) (seckey : CryptoKey)
  : option TCPServer :=
  match listen_ports listen O ports [] with
  | Some ls => Some (mkServer ls (derive seckey) seckey
                       (fun _ => None) (fun _ => None))
  | None => None
  end.

(** [startHandshake]: a fresh connection with the server's secret key, put in
    the registry of pending connections under the socket. *)
Definition startHandshake (sock : Z) (s : TCPServer) : TCPServer :=
  let secon := set_Seckey (srv_Seckey s) NewTCPSecureConn in
  mkServer (lsners s) (srv_Pubkey s) (srv_Seckey s) (Conns s)
    (fun k => if k =? sock then Some secon else HSConns s k).

(** [runAcceptProc] over the successive results of [lsner.Accept()]: a socket,
    or [None] for an error. *)
Fixpoint runAcceptProc (accepts : list (option Z)) (s : TCPServer)
  : TCPServer :=
  match accepts with
  | [] => s
  | Some sock :: rest => runAcceptProc rest (startHandshake sock s)
  | None :: _ => s
  end.

(** The sockets [runAcceptProc] takes: those accepted before the first
    error. *)
Fixpoint accepted_sockets (accepts : list (option Z)) : list Z :=
  match accepts with
  | Some sock :: rest => sock :: accepted_sockets rest
  | _ => []
  end.

(** The connection [startHandshake] registers. *)
Definition pending_conn (s : TCPServer) : TCPSecureConn :=
  set_Seckey (srv_Seckey s) NewTCPSecureConn.

(* ------------------------------------------------------------------ *)
(** ** More concrete connections *)

Module Sample.

(** Routed data for connection id 16. *)
Definition routed : list byte := [x10; x01].

(** A connection with two control packets queued. *)
Definition sender : TCPSecureConn :=
  set_cwctrlq (mkChan 64 [Toy.pong42; routed]) 11
    (Toy.established TCP_STATUS_CONFIRMED).

(** A connection with one data packet and one control packet queued. *)
Definition sender_with_data : TCPSecureConn :=
  set_cwdataq (mkChan 128 [routed]) 2
    (set_cwctrlq (mkChan 64 [Toy.pong42]) 9
       (Toy.established TCP_STATUS_CONFIRMED)).

(** A socket on which every write goes through. *)
Definition writes_ok : nat -> write_result := fun _ => mkWrite 100 None.

(** A socket on which the first write fails. *)
Definition writes_fail : nat -> write_result :=
  fun _ => mkWrite 0 (Some ErrSocket).

(** A first frame whose plaintext is 2049 bytes long. *)
Definition big_plain : list byte := x04 :: repeat x2a (Z.to_nat 2048).

Definition big_ct : list byte :=
  fst (Toy.encrypt (repeat x03 32) (repeat x00 24) big_plain).

(** A handshake request whose blob is 72 zero bytes. *)
Definition bad_hs_request : list byte :=
  Toy.client_pk ++ Toy.client_nonce ++ repeat x00 72.

(** A server with no listener and empty registries. *)
Definition server0 : TCPServer :=
  mkServer [] [] Toy.server_sk (fun _ => None) (fun _ => None).

End Sample.

(* ------------------------------------------------------------------ *)
(** * Properties *)

(** ** Bytes and integers *)

Lemma byte_to_Z_range (b : byte) : 0 <= byte_to_Z b < 256.
Proof.
  unfold byte_to_Z. pose proof (Byte.to_N_bounded b). lia.
Qed.

Lemma byte_to_of_Z (z : Z) : byte_to_Z (byte_of_Z z) = z mod 256.
Proof.
  unfold byte_of_Z, byte_to_Z.
  pose proof (Z.mod_pos_bound z 256 ltac:(lia)) as Hr.
  destruct (Byte.of_N (Z.to_N (z mod 256))) as [b|] eqn:E.
  - apply Byte.to_of_N in E. rewrite E. lia.
  - apply Byte.of_N_None_iff in E. lia.
Qed.

Lemma byte_of_to_Z (b : byte) : byte_of_Z (byte_to_Z b) = b.
Proof.
  unfold byte_of_Z. pose proof (byte_to_Z_range b) as Hr.
  rewrite Z.mod_small by lia. unfold byte_to_Z.
  rewrite N2Z.id, Byte.of_to_N. reflexivity.
Qed.

Lemma byte_to_Z_inj (a b : byte) : byte_to_Z a = byte_to_Z b -> a = b.
Proof.
  intros H. rewrite <- (byte_of_to_Z a), <- (byte_of_to_Z b), H. reflexivity.
Qed.

Lemma lor_shiftl_8 (hi lo : Z) :
  0 <= lo < 256 -> Z.lor (Z.shiftl hi 8) lo = hi * 256 + lo.
Proof.
  intros Hlo. rewrite Z.shiftl_mul_pow2 by lia. change (2 ^ 8) with 256.
  rewrite <- Z.lxor_lor.
  - symmetry. apply Z.add_nocarry_lxor. apply Z.bits_inj'. intros n Hn.
    rewrite Z.land_spec, Z.bits_0.
    destruct (Z.ltb_spec n 8).
    + replace (hi * 256) with (hi * 2 ^ 8) by reflexivity.
      rewrite Z.mul_pow2_bits_low by lia. reflexivity.
    + rewrite (Z.bits_above_log2 lo n); [apply andb_false_r | lia |].
      destruct (Z.eq_dec lo 0) as [->|]; [simpl; lia|].
      apply Z.log2_lt_pow2; [lia|].
      apply Z.lt_le_trans with (2 ^ 8); [simpl; lia|].
      apply Z.pow_le_mono_r; lia.
  - apply Z.bits_inj'. intros n Hn.
    rewrite Z.land_spec, Z.bits_0.
    destruct (Z.ltb_spec n 8).
    + replace (hi * 256) with (hi * 2 ^ 8) by reflexivity.
      rewrite Z.mul_pow2_bits_low by lia. reflexivity.
    + rewrite (Z.bits_above_log2 lo n); [apply andb_false_r | lia |].
      destruct (Z.eq_dec lo 0) as [->|]; [simpl; lia|].
      apply Z.log2_lt_pow2; [lia|].
      apply Z.lt_le_trans with (2 ^ 8); [simpl; lia|].
      apply Z.pow_le_mono_r; lia.
Qed.

Lemma uint16_range (z : Z) : 0 <= uint16 z < 65536.
Proof. unfold uint16. apply Z.mod_pos_bound. lia. Qed.

Lemma uint16_small (z : Z) : 0 <= z < 65536 -> uint16 z = z.
Proof. intros H. unfold uint16. apply Z.mod_small. exact H. Qed.

Lemma get_uint16_be_cons (b0 b1 : byte) (rest : list byte) :
  get_uint16_be (b0 :: b1 :: rest) = Some (byte_to_Z b0 * 256 + byte_to_Z b1).
Proof.
  unfold get_uint16_be. rewrite lor_shiftl_8 by apply byte_to_Z_range.
  reflexivity.
Qed.

Lemma get_put_uint16_be (v : Z) (rest : list byte) :
  get_uint16_be (put_uint16_be v ++ rest) = Some (uint16 v).
Proof.
  unfold put_uint16_be. cbn [app]. rewrite get_uint16_be_cons.
  rewrite !byte_to_of_Z, Z.shiftr_div_pow2 by lia. change (2 ^ 8) with 256.
  unfold uint16. f_equal.
  change 65536 with (256 * 256).
  rewrite (Z.rem_mul_r v 256 256) by lia. lia.
Qed.

Lemma get_uint16_be_range (l : list byte) (v : Z) :
  get_uint16_be l = Some v -> 0 <= v < 65536.
Proof.
  destruct l as [|b0 [|b1 rest]]; try discriminate.
  rewrite get_uint16_be_cons. intros [= <-].
  pose proof (byte_to_Z_range b0). pose proof (byte_to_Z_range b1). lia.
Qed.

Lemma put_get_uint16_be (b0 b1 : byte) :
  put_uint16_be (byte_to_Z b0 * 256 + byte_to_Z b1) = [b0; b1].
Proof.
  pose proof (byte_to_Z_range b0) as H0. pose proof (byte_to_Z_range b1) as H1.
  unfold put_uint16_be. rewrite Z.shiftr_div_pow2 by lia.
  change (2 ^ 8) with 256.
  replace ((byte_to_Z b0 * 256 + byte_to_Z b1) / 256) with (byte_to_Z b0)
    by (apply Z.div_unique with (byte_to_Z b1); lia).
  rewrite byte_of_to_Z. f_equal. f_equal.
  apply byte_to_Z_inj. rewrite byte_to_of_Z.
  rewrite Z.add_comm, Z.mod_add by lia. apply Z.mod_small. lia.
Qed.

Lemma len_app {A : Type} (a b : list A) : len (a ++ b) = len a + len b.
Proof. unfold len. rewrite length_app. lia. Qed.

Lemma len_nonneg {A : Type} (l : list A) : 0 <= len l.
Proof. unfold len. lia. Qed.

Lemma len_cons {A : Type} (x : A) (l : list A) : len (x :: l) = 1 + len l.
Proof. unfold len. cbn [List.length]. lia. Qed.

Lemma bytes_eqb_refl (l : list byte) : bytes_eqb l l = true.
Proof.
  induction l as [|b l IH]; [reflexivity|].
  simpl. rewrite IH, andb_true_r. apply Byte.byte_dec_lb. reflexivity.
Qed.

(** ** The nonce increment *)

Lemma incr_lsb_first_length (l : list byte) :
  List.length (incr_lsb_first l) = List.length l.
Proof.
  induction l as [|b tl IH]; [reflexivity|].
  simpl. destruct (byte_to_Z b =? 255); simpl; congruence.
Qed.

Lemma lsb_first_value_range (l : list byte) :
  0 <= lsb_first_value l < 256 ^ len l.
Proof.
  induction l as [|b tl IH].
  - simpl. unfold len. simpl. lia.
  - rewrite len_cons, Z.pow_add_r by (try apply len_nonneg; lia).
    cbn [lsb_first_value]. pose proof (byte_to_Z_range b). lia.
Qed.

Lemma incr_lsb_first_value (l : list byte) :
  lsb_first_value (incr_lsb_first l) = (lsb_first_value l + 1) mod 256 ^ len l.
Proof.
  induction l as [|b tl IH].
  - reflexivity.
  - pose proof (byte_to_Z_range b) as Hb.
    pose proof (lsb_first_value_range tl) as Ht.
    rewrite len_cons, Z.pow_add_r by (try apply len_nonneg; lia).
    change (256 ^ 1) with 256.
    cbn [incr_lsb_first]. destruct (Z.eqb_spec (byte_to_Z b) 255) as [E|E].
    + cbn [lsb_first_value]. rewrite IH, E.
      change (byte_to_Z "000"%byte) with 0.
      replace (255 + 256 * lsb_first_value tl + 1)
        with (256 * (lsb_first_value tl + 1)) by lia.
      rewrite Z.mul_mod_distr_l by lia. lia.
    + cbn [lsb_first_value]. rewrite byte_to_of_Z.
      rewrite (Z.mod_small (byte_to_Z b + 1)) by lia.
      rewrite Z.mod_small by nia. lia.
Qed.

(** [Incr] adds exactly one, modulo the width of the nonce. *)
Lemma Incr_value (n : CBNonce) :
  nonce_value (Incr n) = (nonce_value n + 1) mod 256 ^ len n.
Proof.
  unfold nonce_value, Incr. rewrite rev_involutive, incr_lsb_first_value.
  unfold len. rewrite length_rev. reflexivity.
Qed.

Lemma Incr_length (n : CBNonce) : List.length (Incr n) = List.length n.
Proof.
  unfold Incr. rewrite length_rev, incr_lsb_first_length, length_rev.
  reflexivity.
Qed.

(** On a nonce of at least one byte the increment changes the nonce. *)
Lemma Incr_neq (n : CBNonce) : n <> [] -> Incr n <> n.
Proof.
  intros Hn E. pose proof (Incr_value n) as Hv. rewrite E in Hv.
  assert (Hr : 0 <= nonce_value n < 256 ^ len n).
  { unfold nonce_value. pose proof (lsb_first_value_range (rev n)) as H.
    unfold len in *. rewrite length_rev in H. exact H. }
  assert (Hm : 256 <= 256 ^ len n).
  { destruct n as [|b tl]; [contradiction|].
    rewrite len_cons, Z.pow_add_r by (try apply len_nonneg; lia).
    change (256 ^ 1) with 256.
    pose proof (Z.pow_pos_nonneg 256 (len tl) ltac:(lia) (len_nonneg tl)).
    nia. }
  destruct (Z.eq_dec (nonce_value n + 1) (256 ^ len n)) as [E1|E1].
  - rewrite E1, Z.mod_same in Hv by lia. lia.
  - rewrite Z.mod_small in Hv by lia. lia.
Qed.

(** ** The concrete instance meets the contract *)

Lemma Toy_tag_length (k : CryptoKey) (n : CBNonce) (p : list byte) :
  List.length (Toy.tag k n p) = 16%nat.
Proof. unfold Toy.tag. apply repeat_length. Qed.

Lemma Toy_contract : CryptoContract Toy.crypto.
Proof.
  constructor.
  - cbn. unfold PUBLIC_KEY_SIZE, NONCE_SIZE. lia.
  - intros k n p.
    cbn [EncryptDataSymmetric MAC_SIZE Toy.crypto Toy.encrypt fst].
    rewrite len_app. unfold len at 2.
    rewrite Toy_tag_length. reflexivity.
  - intros k n p.
    cbn [EncryptDataSymmetric DecryptDataSymmetric Toy.crypto Toy.encrypt fst].
    unfold Toy.decrypt.
    assert (Hl : List.length (p ++ Toy.tag k n p) = (List.length p + 16)%nat)
      by (rewrite length_app, Toy_tag_length; reflexivity).
    unfold len. rewrite Hl.
    destruct (Z.ltb_spec (Z.of_nat (List.length p + 16)) 16) as [H|H]; [lia|].
    replace (List.length p + 16 - 16)%nat with (List.length p + 0)%nat by lia.
    rewrite firstn_app_2, skipn_app, skipn_all2 by lia. cbn [firstn].
    rewrite app_nil_r.
    replace (List.length p + 0 - List.length p)%nat with 0%nat by lia.
    cbn [skipn app]. rewrite bytes_eqb_refl. reflexivity.
Qed.

(* ------------------------------------------------------------------ *)
(** ** Framing: [CreatePacket] and [Unpacket] *)

Lemma slice_from_app (pre rest : list byte) :
  slice_from (len pre) (pre ++ rest) = Done rest.
Proof.
  unfold slice_from, slice.
  pose proof (len_nonneg pre). pose proof (len_nonneg rest).
  rewrite len_app.
  destruct (Z.leb_spec 0 (len pre)); [|lia].
  destruct (Z.leb_spec (len pre) (len pre + len rest)); [|lia].
  rewrite Z.leb_refl. cbn [andb].
  replace (len pre + len rest - len pre) with (len rest) by lia.
  unfold len. rewrite !Nat2Z.id, skipn_app, skipn_all, Nat.sub_diag.
  cbn [skipn app]. rewrite firstn_all. reflexivity.
Qed.

Lemma slice_from_short (lo : Z) (l : list byte) :
  len l < lo -> slice_from lo l = Abort (Panic "slice bounds out of range").
Proof.
  intros H. unfold slice_from, slice.
  destruct (Z.leb_spec lo (len l)); [lia|].
  rewrite andb_false_r. reflexivity.
Qed.

Section Framing.

Context {C : Crypto} {CC : CryptoContract C}.

Lemma CreatePacket_frame (plain : list byte) (c : TCPSecureConn) :
  fst (CreatePacket plain c) =
  put_uint16_be (uint16 (len plain + MAC_SIZE)) ++
  fst (EncryptDataSymmetric (Shrkey c) (SentNonce c) plain).
Proof.
  unfold CreatePacket.
  pose proof (encrypt_length (Shrkey c) (SentNonce c) plain) as Hl.
  destruct (EncryptDataSymmetric (Shrkey c) (SentNonce c) plain) as [encdat err].
  cbn [fst] in *. rewrite Hl. reflexivity.
Qed.

(** C1. Frame round-trip: the frame [CreatePacket] builds for a plaintext of
    length L starts with the two bytes of the big-endian [uint16] encoding of
    L + MAC_SIZE, the length of the ciphertext (the number L + MAC_SIZE itself
    whenever it fits sixteen bits), and [Unpacket], run with the shared key
    and receive nonce equal to the shared key and send nonce of the sender,
    returns exactly the plaintext, without error. *)
Theorem frame_round_trip (plain : list byte) (tx rx : TCPSecureConn) :
  Shrkey rx = Shrkey tx ->
  RecvNonce rx = SentNonce tx ->
  let frame := fst (CreatePacket plain tx) in
  firstn 2 frame = put_uint16_be (uint16 (len plain + MAC_SIZE)) /\
  len frame = 2 + len plain + MAC_SIZE /\
  get_uint16_be frame = Some (uint16 (len plain + MAC_SIZE)) /\
  (len plain + MAC_SIZE < 65536 ->
   get_uint16_be frame = Some (len plain + MAC_SIZE)) /\
  Unpacket frame rx =
    Done (uint16 (len plain + MAC_SIZE), plain, None,
          set_RecvNonce (Incr (RecvNonce rx)) rx).
Proof.
  intros Hk Hn frame. subst frame. rewrite CreatePacket_frame.
  pose proof (encrypt_length (Shrkey tx) (SentNonce tx) plain) as Hl.
  pose proof (decrypt_encrypt (Shrkey tx) (SentNonce tx) plain) as Hd.
  pose proof mac_size_range as Hm. pose proof (len_nonneg plain) as Hp.
  set (ct := fst (EncryptDataSymmetric (Shrkey tx) (SentNonce tx) plain)) in *.
  assert (Hg : get_uint16_be
                 (put_uint16_be (uint16 (len plain + MAC_SIZE)) ++ ct) =
               Some (uint16 (len plain + MAC_SIZE))).
  { rewrite get_put_uint16_be. f_equal. apply uint16_small, uint16_range. }
  refine (conj _ (conj _ (conj _ (conj _ _)))).
  - reflexivity.
  - rewrite len_app, Hl. unfold put_uint16_be, len. cbn [List.length]. lia.
  - exact Hg.
  - intros Hfit. rewrite Hg. f_equal. apply uint16_small. lia.
  - unfold Unpacket. rewrite Hg.
    change 2 with (len (put_uint16_be (uint16 (len plain + MAC_SIZE)))) at 1.
    rewrite slice_from_app. cbn [bind]. rewrite Hk, Hn, Hd. reflexivity.
Qed.


(** [Unpacket] increments the receive nonce on every frame it is given,
    whatever the decryption returns. *)
Lemma Unpacket_increments_always (encpkt : list byte) (c c' : TCPSecureConn)
    (datlen : Z) (plnpkt : list byte) (err : option error) :
  Unpacket encpkt c = Done (datlen, plnpkt, err, c') ->
  RecvNonce c' = Incr (RecvNonce c).
Proof.
  unfold Unpacket. destruct (slice_from 2 encpkt) as [body|e]; [|discriminate].
  cbn [bind].
  destruct (DecryptDataSymmetric (Shrkey c) (RecvNonce c) body) as [p e].
  intros [= _ _ _ <-]. reflexivity.
Qed.

(** [WritePacket] increments the send nonce exactly when the socket write
    returned no error. *)
Lemma WritePacket_nonce (w : write_result) (data : list byte)
    (c : TCPSecureConn) :
  SentNonce (snd (WritePacket w data c)) =
  match wr_err w with
  | None => Incr (SentNonce c)
  | Some _ => SentNonce c
  end.
Proof.
  unfold WritePacket. destruct (CreatePacket data c) as [encpkt e].
  destruct (wr_err w); reflexivity.
Qed.

Lemma WritePacket_nonce_iff (w : write_result) (data : list byte)
    (c : TCPSecureConn) :
  SentNonce c <> [] ->
  (SentNonce (snd (WritePacket w data c)) = Incr (SentNonce c) <->
   wr_err w = None) /\
  (SentNonce (snd (WritePacket w data c)) = SentNonce c <->
   wr_err w <> None).
Proof.
  intros Hn. rewrite WritePacket_nonce. pose proof (Incr_neq _ Hn) as Hi.
  destruct (wr_err w) as [e|]; split; split; intros H;
    try congruence; try reflexivity; try discriminate.
Qed.

End Framing.

Section FramingExamples.

#[local] Existing Instance Toy.crypto.

Lemma frame_round_trip_witness :
  let tx := Toy.established TCP_STATUS_CONFIRMED in
  let rx := Toy.established TCP_STATUS_CONFIRMED in
  let frame := fst (CreatePacket Toy.ping42 tx) in
  firstn 2 frame = put_uint16_be (uint16 (len Toy.ping42 + MAC_SIZE)) /\
  len frame = 2 + len Toy.ping42 + MAC_SIZE /\
  get_uint16_be frame = Some (uint16 (len Toy.ping42 + MAC_SIZE)) /\
  (len Toy.ping42 + MAC_SIZE < 65536 ->
   get_uint16_be frame = Some (len Toy.ping42 + MAC_SIZE)) /\
  Unpacket frame rx =
    Done (uint16 (len Toy.ping42 + MAC_SIZE), Toy.ping42, None,
          set_RecvNonce (Incr (RecvNonce rx)) rx).
Proof.
  exact (@frame_round_trip Toy.crypto Toy_contract Toy.ping42
           (Toy.established TCP_STATUS_CONFIRMED)
           (Toy.established TCP_STATUS_CONFIRMED) eq_refl eq_refl).
Defined.

(** C2. Nonce bookkeeping, on a frame whose authenticated decryption fails:
    [Unpacket] returns the decryption error and the receive nonce is
    nevertheless incremented by one (from 0 to 1), so it does not stay
    unchanged. *)
Theorem Unpacket_failed_decrypt_increments_nonce :
  let c := Toy.established TCP_STATUS_CONFIRMED in
  exists c',
    Unpacket Toy.tampered_frame c = Done (25, [], Some ErrCrypto, c') /\
    nonce_value (RecvNonce c) = 0 /\
    nonce_value (RecvNonce c') = 1 /\
    RecvNonce c' <> RecvNonce c.
Proof.
  eexists. split; [vm_compute; reflexivity|].
  split; [reflexivity|]. split; [reflexivity|].
  vm_compute. discriminate.
Qed.

End FramingExamples.

(* ------------------------------------------------------------------ *)
(** ** The control queue: [SendCtrlPacket] *)

(** With room in the queue and a payload within the limit, an enqueue that is
    measured to take more than five milliseconds ends in [log.Fatalln]. *)
Lemma SendCtrlPacket_slow_enqueue_is_fatal :
  len Toy.pong42 <= 2048 /\
  len (chan_buf (cwctrlq NewTCPSecureConn)) < chan_cap (cwctrlq NewTCPSecureConn) /\
  chan_cap (cwctrlq NewTCPSecureConn) = 64 /\
  SendCtrlPacket (6 * Millisecond) Toy.pong42 NewTCPSecureConn =
    Abort (Fatal "send use too long") /\
  ~ (exists c', SendCtrlPacket (6 * Millisecond) Toy.pong42 NewTCPSecureConn =
                Done (None, c')).
Proof.
  repeat split; try (vm_compute; congruence).
  intros [c' H]. vm_compute in H. discriminate.
Qed.

(** C3. Control-queue enqueue policy, for a control queue of capacity 64.
    [SendCtrlPacket] never waits: it is a total function of its arguments.
    A payload longer than 2048 bytes is refused with an error and nothing is
    enqueued.  A payload of at most 2048 bytes is refused with the queue-full
    error, and dropped, when the queue holds 64 entries.  Otherwise the payload
    is appended to the queue; the call then returns success when the enqueue
    was measured to take at most five milliseconds, and ends in [log.Fatalln]
    when it took longer. *)
Theorem SendCtrlPacket_policy (dtime : Z) (data : list byte)
    (c : TCPSecureConn) :
  chan_cap (cwctrlq c) = 64 ->
  (2048 < len data ->
   SendCtrlPacket dtime data c =
     Done (Some (ErrDataTooLong (len data) 2048), c)) /\
  (len data <= 2048 -> 64 <= len (chan_buf (cwctrlq c)) ->
   SendCtrlPacket dtime data c = Done (Some ErrCtrlQueueFull, c)) /\
  (len data <= 2048 -> len (chan_buf (cwctrlq c)) < 64 ->
   dtime <= 5 * Millisecond ->
   SendCtrlPacket dtime data c =
     Done (None,
           set_cwctrlq (mkChan 64 (chan_buf (cwctrlq c) ++ [data]))
             (int32 (cwctrldlen c + int32 (len data))) c)) /\
  (len data <= 2048 -> len (chan_buf (cwctrlq c)) < 64 ->
   5 * Millisecond < dtime ->
   SendCtrlPacket dtime data c = Abort (Fatal "send use too long")).
Proof.
  intros Hcap. unfold SendCtrlPacket, chan_try_send. rewrite Hcap.
  repeat split; intros;
    repeat match goal with
    | |- context [?a >? ?b] => destruct (Z.gtb_spec a b); try lia
    | |- context [?a >=? ?b] => destruct (Z.geb_spec a b); try lia
    | |- context [?a <? ?b] => destruct (Z.ltb_spec a b); try lia
    end; reflexivity.
Qed.

Lemma SendCtrlPacket_policy_witness :
  SendCtrlPacket 1000 Toy.pong42 NewTCPSecureConn =
    Done (None,
          set_cwctrlq (mkChan 64 [Toy.pong42]) 9 NewTCPSecureConn).
Proof.
  assert (Hcap : chan_cap (cwctrlq NewTCPSecureConn) = 64) by reflexivity.
  assert (Hlen : len Toy.pong42 <= 2048) by (vm_compute; congruence).
  assert (Hroom : len (chan_buf (cwctrlq NewTCPSecureConn)) < 64)
    by (vm_compute; reflexivity).
  assert (Hfast : 1000 <= 5 * Millisecond) by (vm_compute; congruence).
  exact (proj1 (proj2 (proj2
           (SendCtrlPacket_policy 1000 Toy.pong42 NewTCPSecureConn Hcap)))
           Hlen Hroom Hfast).
Defined.

(* ------------------------------------------------------------------ *)
(** ** What each operation leaves untouched *)

Lemma crbuf_set_crbuf (v : list byte) (c : TCPSecureConn) :
  crbuf (set_crbuf v c) = v.
Proof. reflexivity. Qed.

Lemma Status_set_crbuf (v : list byte) (c : TCPSecureConn) :
  Status (set_crbuf v c) = Status c.
Proof. reflexivity. Qed.

Lemma fire_Status (b : bool) (e : event) (c : TCPSecureConn) :
  Status (fire b e c) = Status c.
Proof. destruct b; reflexivity. Qed.

Lemma fire_crbuf (b : bool) (e : event) (c : TCPSecureConn) :
  crbuf (fire b e c) = crbuf c.
Proof. destruct b; reflexivity. Qed.

Lemma fire_cwctrlq (b : bool) (e : event) (c : TCPSecureConn) :
  cwctrlq (fire b e c) = cwctrlq c.
Proof. destruct b; reflexivity. Qed.

Lemma fire_Sock (b : bool) (e : event) (c : TCPSecureConn) :
  Sock (fire b e c) = Sock c.
Proof. destruct b; reflexivity. Qed.

Lemma SendCtrlPacket_keeps (dtime : Z) (data : list byte)
    (c c' : TCPSecureConn) (err : option error) :
  SendCtrlPacket dtime data c = Done (err, c') ->
  Status c' = Status c /\ crbuf c' = crbuf c /\ Sock c' = Sock c.
Proof.
  unfold SendCtrlPacket.
  destruct (len data >? 2048); [intros [= _ <-]; auto|].
  destruct (_ >=? _); [intros [= _ <-]; auto|].
  destruct (chan_try_send (cwctrlq c) data) as [q|]; [|intros [= _ <-]; auto].
  destruct (dtime >? _); [discriminate|]. intros [= _ <-]. auto.
Qed.

Lemma HandlePingRequest_keeps (env : environment) (rpkt : list byte)
    (c c' : TCPSecureConn) :
  HandlePingRequest env rpkt c = Done c' ->
  Status c' = Status c /\ crbuf c' = crbuf c /\ Sock c' = Sock c.
Proof.
  unfold HandlePingRequest.
  destruct (slice_from 1 rpkt) as [pingid|e]; [|discriminate]. cbn [bind].
  destruct (SendCtrlPacket _ _ c) as [[err c1]|e] eqn:E; [|discriminate].
  cbn [bind]. intros [= <-]. eapply SendCtrlPacket_keeps; eassumption.
Qed.

Section Keeps.

Context {C : Crypto}.

Lemma Unpacket_keeps (encpkt : list byte) (c c' : TCPSecureConn)
    (datlen : Z) (plnpkt : list byte) (err : option error) :
  Unpacket encpkt c = Done (datlen, plnpkt, err, c') ->
  Status c' = Status c /\ crbuf c' = crbuf c /\ Sock c' = Sock c /\
  cwctrlq c' = cwctrlq c.
Proof.
  unfold Unpacket. destruct (slice_from 2 encpkt) as [body|e]; [|discriminate].
  cbn [bind].
  destruct (DecryptDataSymmetric (Shrkey c) (RecvNonce c) body) as [p e].
  intros [= _ _ _ <-]. auto.
Qed.

Lemma HandleHandshake_keeps (env : environment) (rdbuf : list byte)
    (c c' : TCPSecureConn) :
  HandleHandshake env rdbuf c = Done c' ->
  Status c' = Status c /\ crbuf c' = crbuf c.
Proof.
  unfold HandleHandshake.
  destruct (slice 0 _ rdbuf) as [pk|e]; [|discriminate]. cbn [bind].
  destruct (slice PUBLIC_KEY_SIZE _ rdbuf) as [nn|e]; [|discriminate].
  cbn [bind]. destruct (CBBeforeNm _ _) as [shrkey e0].
  destruct (slice_from _ rdbuf) as [blob|e]; [|discriminate]. cbn [bind].
  destruct (DecryptDataSymmetric _ _ _) as [cliplnpkt e1].
  destruct (slice 0 _ cliplnpkt) as [tpk|e]; [|discriminate]. cbn [bind].
  destruct (slice PUBLIC_KEY_SIZE _ cliplnpkt) as [seed|e]; [|discriminate].
  cbn [bind]. destruct (EncryptDataSymmetric _ _ _) as [encpkt e2].
  intros [= <-]. auto.
Qed.

Lemma WritePacket_keeps (w : write_result) (data : list byte)
    (c : TCPSecureConn) :
  Status (snd (WritePacket w data c)) = Status c /\
  cwctrlq (snd (WritePacket w data c)) = cwctrlq c /\
  cwctrldlen (snd (WritePacket w data c)) = cwctrldlen c.
Proof.
  unfold WritePacket. destruct (CreatePacket data c) as [encpkt e].
  destruct (wr_err w); auto.
Qed.

Lemma runWriteLoop_send_keeps (w : write_result) (data : list byte)
    (c : TCPSecureConn) :
  Status (snd (runWriteLoop_send w data c)) = Status c /\
  cwctrlq (snd (runWriteLoop_send w data c)) = cwctrlq c.
Proof.
  unfold runWriteLoop_send.
  pose proof (WritePacket_keeps w data c) as (Hs & Hq & _).
  destruct (WritePacket w data c) as [[wn err] c1]. cbn [snd] in *.
  destruct err; cbn [snd]; rewrite ?fire_Status, ?fire_cwctrlq; auto.
Qed.

Lemma flushCtrl_Status (items : list (list byte)) :
  forall (sockw : nat -> write_result) (c : TCPSecureConn),
    Status (snd (flushCtrl items sockw c)) = Status c.
Proof.
  induction items as [|data rest IH]; intros sockw c; [reflexivity|].
  cbn [flushCtrl].
  match goal with
  | |- context [runWriteLoop_send ?w ?d ?c1] =>
      pose proof (runWriteLoop_send_keeps w d c1) as (Hs & _);
      destruct (runWriteLoop_send w d c1) as [[e|] c2]
  end; cbn [snd] in *.
  - exact Hs.
  - rewrite IH. exact Hs.
Qed.

Lemma runWriteLoop_iter_Status (pick : bool) (sockw : nat -> write_result)
    (c c' : TCPSecureConn) (go : bool) :
  runWriteLoop_iter pick sockw c = Some (go, c') -> Status c' = Status c.
Proof.
  unfold runWriteLoop_iter.
  destruct (chan_recv (cwctrlq c)) as [[d1 q1]|];
    destruct (chan_recv (cwdataq c)) as [[d2 q2]|];
    try discriminate; try destruct pick;
    repeat match goal with
    | |- context [runWriteLoop_send ?w ?d ?c1] =>
        let Hs := fresh "Hs" in
        pose proof (runWriteLoop_send_keeps w d c1) as (Hs & _);
        destruct (runWriteLoop_send w d c1) as [[e|] ?]; cbn [snd] in Hs
    | |- context [flushCtrl ?i ?w ?c1] =>
        let Hf := fresh "Hf" in
        pose proof (flushCtrl_Status i w c1) as Hf;
        destruct (flushCtrl i w c1) as [[e'|] ?]; cbn [snd] in Hf
    end;
    intros [= _ <-]; cbn [Status set_cwctrlq set_cwdataq] in *; congruence.
Qed.

Lemma fetch_frame_Fetched_keeps (c c1 : TCPSecureConn) (n n1 : Z)
    (rdbuf : list byte) :
  fetch_frame c n = Fetched c1 n1 rdbuf ->
  Status c1 = Status c /\
  exists k, crbuf c1 = skipn k (crbuf c).
Proof.
  unfold fetch_frame, crbuf_Read.
  destruct ((n =? 0) && (len (crbuf c) <? 2)); [discriminate|].
  destruct ((n =? 0) && (len (crbuf c) >=? 2)).
  - rewrite !crbuf_set_crbuf.
    match goal with |- context [match ?g with Some v => v | None => n end] =>
      set (m := match g with Some v => v | None => n end) end.
    destruct (_ <? m); [discriminate|].
    destruct (uint16 (2 + m) <? 2); [discriminate|].
    destruct (_ =? _); [|discriminate]. intros H.
    match type of H with Fetched ?a _ _ = _ =>
      assert (Hc : c1 = a) by congruence end.
    rewrite Hc, !Status_set_crbuf, crbuf_set_crbuf. split; [reflexivity|].
    rewrite skipn_skipn. eexists. reflexivity.
  - destruct (_ <? n); [discriminate|].
    destruct (uint16 (2 + n) <? 2); [discriminate|].
    destruct (_ =? _); [|discriminate]. intros H.
    match type of H with Fetched ?a _ _ = _ =>
      assert (Hc : c1 = a) by congruence end.
    rewrite Hc, !Status_set_crbuf, crbuf_set_crbuf. split; [reflexivity|].
    eexists. reflexivity.
Qed.

Lemma fetch_Fetched_keeps (c c1 : TCPSecureConn) (n n1 : Z)
    (rdbuf : list byte) :
  fetch c n = Fetched c1 n1 rdbuf ->
  Status c1 = Status c /\
  exists k, crbuf c1 = skipn k (crbuf c).
Proof.
  unfold fetch, crbuf_Read.
  destruct (Status c) eqn:Es.
  - destruct (_ =? _); [|discriminate]. intros [= <- _ _].
    cbn [Status crbuf set_crbuf]. split; [assumption|].
    eexists. reflexivity.
  - intros [= <- _ _]. split; [assumption|]. exists 0%nat. reflexivity.
  - intros H. apply fetch_frame_Fetched_keeps in H. rewrite Es in H. exact H.
  - intros H. apply fetch_frame_Fetched_keeps in H. rewrite Es in H. exact H.
Qed.

Lemma fetch_frame_Starved_keeps (c c1 : TCPSecureConn) (n n1 : Z) :
  fetch_frame c n = Starved c1 n1 -> Status c1 = Status c.
Proof.
  unfold fetch_frame, crbuf_Read.
  destruct ((n =? 0) && (len (crbuf c) <? 2)); [intros [= <- _]; auto|].
  destruct ((n =? 0) && (len (crbuf c) >=? 2)).
  - cbn [crbuf set_crbuf].
    destruct (_ <? _); [intros [= <- _]; auto|].
    destruct (uint16 _ <? 2); [discriminate|].
    destruct (_ =? _); discriminate.
  - destruct (_ <? _); [intros [= <- _]; auto|].
    destruct (uint16 _ <? 2); [discriminate|].
    destruct (_ =? _); discriminate.
Qed.

Lemma fetch_Starved_keeps (c c1 : TCPSecureConn) (n n1 : Z) :
  fetch c n = Starved c1 n1 -> Status c1 = Status c.
Proof.
  unfold fetch, crbuf_Read.
  destruct (Status c) eqn:Es.
  - destruct (_ =? _); discriminate.
  - discriminate.
  - intros H. apply fetch_frame_Starved_keeps in H. congruence.
  - intros H. apply fetch_frame_Starved_keeps in H. congruence.
Qed.

End Keeps.

(* ------------------------------------------------------------------ *)
(** ** The status only moves forward *)

Section StatusOrder.

Context {C : Crypto}.

Lemma dispatch_Status (env : environment) (rdbuf : list byte)
    (c c' : TCPSecureConn) :
  dispatch env rdbuf c = Done c' ->
  crbuf c' = crbuf c /\
  match Status c with
  | TCP_STATUS_NO_STATUS => Status c' = TCP_STATUS_UNCONFIRMED
  | TCP_STATUS_UNCONFIRMED => Status c' = TCP_STATUS_CONFIRMED
  | TCP_STATUS_CONFIRMED => Status c' = TCP_STATUS_CONFIRMED
  | TCP_STATUS_CONNECTED => False
  end.
Proof.
  unfold dispatch. destruct (Status c) eqn:Es.
  - destruct (HandleHandshake env rdbuf c) as [c1|e] eqn:E; [|discriminate].
    cbn [bind]. intros [= <-].
    apply HandleHandshake_keeps in E as (_ & Hb). auto.
  - discriminate.
  - destruct (Unpacket rdbuf c) as [[[[dl p] er] c1]|e] eqn:E; [|discriminate].
    cbn [bind]. destruct (index0 p) as [pt|e]; [|discriminate]. cbn [bind].
    destruct (HandlePingRequest env p c1) as [c2|e] eqn:E2; [|discriminate].
    cbn [bind]. intros [= <-]. rewrite fire_crbuf, fire_Status.
    apply Unpacket_keeps in E as (_ & Hb & _).
    apply HandlePingRequest_keeps in E2 as (_ & Hb2 & _).
    split; [cbn; congruence | reflexivity].
  - destruct (Unpacket rdbuf c) as [[[[dl p] er] c1]|e] eqn:E; [|discriminate].
    cbn [bind]. destruct (index0 p) as [pt|e]; [|discriminate]. cbn [bind].
    destruct (handle_confirmed pt) as [[]|e]; [|discriminate]. cbn [bind].
    intros [= <-]. apply Unpacket_keeps in E as (Hs & Hb & _).
    split; congruence.
Qed.

Lemma doReadPacket_iter_Next (env : environment) (c c' : TCPSecureConn)
    (n n' : Z) :
  doReadPacket_iter env c n = Next c' n' ->
  n' = 0 /\
  (exists k, crbuf c' = skipn k (crbuf c)) /\
  match Status c with
  | TCP_STATUS_NO_STATUS => Status c' = TCP_STATUS_UNCONFIRMED
  | TCP_STATUS_UNCONFIRMED => Status c' = TCP_STATUS_CONFIRMED
  | TCP_STATUS_CONFIRMED => Status c' = TCP_STATUS_CONFIRMED
  | TCP_STATUS_CONNECTED => False
  end.
Proof.
  unfold doReadPacket_iter.
  destruct (fetch c n) as [c1 n1 rdbuf| |] eqn:Ef; try discriminate.
  destruct (dispatch env rdbuf c1) as [c2|e] eqn:Ed; [|discriminate].
  intros H. assert (c' = c2 /\ n' = 0) as [-> ->] by (split; congruence).
  apply fetch_Fetched_keeps in Ef as (Hs & k & Hk).
  apply dispatch_Status in Ed as (Hb & Hst). rewrite Hs in Hst.
  split; [reflexivity|]. split; [|exact Hst].
  exists k. congruence.
Qed.

Lemma doReadPacket_iter_Return (env : environment) (c c' : TCPSecureConn)
    (n n' : Z) :
  doReadPacket_iter env c n = Return c' n' -> Status c' = Status c.
Proof.
  unfold doReadPacket_iter.
  destruct (fetch c n) as [c1 n1 rdbuf|c1 n1|] eqn:Ef; try discriminate.
  - destruct (dispatch env rdbuf c1); discriminate.
  - intros H. assert (c' = c1) as -> by congruence.
    eapply fetch_Starved_keeps; eassumption.
Qed.

Lemma runReadLoop_recv_Running (r : read_result) (c c' : TCPSecureConn)
    (n n' : Z) :
  runReadLoop_recv r c n = Running c' n' ->
  rd_err r = None /\ Status c' = Status c /\ n' = n /\
  crbuf c' = crbuf c ++ rd_data r.
Proof.
  unfold runReadLoop_recv. destruct (rd_err r) as [e|]; [discriminate|].
  destruct (_ <? 1); [discriminate|].
  destruct (_ <=? CRBUF_CAP); [|discriminate].
  intros H.
  match type of H with Running ?a _ = _ =>
    assert (c' = a /\ n' = n) as [-> ->] by (split; congruence) end.
  unfold crbuf_Write.
  rewrite Status_set_crbuf, crbuf_set_crbuf, fire_Status, fire_crbuf. auto.
Qed.

(** The read loop resets the status exactly on the read that ends it: on
    [io.EOF] the status returns to NoStatus and the loop stops. *)
Lemma runReadLoop_recv_EOF (data : list byte) (c : TCPSecureConn) (n : Z) :
  exists c',
    runReadLoop_recv (mkRead data (Some ErrEOF)) c n = Stopped c' /\
    Status c' = TCP_STATUS_NO_STATUS.
Proof.
  eexists. split; [reflexivity|]. rewrite fire_Status. reflexivity.
Qed.

Lemma pipeline_step_forward (s s' : TCPSecureConn * Z) :
  pipeline_step s s' -> status_forward (Status (fst s)) (Status (fst s')).
Proof.
  intros H. destruct H as [env c n c' n' H|env c n c' n' H|r c n c' n' H
                          |pick sockw c n c' H|dtime data c n err c' H];
    cbn [fst].
  - apply doReadPacket_iter_Next in H as (_ & _ & Hs).
    destruct (Status c); [right|contradiction|right|left]; rewrite Hs;
      try constructor; reflexivity.
  - left. eapply doReadPacket_iter_Return; eassumption.
  - left. apply runReadLoop_recv_Running in H as (_ & Hs & _). exact Hs.
  - left. eapply runWriteLoop_iter_Status; eassumption.
  - left. apply SendCtrlPacket_keeps in H as (Hs & _). exact Hs.
Qed.

Lemma status_forward_code (s s' : status) :
  status_forward s s' -> status_code s <= status_code s'.
Proof.
  intros [->|H]; [lia|]. destruct H; cbn; lia.
Qed.

Lemma pipeline_steps_status (s s' : TCPSecureConn * Z) :
  clos_refl_trans _ pipeline_step s s' ->
  status_code (Status (fst s)) <= status_code (Status (fst s')) /\
  (Status (fst s) = TCP_STATUS_CONFIRMED ->
   Status (fst s') = TCP_STATUS_CONFIRMED).
Proof.
  intros H. induction H as [s s' H| |s1 s2 s3 _ IH1 _ IH2].
  - apply pipeline_step_forward in H. split.
    + apply status_forward_code. exact H.
    + intros Hc. destruct H as [H|H]; [congruence|].
      rewrite Hc in H. inversion H.
  - split; [lia | auto].
  - destruct IH1 as [L1 K1], IH2 as [L2 K2]. split; [lia | auto].
Qed.

(** C4. Status monotonicity.  While the pipelines of a connection are active
    every step they take (a pass of the decode loop, a socket read after which
    the read loop goes on, a pass of the write loop, an enqueue) leaves the
    status where it is or moves it to its successor, NoStatus to Unconfirmed
    or Unconfirmed to Confirmed: no step goes back and none skips a state.
    Hence along every execution the status never decreases, and a Confirmed
    connection stays Confirmed. *)
Theorem status_monotone :
  (forall s s', pipeline_step s s' ->
     Status (fst s') = Status (fst s) \/
     (Status (fst s) = TCP_STATUS_NO_STATUS /\
      Status (fst s') = TCP_STATUS_UNCONFIRMED) \/
     (Status (fst s) = TCP_STATUS_UNCONFIRMED /\
      Status (fst s') = TCP_STATUS_CONFIRMED)) /\
  (forall s s', clos_refl_trans _ pipeline_step s s' ->
     status_code (Status (fst s)) <= status_code (Status (fst s')) /\
     (Status (fst s) = TCP_STATUS_CONFIRMED ->
      Status (fst s') = TCP_STATUS_CONFIRMED)).
Proof.
  split.
  - intros s s' H. apply pipeline_step_forward in H as [H|H]; [left; exact H|].
    destruct H; right; [left|right]; split; reflexivity.
  - exact pipeline_steps_status.
Qed.

End StatusOrder.

(* ------------------------------------------------------------------ *)
(** ** The decode loop terminates *)

Section Termination.

Context {C : Crypto} {CC : CryptoContract C}.

Lemma len_firstn (k : Z) (l : list byte) :
  len (firstn (Z.to_nat k) l) = Z.min (Z.max 0 k) (len l).
Proof. unfold len. rewrite length_firstn. lia. Qed.

Lemma len_skipn (k : Z) (l : list byte) :
  len (skipn (Z.to_nat k) l) = len l - Z.min (Z.max 0 k) (len l).
Proof. unfold len. rewrite length_skipn. lia. Qed.

Lemma fetch_frame_progress (c c1 : TCPSecureConn) (n n1 : Z)
    (rdbuf : list byte) :
  0 <= n < 65536 ->
  fetch_frame c n = Fetched c1 n1 rdbuf ->
  len (crbuf c1) < len (crbuf c).
Proof.
  intros Hn. unfold fetch_frame, crbuf_Read.
  destruct (Z.eqb_spec n 0) as [E0|E0]; cbn [andb].
  - destruct (Z.ltb_spec (len (crbuf c)) 2) as [H2|H2]; [discriminate|].
    destruct (Z.geb_spec (len (crbuf c)) 2) as [_|H2']; [|lia].
    rewrite !crbuf_set_crbuf.
    match goal with |- context [match ?g with Some v => v | None => n end] =>
      set (m := match g with Some v => v | None => n end) end.
    destruct (_ <? m); [discriminate|].
    destruct (uint16 (2 + m) <? 2); [discriminate|].
    destruct (_ =? _); [|discriminate]. intros H.
    match type of H with Fetched ?a _ _ = _ =>
      assert (Hc : c1 = a) by congruence end.
    rewrite Hc, crbuf_set_crbuf.
    rewrite len_skipn. pose proof (len_skipn 2 (crbuf c)) as H3.
    pose proof (len_nonneg (skipn (Z.to_nat 2) (crbuf c))). lia.
  - destruct (Z.ltb_spec (len (crbuf c)) n) as [H2|H2]; [discriminate|].
    destruct (Z.ltb_spec (uint16 (2 + n)) 2) as [H3|H3]; [discriminate|].
    destruct (Z.eqb_spec
                (len (firstn (Z.to_nat (uint16 (2 + n) - 2)) (crbuf c)) + 2)
                (uint16 (2 + n))) as [H4|H4]; [|discriminate].
    intros H.
    match type of H with Fetched ?a _ _ = _ =>
      assert (Hc : c1 = a) by congruence end.
    rewrite Hc, crbuf_set_crbuf, len_skipn. rewrite len_firstn in H4.
    assert (uint16 (2 + n) <> 2).
    { unfold uint16 in *. intros E. 
      destruct (Z.lt_ge_cases (2 + n) 65536).
      - rewrite Z.mod_small in E by lia. lia.
      - replace (2 + n) with ((2 + n - 65536) + 1 * 65536) in E by lia.
        rewrite Z.mod_add, Z.mod_small in E by lia. lia. }
    lia.
Qed.

Lemma fetch_progress (c c1 : TCPSecureConn) (n n1 : Z) (rdbuf : list byte) :
  0 <= n < 65536 ->
  Status c <> TCP_STATUS_CONNECTED ->
  fetch c n = Fetched c1 n1 rdbuf ->
  len (crbuf c1) < len (crbuf c).
Proof.
  intros Hn Hs. unfold fetch.
  destruct (Status c) eqn:Es; try contradiction.
  - unfold crbuf_Read, HANDSHAKE_REQUEST_SIZE, PUBLIC_KEY_SIZE, NONCE_SIZE.
    pose proof mac_size_range as Hm.
    unfold PUBLIC_KEY_SIZE, NONCE_SIZE in Hm.
    match goal with |- context [?a =? ?b] => destruct (Z.eqb_spec a b) as [E|E]
    end; [|discriminate].
    intros H.
    match type of H with Fetched ?a _ _ = _ =>
      assert (Hc : c1 = a) by congruence end.
    rewrite Hc, crbuf_set_crbuf, len_skipn. rewrite len_firstn in E. lia.
  - apply fetch_frame_progress. exact Hn.
  - apply fetch_frame_progress. exact Hn.
Qed.

Lemma doReadPacket_iter_progress (env : environment) (c c' : TCPSecureConn)
    (n n' : Z) :
  0 <= n < 65536 ->
  doReadPacket_iter env c n = Next c' n' ->
  (List.length (crbuf c') < List.length (crbuf c))%nat.
Proof.
  intros Hn. unfold doReadPacket_iter.
  destruct (fetch c n) as [c1 n1 rdbuf| |] eqn:Ef; try discriminate.
  destruct (dispatch env rdbuf c1) as [c2|e] eqn:Ed; [|discriminate].
  intros H. assert (c' = c2) as -> by congruence.
  pose proof (fetch_Fetched_keeps _ _ _ _ _ Ef) as (Hs & _).
  apply dispatch_Status in Ed as (Hb & Hst).
  assert (Status c <> TCP_STATUS_CONNECTED)
    by (intros E; rewrite Hs, E in Hst; exact Hst).
  pose proof (fetch_progress _ _ _ _ _ Hn H0 Ef) as Hp.
  rewrite Hb. unfold len in Hp. lia.
Qed.

Lemma doReadPacket_loop_total (env : environment) (fuel : nat) :
  forall (c : TCPSecureConn) (n : Z),
    0 <= n < 65536 ->
    (List.length (crbuf c) < fuel)%nat ->
    exists r, doReadPacket_loop fuel env c n = Some r.
Proof.
  induction fuel as [|fuel IH]; intros c n Hn Hf; [lia|].
  cbn [doReadPacket_loop].
  destruct (doReadPacket_iter env c n) as [c1 n1|c1 n1|e] eqn:E.
  - pose proof (doReadPacket_iter_progress _ _ _ _ _ Hn E) as Hp.
    apply doReadPacket_iter_Next in E as (-> & _). apply IH; lia.
  - eexists. reflexivity.
  - eexists. reflexivity.
Qed.

(** [doReadPacket] always comes back: with a value or with an abort. *)
Lemma doReadPacket_total (env : environment) (c : TCPSecureConn) (n : Z) :
  0 <= n < 65536 -> exists r, doReadPacket env c n = Some r.
Proof.
  intros Hn. apply doReadPacket_loop_total; [exact Hn | lia].
Qed.

(** What [doReadPacket] returns is reached by passes of the decode loop, and
    the pending length it leaves is again a [uint16]. *)
Lemma doReadPacket_loop_steps (env : environment) (fuel : nat) :
  forall (c c' : TCPSecureConn) (n n' : Z),
    doReadPacket_loop fuel env c n = Some (Done (c', n')) ->
    clos_refl_trans _ pipeline_step (c, n) (c', n').
Proof.
  induction fuel as [|fuel IH]; intros c c' n n'; [discriminate|].
  cbn [doReadPacket_loop].
  destruct (doReadPacket_iter env c n) as [c1 n1|c1 n1|e] eqn:E.
  - intros H. eapply rt_trans; [|apply IH; exact H].
    apply rt_step. eapply step_decode. exact E.
  - intros [= <- <-]. apply rt_step. eapply step_starved. exact E.
  - discriminate.
Qed.

(** What a pass of [runReadLoop] that goes on has done is a socket read
    followed by passes of the decode loop. *)
Lemma runReadLoop_iter_steps (env : environment) (r : read_result)
    (c c' : TCPSecureConn) (n n' : Z) :
  runReadLoop_iter env r c n = Some (Running c' n') ->
  clos_refl_trans _ pipeline_step (c, n) (c', n').
Proof.
  unfold runReadLoop_iter.
  destruct (runReadLoop_recv r c n) as [c1 n1|c1|e] eqn:Er; try discriminate.
  destruct (doReadPacket env c1 n1) as [[[c2 n2]|e]|] eqn:Ed; try discriminate.
  intros HR. assert (c' = c2 /\ n' = n2) as [-> ->] by (split; congruence).
  eapply rt_trans.
  - apply rt_step. eapply step_recv. exact Er.
  - eapply doReadPacket_loop_steps. exact Ed.
Qed.

Lemma runReadLoop_steps (env : environment) (reads : list read_result) :
  forall (c c' : TCPSecureConn) (n n' : Z),
    runReadLoop env reads c n = Some (Running c' n') ->
    clos_refl_trans _ pipeline_step (c, n) (c', n').
Proof.
  induction reads as [|r reads IH]; intros c c' n n'; cbn [runReadLoop].
  - intros HR. assert (c' = c /\ n' = n) as [-> ->] by (split; congruence).
    apply rt_refl.
  - destruct (runReadLoop_iter env r c n) as [[c1 n1|c1|e]|] eqn:E;
      try discriminate.
    intros HR. eapply rt_trans.
    + eapply runReadLoop_iter_steps. exact E.
    + apply IH. exact HR.
Qed.

(** As long as [runReadLoop] goes on, the status it leaves is not behind the
    status it found, and Confirmed it keeps. *)
Lemma runReadLoop_status (env : environment) (reads : list read_result)
    (c c' : TCPSecureConn) (n n' : Z) :
  runReadLoop env reads c n = Some (Running c' n') ->
  status_code (Status c) <= status_code (Status c') /\
  (Status c = TCP_STATUS_CONFIRMED -> Status c' = TCP_STATUS_CONFIRMED).
Proof.
  intros HR. apply runReadLoop_steps in HR.
  apply pipeline_steps_status in HR. exact HR.
Qed.

End Termination.

(* ------------------------------------------------------------------ *)
(** ** Length-prefixed reassembly: the first [switch] *)

Lemma get_uint16_be_put (n : Z) (rest : list byte) :
  0 <= n < 65536 -> get_uint16_be (put_uint16_be n ++ rest) = Some n.
Proof.
  intros Hn. rewrite get_put_uint16_be, uint16_small by exact Hn. reflexivity.
Qed.

Lemma len_put_uint16_be (n : Z) : len (put_uint16_be n) = 2.
Proof. reflexivity. Qed.

Lemma firstn_len_app (a b : list byte) : firstn (Z.to_nat (len a)) (a ++ b) = a.
Proof.
  unfold len. rewrite Nat2Z.id, firstn_app, Nat.sub_diag, firstn_all.
  cbn [firstn]. apply app_nil_r.
Qed.

Lemma skipn_len_app (a b : list byte) : skipn (Z.to_nat (len a)) (a ++ b) = b.
Proof.
  unfold len. rewrite Nat2Z.id, skipn_app, Nat.sub_diag, skipn_all.
  reflexivity.
Qed.

Lemma firstn_2_put (n : Z) (rest : list byte) :
  firstn (Z.to_nat 2) (put_uint16_be n ++ rest) = put_uint16_be n ++ [].
Proof. reflexivity. Qed.

Lemma skipn_2_put (n : Z) (rest : list byte) :
  skipn (Z.to_nat 2) (put_uint16_be n ++ rest) = rest.
Proof. reflexivity. Qed.


(** The length is read, fewer bytes than it announces are buffered: back to
    the socket, with the length pending. *)
Lemma fetch_frame_waits_for_body (c : TCPSecureConn) (n : Z)
    (part : list byte) :
  0 <= n < 65536 ->
  crbuf c = put_uint16_be n ++ part ->
  len part < n ->
  fetch_frame c 0 = Starved (set_crbuf part c) n.
Proof.
  intros Hn Hb Hp. unfold fetch_frame, crbuf_Read. cbn [Z.eqb andb].
  rewrite Hb, len_app, len_put_uint16_be. pose proof (len_nonneg part).
  destruct (Z.ltb_spec (2 + len part) 2); [lia|].
  destruct (Z.geb_spec (2 + len part) 2); [|lia].
  rewrite !firstn_2_put, !skipn_2_put.
  rewrite get_uint16_be_put, crbuf_set_crbuf by exact Hn.
  destruct (Z.ltb_spec (len part) n); [reflexivity | lia].
Qed.

(** A length is pending and fewer bytes than it announces are buffered: back
    to the socket, the length still pending. *)
Lemma fetch_frame_still_waits (c : TCPSecureConn) (n : Z) :
  n <> 0 -> len (crbuf c) < n -> fetch_frame c n = Starved c n.
Proof.
  intros Hn Hl. unfold fetch_frame.
  destruct (Z.eqb_spec n 0); [contradiction|]. cbn [andb].
  destruct (Z.ltb_spec (len (crbuf c)) n); [reflexivity | lia].
Qed.

Lemma uint16_two_plus (n : Z) : 0 <= n <= 65533 -> uint16 (2 + n) = 2 + n.
Proof. intros H. apply uint16_small. lia. Qed.

(** The length and the bytes it announces are buffered, and the length is at
    most 65533: exactly one frame of that length leaves the buffer. *)
Lemma fetch_frame_extracts (c : TCPSecureConn) (n : Z) (ct rest : list byte) :
  0 <= n <= 65533 ->
  crbuf c = put_uint16_be n ++ ct ++ rest ->
  len ct = n ->
  fetch_frame c 0 = Fetched (set_crbuf rest c) n (put_uint16_be n ++ ct).
Proof.
  intros Hn Hb Hc. unfold fetch_frame, crbuf_Read. cbn [Z.eqb andb].
  rewrite Hb, !len_app, len_put_uint16_be. pose proof (len_nonneg rest).
  destruct (Z.ltb_spec (2 + (len ct + len rest)) 2); [lia|].
  destruct (Z.geb_spec (2 + (len ct + len rest)) 2); [|lia].
  rewrite !firstn_2_put, !skipn_2_put.
  rewrite get_uint16_be_put, crbuf_set_crbuf by lia.
  rewrite len_app.
  destruct (Z.ltb_spec (len ct + len rest) n); [lia|].
  rewrite uint16_two_plus by exact Hn.
  destruct (Z.ltb_spec (2 + n) 2); [lia|].
  replace (2 + n - 2) with (len ct) by lia.
  rewrite firstn_len_app, skipn_len_app.
  destruct (Z.eqb_spec (len ct + 2) (2 + n)); [|lia].
  reflexivity.
Qed.

(** The same with the length pending from an earlier call. *)
Lemma fetch_frame_extracts_pending (c : TCPSecureConn) (n : Z)
    (ct rest : list byte) :
  1 <= n <= 65533 ->
  crbuf c = ct ++ rest ->
  len ct = n ->
  fetch_frame c n = Fetched (set_crbuf rest c) n (put_uint16_be n ++ ct).
Proof.
  intros Hn Hb Hc. unfold fetch_frame, crbuf_Read.
  destruct (Z.eqb_spec n 0); [lia|]. cbn [andb].
  rewrite Hb, !len_app. pose proof (len_nonneg rest).
  destruct (Z.ltb_spec (len ct + len rest) n); [lia|].
  rewrite uint16_two_plus by lia.
  destruct (Z.ltb_spec (2 + n) 2); [lia|].
  replace (2 + n - 2) with (len ct) by lia.
  rewrite firstn_len_app, skipn_len_app.
  destruct (Z.eqb_spec (len ct + 2) (2 + n)); [|lia].
  reflexivity.
Qed.

(** A length of 65534 or 65535 with its bytes buffered: the size of the frame
    buffer, [2 + nxtpktlen] in [uint16], wraps to 0 or 1 and slicing it at 2
    panics. *)
Lemma fetch_frame_length_overflow (c : TCPSecureConn) (n : Z)
    (body : list byte) :
  65534 <= n <= 65535 ->
  crbuf c = put_uint16_be n ++ body ->
  n <= len body ->
  fetch_frame c 0 = FetchAbort (Panic "slice bounds out of range").
Proof.
  intros Hn Hb Hl. unfold fetch_frame, crbuf_Read. cbn [Z.eqb andb].
  rewrite Hb, !len_app, len_put_uint16_be.
  destruct (Z.ltb_spec (2 + len body) 2); [lia|].
  destruct (Z.geb_spec (2 + len body) 2); [|lia].
  rewrite !firstn_2_put, !skipn_2_put.
  rewrite get_uint16_be_put, crbuf_set_crbuf by lia.
  destruct (Z.ltb_spec (len body) n); [lia|].
  assert (Hw : uint16 (2 + n) < 2).
  { unfold uint16. replace (2 + n) with ((n - 65534) + 1 * 65536) by lia.
    rewrite Z.mod_add, Z.mod_small by lia. lia. }
  destruct (Z.ltb_spec (uint16 (2 + n)) 2); [reflexivity | lia].
Qed.

(* ------------------------------------------------------------------ *)
(** ** Decoding a frame: the second [switch] *)

Lemma handle_confirmed_cases (ptype : Z) :
  0 <= ptype < 256 ->
  (ptype = 0 \/ ptype = 6 \/ ptype = 8) /\
    handle_confirmed ptype = Abort (Fatal "wtf") \/
  ~ (ptype = 0 \/ ptype = 6 \/ ptype = 8) /\
    handle_confirmed ptype = Done tt.
Proof.
  intros Hr. unfold handle_confirmed, TCP_PACKET_PING, TCP_PACKET_PONG,
    TCP_PACKET_ROUTING_RESPONSE, TCP_PACKET_CONNECTION_NOTIFICATION,
    TCP_PACKET_DISCONNECT_NOTIFICATION, TCP_PACKET_OOB_RECV,
    TCP_PACKET_ONION_RESPONSE, NUM_RESERVED_PORTS.
  repeat match goal with
  | |- context [?a =? ?b] => destruct (Z.eqb_spec a b); [right; split; [lia | reflexivity]|]
  end.
  destruct (Z.geb_spec ptype 16); [right; split; [lia | reflexivity]|].
  destruct (Z.gtb_spec ptype 9); destruct (Z.ltb_spec ptype 16); cbn [andb];
    try (right; split; [lia | reflexivity]);
    left; split; try reflexivity; lia.
Qed.

Section Decoding.

Context {C : Crypto}.

Lemma Unpacket_frame (c : TCPSecureConn) (n : Z) (ct : list byte) :
  0 <= n < 65536 ->
  Unpacket (put_uint16_be n ++ ct) c =
  Done (n, fst (DecryptDataSymmetric (Shrkey c) (RecvNonce c) ct),
        snd (DecryptDataSymmetric (Shrkey c) (RecvNonce c) ct),
        set_RecvNonce (Incr (RecvNonce c)) c).
Proof.
  intros Hn. unfold Unpacket. rewrite get_uint16_be_put by exact Hn.
  change 2 with (len (put_uint16_be n)). rewrite slice_from_app. cbn [bind].
  destruct (DecryptDataSymmetric (Shrkey c) (RecvNonce c) ct). reflexivity.
Qed.

(** The pass of the decode loop on the first frame after the handshake: the
    plaintext goes to [HandlePingRequest] whatever its type byte and whatever
    error the decryption reported. *)
Lemma first_packet_pass (env : environment) (c : TCPSecureConn) (n : Z)
    (ct rest : list byte) (ptype : byte) (pingid : list byte)
    (err : option error) :
  Status c = TCP_STATUS_UNCONFIRMED ->
  0 <= n <= 65533 ->
  crbuf c = put_uint16_be n ++ ct ++ rest ->
  len ct = n ->
  DecryptDataSymmetric (Shrkey c) (RecvNonce c) ct = (ptype :: pingid, err) ->
  doReadPacket_iter env c 0 =
  match SendCtrlPacket (enqueue_elapsed env)
          (byte_of_Z TCP_PACKET_PONG :: pingid)
          (set_RecvNonce (Incr (RecvNonce c)) (set_crbuf rest c)) with
  | Done (_, c1) =>
      Next (fire (OnConfirmed c1) EvConfirmed
              (set_Status TCP_STATUS_CONFIRMED c1)) 0
  | Abort e => Halt e
  end.
Proof.
  intros Hs Hn Hb Hl Hd.
  unfold doReadPacket_iter, fetch. rewrite Hs.
  rewrite (fetch_frame_extracts c n ct rest Hn Hb Hl).
  unfold dispatch. rewrite Status_set_crbuf, Hs.
  rewrite Unpacket_frame by lia.
  change (Shrkey (set_crbuf rest c)) with (Shrkey c).
  change (RecvNonce (set_crbuf rest c)) with (RecvNonce c).
  rewrite Hd. cbn [fst snd bind index0].
  unfold HandlePingRequest.
  replace (slice_from 1 (ptype :: pingid)) with (Done (A:=list byte) pingid)
    by (symmetry; apply (slice_from_app [ptype] pingid)).
  cbn [bind].
  destruct (SendCtrlPacket _ _ _) as [[e1 c1]|e]; reflexivity.
Qed.

(** C5. First-packet special case.  A connection in state Unconfirmed whose
    buffer holds a whole frame that decrypts to a type byte followed by an
    8-byte ping id, with room in the control queue and an enqueue within the
    five milliseconds [SendCtrlPacket] tolerates: the pass of the decode loop
    treats the plaintext as a ping request whatever its type byte, appends to
    the control queue the PONG that echoes the ping id, sets the status to
    Confirmed, and fires [OnConfirmed] when it is set. *)
Theorem first_packet_confirms (env : environment) (c : TCPSecureConn) (n : Z)
    (ct rest : list byte) (ptype : byte) (pingid : list byte) :
  Status c = TCP_STATUS_UNCONFIRMED ->
  0 <= n <= 65533 ->
  crbuf c = put_uint16_be n ++ ct ++ rest ->
  len ct = n ->
  DecryptDataSymmetric (Shrkey c) (RecvNonce c) ct = (ptype :: pingid, None) ->
  len pingid = 8 ->
  len (chan_buf (cwctrlq c)) < chan_cap (cwctrlq c) ->
  enqueue_elapsed env <= 5 * Millisecond ->
  exists c',
    doReadPacket_iter env c 0 = Next c' 0 /\
    Status c' = TCP_STATUS_CONFIRMED /\
    chan_buf (cwctrlq c') =
      chan_buf (cwctrlq c) ++ [byte_of_Z TCP_PACKET_PONG :: pingid] /\
    events c' = events c ++ (if OnConfirmed c then [EvConfirmed] else []) /\
    crbuf c' = rest /\
    RecvNonce c' = Incr (RecvNonce c).
Proof.
  intros Hs Hn Hb Hl Hd Hp Hroom Hfast.
  rewrite (first_packet_pass env c n ct rest ptype pingid None Hs Hn Hb Hl Hd).
  unfold SendCtrlPacket, chan_try_send.
  cbn [cwctrlq set_RecvNonce set_crbuf].
  rewrite len_cons, Hp.
  destruct (Z.gtb_spec (1 + 8) 2048); [lia|].
  destruct (Z.geb_spec (len (chan_buf (cwctrlq c))) (chan_cap (cwctrlq c)));
    [lia|].
  destruct (Z.ltb_spec (len (chan_buf (cwctrlq c))) (chan_cap (cwctrlq c)));
    [|lia].
  destruct (Z.gtb_spec (enqueue_elapsed env) (5 * Millisecond)); [lia|].
  eexists. split; [reflexivity|].
  cbn [OnConfirmed set_Status set_cwctrlq set_RecvNonce set_crbuf].
  destruct (OnConfirmed c); cbn; rewrite ?app_nil_r; auto.
Qed.

(** The same pass with a full control queue: the PONG is dropped and the
    connection becomes Confirmed all the same. *)
Lemma first_packet_queue_full (env : environment) (c : TCPSecureConn) (n : Z)
    (ct rest : list byte) (ptype : byte) (pingid : list byte)
    (err : option error) :
  Status c = TCP_STATUS_UNCONFIRMED ->
  0 <= n <= 65533 ->
  crbuf c = put_uint16_be n ++ ct ++ rest ->
  len ct = n ->
  DecryptDataSymmetric (Shrkey c) (RecvNonce c) ct = (ptype :: pingid, err) ->
  chan_cap (cwctrlq c) <= len (chan_buf (cwctrlq c)) ->
  exists c',
    doReadPacket_iter env c 0 = Next c' 0 /\
    Status c' = TCP_STATUS_CONFIRMED /\
    cwctrlq c' = cwctrlq c.
Proof.
  intros Hs Hn Hb Hl Hd Hfull.
  rewrite (first_packet_pass env c n ct rest ptype pingid err Hs Hn Hb Hl Hd).
  unfold SendCtrlPacket. cbn [cwctrlq set_RecvNonce set_crbuf].
  destruct (_ >? 2048).
  - eexists. split; [reflexivity|]. rewrite fire_Status, fire_cwctrlq. auto.
  - destruct (Z.geb_spec (len (chan_buf (cwctrlq c))) (chan_cap (cwctrlq c)));
      [|lia].
    eexists. split; [reflexivity|]. rewrite fire_Status, fire_cwctrlq. auto.
Qed.

(** The same pass with room in the queue and an enqueue measured above five
    milliseconds: the pass ends in [log.Fatalln]. *)
Lemma first_packet_slow_enqueue (env : environment) (c : TCPSecureConn)
    (n : Z) (ct rest : list byte) (ptype : byte) (pingid : list byte)
    (err : option error) :
  Status c = TCP_STATUS_UNCONFIRMED ->
  0 <= n <= 65533 ->
  crbuf c = put_uint16_be n ++ ct ++ rest ->
  len ct = n ->
  DecryptDataSymmetric (Shrkey c) (RecvNonce c) ct = (ptype :: pingid, err) ->
  len pingid <= 2047 ->
  len (chan_buf (cwctrlq c)) < chan_cap (cwctrlq c) ->
  5 * Millisecond < enqueue_elapsed env ->
  doReadPacket_iter env c 0 = Halt (Fatal "send use too long").
Proof.
  intros Hs Hn Hb Hl Hd Hp Hroom Hslow.
  rewrite (first_packet_pass env c n ct rest ptype pingid err Hs Hn Hb Hl Hd).
  unfold SendCtrlPacket, chan_try_send.
  cbn [cwctrlq set_RecvNonce set_crbuf]. rewrite len_cons.
  destruct (Z.gtb_spec (1 + len pingid) 2048); [lia|].
  destruct (Z.geb_spec (len (chan_buf (cwctrlq c))) (chan_cap (cwctrlq c)));
    [lia|].
  destruct (Z.ltb_spec (len (chan_buf (cwctrlq c))) (chan_cap (cwctrlq c)));
    [|lia].
  destruct (Z.gtb_spec (enqueue_elapsed env) (5 * Millisecond)); [|lia].
  reflexivity.
Qed.

(** In state Confirmed a pass of the decode loop enqueues nothing and writes
    nothing, whatever the packet type. *)
Lemma confirmed_pass_sends_nothing (env : environment) (c c' : TCPSecureConn)
    (n n' : Z) :
  Status c = TCP_STATUS_CONFIRMED ->
  doReadPacket_iter env c n = Next c' n' ->
  cwctrlq c' = cwctrlq c /\ Sock c' = Sock c.
Proof.
  intros Hs. unfold doReadPacket_iter, fetch. rewrite Hs.
  destruct (fetch_frame c n) as [c1 n1 rdbuf| |] eqn:Ef; try discriminate.
  assert (Hc1 : cwctrlq c1 = cwctrlq c /\ Sock c1 = Sock c /\
                Status c1 = Status c).
  { revert Ef. unfold fetch_frame, crbuf_Read.
    destruct (_ && _); [discriminate|]. destruct (_ && _).
    - destruct (_ <? _); [discriminate|]. destruct (_ <? 2); [discriminate|].
      destruct (_ =? _); [|discriminate]. intros H.
      match type of H with Fetched ?a _ _ = _ =>
        assert (Hc : c1 = a) by congruence end.
      rewrite Hc. auto.
    - destruct (_ <? _); [discriminate|]. destruct (_ <? 2); [discriminate|].
      destruct (_ =? _); [|discriminate]. intros H.
      match type of H with Fetched ?a _ _ = _ =>
        assert (Hc : c1 = a) by congruence end.
      rewrite Hc. auto. }
  destruct Hc1 as (Hq & Hk & Hs1).
  unfold dispatch. rewrite Hs1, Hs.
  destruct (Unpacket rdbuf c1) as [[[[dl p] er] c2]|e] eqn:E; [|discriminate].
  cbn [bind]. destruct (index0 p) as [pt|e]; [|discriminate]. cbn [bind].
  destruct (handle_confirmed pt) as [[]|e]; [|discriminate]. cbn [bind].
  intros H. assert (c' = c2) as -> by congruence.
  apply Unpacket_keeps in E as (_ & _ & Hk2 & Hq2). split; congruence.
Qed.

(** C8. Confirmed-state dispatch.  For a frame decoded in state Confirmed
    whose plaintext starts with the type byte [ptype]: the pass ends in
    [log.Fatalln] exactly when the type is ROUTING_REQUEST (0), OOB_SEND (6)
    or ONION_REQUEST (8); for every other type, and so for the reserved types
    10 to 15, the pass goes on without error. *)
Theorem confirmed_dispatch (env : environment) (c : TCPSecureConn) (n : Z)
    (ct rest : list byte) (ptype : byte) (body : list byte)
    (err : option error) :
  Status c = TCP_STATUS_CONFIRMED ->
  0 <= n <= 65533 ->
  crbuf c = put_uint16_be n ++ ct ++ rest ->
  len ct = n ->
  DecryptDataSymmetric (Shrkey c) (RecvNonce c) ct = (ptype :: body, err) ->
  (10 <= byte_to_Z ptype <= 15 ->
   doReadPacket_iter env c 0 =
     Next (set_RecvNonce (Incr (RecvNonce c)) (set_crbuf rest c)) 0) /\
  (byte_to_Z ptype = TCP_PACKET_ROUTING_REQUEST \/
   byte_to_Z ptype = TCP_PACKET_OOB_SEND \/
   byte_to_Z ptype = TCP_PACKET_ONION_REQUEST ->
   doReadPacket_iter env c 0 = Halt (Fatal "wtf")) /\
  (~ (byte_to_Z ptype = TCP_PACKET_ROUTING_REQUEST \/
      byte_to_Z ptype = TCP_PACKET_OOB_SEND \/
      byte_to_Z ptype = TCP_PACKET_ONION_REQUEST) ->
   doReadPacket_iter env c 0 =
     Next (set_RecvNonce (Incr (RecvNonce c)) (set_crbuf rest c)) 0).
Proof.
  intros Hs Hn Hb Hl Hd.
  assert (Hiter : doReadPacket_iter env c 0 =
            match handle_confirmed (byte_to_Z ptype) with
            | Done _ =>
                Next (set_RecvNonce (Incr (RecvNonce c)) (set_crbuf rest c)) 0
            | Abort e => Halt e
            end).
  { unfold doReadPacket_iter, fetch. rewrite Hs.
    rewrite (fetch_frame_extracts c n ct rest Hn Hb Hl).
    unfold dispatch. rewrite Status_set_crbuf, Hs.
    rewrite Unpacket_frame by lia.
    change (Shrkey (set_crbuf rest c)) with (Shrkey c).
    change (RecvNonce (set_crbuf rest c)) with (RecvNonce c).
    rewrite Hd. cbn [fst snd bind index0].
    destruct (handle_confirmed (byte_to_Z ptype)) as [[]|e]; reflexivity. }
  rewrite Hiter.
  unfold TCP_PACKET_ROUTING_REQUEST, TCP_PACKET_OOB_SEND,
    TCP_PACKET_ONION_REQUEST.
  destruct (handle_confirmed_cases (byte_to_Z ptype) (byte_to_Z_range ptype))
    as [[Hin ->]|[Hout ->]].
  - refine (conj _ (conj _ _)); intros H; try reflexivity; lia.
  - refine (conj _ (conj _ _)); intros H; try reflexivity; contradiction.
Qed.

End Decoding.

(* ------------------------------------------------------------------ *)
(** ** The handshake *)

Lemma slice_prefix (a r : list byte) (hi : Z) :
  hi = len a -> slice 0 hi (a ++ r) = Done a.
Proof.
  intros ->. unfold slice. rewrite len_app.
  pose proof (len_nonneg a). pose proof (len_nonneg r).
  destruct (Z.leb_spec 0 (len a)); [|lia].
  destruct (Z.leb_spec (len a) (len a + len r)); [|lia].
  cbn [Z.leb andb Z.to_nat skipn]. rewrite Z.sub_0_r, firstn_len_app.
  reflexivity.
Qed.

Lemma slice_mid (a b r : list byte) (lo hi : Z) :
  lo = len a -> hi = len a + len b -> slice lo hi (a ++ b ++ r) = Done b.
Proof.
  intros -> ->. unfold slice. rewrite !len_app.
  pose proof (len_nonneg a). pose proof (len_nonneg b).
  pose proof (len_nonneg r).
  destruct (Z.leb_spec 0 (len a)); [|lia].
  destruct (Z.leb_spec (len a) (len a + len b)); [|lia].
  destruct (Z.leb_spec (len a + len b) (len a + (len b + len r))); [|lia].
  cbn [andb]. rewrite skipn_len_app.
  replace (len a + len b - len a) with (len b) by lia.
  rewrite firstn_len_app. reflexivity.
Qed.

Lemma slice_from_suffix (a r : list byte) (lo : Z) :
  lo = len a -> slice_from lo (a ++ r) = Done r.
Proof. intros ->. apply slice_from_app. Qed.

Section Handshake.

Context {C : Crypto}.

Lemma HandleHandshake_run (env : environment) (c : TCPSecureConn)
    (pk nn blob shrkey0 tpk seed : list byte) (e0 e1 : option error) :
  len pk = PUBLIC_KEY_SIZE ->
  len nn = NONCE_SIZE ->
  CBBeforeNm pk (Seckey c) = (shrkey0, e0) ->
  DecryptDataSymmetric shrkey0 nn blob = (tpk ++ seed, e1) ->
  len tpk = PUBLIC_KEY_SIZE ->
  len seed = NONCE_SIZE ->
  HandleHandshake env (pk ++ nn ++ blob) c =
  Done (Sock_Write (hs_write env)
          (rnd_srvTmpNonce env ++
           fst (EncryptDataSymmetric shrkey0 (rnd_srvTmpNonce env)
                  (rnd_tmpPubkey env ++ rnd_SentNonce env)))
          (set_Shrkey (fst (CBBeforeNm tpk (rnd_tmpSeckey env)))
             (set_SentNonce (rnd_SentNonce env)
                (set_RecvNonce seed (set_Pubkey pk c))))).
Proof.
  intros Hpk Hnn Hk Hd Htpk Hseed. unfold HandleHandshake.
  rewrite (slice_prefix pk (nn ++ blob)) by lia. cbn [bind].
  rewrite (slice_mid pk nn blob) by lia. cbn [bind].
  unfold NewCryptoKey, NewCBNonce. rewrite Hk.
  rewrite app_assoc.
  rewrite (slice_from_suffix (pk ++ nn) blob) by (rewrite len_app; lia).
  cbn [bind]. rewrite Hd.
  rewrite (slice_prefix tpk seed) by lia. cbn [bind].
  rewrite <- (app_nil_r seed) at 1.
  rewrite (slice_mid tpk seed []) by lia. cbn [bind].
  cbn [SentNonce set_Shrkey set_SentNonce].
  destruct (EncryptDataSymmetric shrkey0 (rnd_srvTmpNonce env)
              (rnd_tmpPubkey env ++ rnd_SentNonce env)) as [encpkt e2].
  reflexivity.
Qed.

(** C9. Handshake processing.  In state NoStatus, with a handshake request of
    2 * (32 + 24) + MAC_SIZE bytes at the head of the buffer (the client's
    public key, its outer nonce and the encrypted blob): the relay derives
    [shrkey0] from the client's public key and its own secret key, decrypts
    the blob into the client's temporary public key and the receive-nonce
    seed, derives [Shrkey] from that temporary public key and the freshly
    drawn temporary secret key, writes to the socket the freshly drawn plain
    nonce followed by the encryption under [shrkey0] and that nonce of the
    temporary public key followed by the freshly drawn send nonce, and then
    sets the status to Unconfirmed. *)
Theorem handshake_processing (env : environment) (c : TCPSecureConn) (nxt : Z)
    (pk nn blob rest shrkey0 tpk seed : list byte) (e0 e1 : option error) :
  Status c = TCP_STATUS_NO_STATUS ->
  crbuf c = pk ++ nn ++ blob ++ rest ->
  len pk = PUBLIC_KEY_SIZE ->
  len nn = NONCE_SIZE ->
  len blob = PUBLIC_KEY_SIZE + NONCE_SIZE + MAC_SIZE ->
  CBBeforeNm pk (Seckey c) = (shrkey0, e0) ->
  DecryptDataSymmetric shrkey0 nn blob = (tpk ++ seed, e1) ->
  len tpk = PUBLIC_KEY_SIZE ->
  len seed = NONCE_SIZE ->
  let response :=
    rnd_srvTmpNonce env ++
    fst (EncryptDataSymmetric shrkey0 (rnd_srvTmpNonce env)
           (rnd_tmpPubkey env ++ rnd_SentNonce env)) in
  exists c',
    doReadPacket_iter env c nxt = Next c' 0 /\
    Pubkey c' = pk /\
    RecvNonce c' = seed /\
    SentNonce c' = rnd_SentNonce env /\
    Shrkey c' = fst (CBBeforeNm tpk (rnd_tmpSeckey env)) /\
    Sock c' = Sock c ++ firstn (Z.to_nat (wr_n (hs_write env))) response /\
    (wr_n (hs_write env) = len response -> Sock c' = Sock c ++ response) /\
    Status c' = TCP_STATUS_UNCONFIRMED /\
    crbuf c' = rest.
Proof.
  intros Hs Hb Hpk Hnn Hblob Hk Hd Htpk Hseed response.
  assert (Hreq : len (pk ++ nn ++ blob) = HANDSHAKE_REQUEST_SIZE).
  { rewrite !len_app. unfold HANDSHAKE_REQUEST_SIZE. lia. }
  unfold doReadPacket_iter, fetch, crbuf_Read. rewrite Hs, Hb.
  replace (pk ++ nn ++ blob ++ rest) with ((pk ++ nn ++ blob) ++ rest)
    by (rewrite <- !app_assoc; reflexivity).
  rewrite <- Hreq, firstn_len_app, skipn_len_app, Z.eqb_refl.
  unfold dispatch. rewrite Status_set_crbuf, Hs.
  rewrite (HandleHandshake_run env (set_crbuf rest c) pk nn blob shrkey0
             tpk seed e0 e1 Hpk Hnn Hk Hd Htpk Hseed).
  cbn [bind]. eexists. split; [reflexivity|].
  fold response. unfold Sock_Write.
  refine (conj _ (conj _ (conj _ (conj _ (conj _ (conj _ (conj _ _)))))));
    try reflexivity.
  intros Hw. rewrite Hw. unfold len. rewrite Nat2Z.id, firstn_all.
  reflexivity.
Qed.

End Handshake.

Section PartialHandshake.

Context {C : Crypto} {CC : CryptoContract C}.

(** C10. A partial handshake is fatal.  In state NoStatus the decode loop
    reads the handshake request size from the buffer without looking at how
    many bytes it holds: whenever fewer bytes are buffered, the pass, the call
    of [doReadPacket] and the pass of [runReadLoop] that delivered the bytes
    all end in the failed assertion "not read enough data", where the path of
    the later states returns and waits. *)
Theorem partial_handshake_aborts (env : environment) (c : TCPSecureConn)
    (nxt : Z) :
  Status c = TCP_STATUS_NO_STATUS ->
  len (crbuf c) < HANDSHAKE_REQUEST_SIZE ->
  doReadPacket_iter env c nxt = Halt (AssertFailed "not read enough data") /\
  doReadPacket env c nxt = Some (Abort (AssertFailed "not read enough data")) /\
  (forall (c0 : TCPSecureConn) (data : list byte),
      Status c0 = TCP_STATUS_NO_STATUS ->
      1 <= len data ->
      crbuf c = crbuf c0 ++ data ->
      runReadLoop_iter env (mkRead data None) c0 nxt =
        Some (Crashed (AssertFailed "not read enough data"))).
Proof.
  intros Hs Hl.
  assert (Hit : forall c1, Status c1 = TCP_STATUS_NO_STATUS ->
                  crbuf c1 = crbuf c ->
                  doReadPacket_iter env c1 nxt =
                    Halt (AssertFailed "not read enough data")).
  { intros c1 Hs1 Hb1. unfold doReadPacket_iter, fetch, crbuf_Read.
    rewrite Hs1, Hb1.
    destruct (Z.eqb_spec
                (len (firstn (Z.to_nat HANDSHAKE_REQUEST_SIZE) (crbuf c)))
                HANDSHAKE_REQUEST_SIZE) as [E|E]; [|reflexivity].
    rewrite len_firstn in E. lia. }
  refine (conj (Hit c Hs eq_refl) (conj _ _)).
  - unfold doReadPacket. cbn [doReadPacket_loop].
    rewrite (Hit c Hs eq_refl). reflexivity.
  - intros c0 data Hs0 Hd Hb.
    unfold runReadLoop_iter, runReadLoop_recv. cbn [rd_err rd_data].
    destruct (Z.ltb_spec (len data) 1); [lia|].
    rewrite fire_crbuf.
    assert (Hcap : len (crbuf c0) + len data <= CRBUF_CAP).
    { pose proof mac_size_range as Hm. rewrite Hb, len_app in Hl.
      unfold HANDSHAKE_REQUEST_SIZE, PUBLIC_KEY_SIZE, NONCE_SIZE in *.
      unfold CRBUF_CAP. lia. }
    destruct (Z.leb_spec (len (crbuf c0) + len data) CRBUF_CAP); [|lia].
    unfold doReadPacket. cbn [doReadPacket_loop].
    rewrite Hit; [reflexivity | |]; unfold crbuf_Write.
    + rewrite Status_set_crbuf, fire_Status. exact Hs0.
    + rewrite crbuf_set_crbuf, fire_crbuf. symmetry. exact Hb.
Qed.

End PartialHandshake.

(* ------------------------------------------------------------------ *)
(** ** The model on concrete connections *)

Section Examples.

#[local] Existing Instance Toy.crypto.

Lemma first_packet_confirms_witness :
  exists c',
    doReadPacket_iter Toy.env0
      (set_crbuf Toy.ping_frame (Toy.established TCP_STATUS_UNCONFIRMED)) 0 =
      Next c' 0 /\
    Status c' = TCP_STATUS_CONFIRMED /\
    chan_buf (cwctrlq c') = [] ++ [Toy.pong42] /\
    events c' = [] ++ [EvConfirmed] /\
    crbuf c' = [] /\
    RecvNonce c' = Incr (repeat x00 24).
Proof.
  refine (first_packet_confirms Toy.env0
            (set_crbuf Toy.ping_frame (Toy.established TCP_STATUS_UNCONFIRMED))
            25 Toy.ping_ct [] x04 (tl Toy.ping42) eq_refl _ _ _ _ _ _ _).
  - lia.
  - vm_compute. reflexivity.
  - vm_compute. reflexivity.
  - vm_compute. reflexivity.
  - vm_compute. reflexivity.
  - vm_compute. reflexivity.
  - vm_compute. discriminate.
Defined.

(** C6. Confirmed-state ping, on the frame of the ping request
    [{type = 4, pingid = 42}] received in state Confirmed: the frame decrypts
    to the ping request, the pass of the decode loop goes on, and neither is a
    PONG put in the control queue nor is anything written to the socket. *)
Theorem confirmed_ping_gets_no_pong :
  let c := set_crbuf Toy.ping_frame (Toy.established TCP_STATUS_CONFIRMED) in
  exists c1 c',
    Unpacket Toy.ping_frame c = Done (25, Toy.ping42, None, c1) /\
    doReadPacket_iter Toy.env0 c 0 = Next c' 0 /\
    Status c' = TCP_STATUS_CONFIRMED /\
    chan_buf (cwctrlq c') = [] /\
    chan_buf (cwdataq c') = [] /\
    Sock c' = [].
Proof.
  eexists. eexists. split; [vm_compute; reflexivity|].
  split; [vm_compute; reflexivity|]. auto.
Qed.

Lemma confirmed_dispatch_witness :
  doReadPacket_iter Toy.env0
    (set_crbuf (put_uint16_be 18 ++ Toy.routing_ct)
       (Toy.established TCP_STATUS_CONFIRMED)) 0 = Halt (Fatal "wtf").
Proof.
  refine (proj1 (proj2 (confirmed_dispatch Toy.env0
            (set_crbuf (put_uint16_be 18 ++ Toy.routing_ct)
               (Toy.established TCP_STATUS_CONFIRMED))
            18 Toy.routing_ct [] x00 [x01] None eq_refl _ _ _ _)) _).
  - lia.
  - vm_compute. reflexivity.
  - vm_compute. reflexivity.
  - vm_compute. reflexivity.
  - left. reflexivity.
Defined.

Lemma handshake_processing_witness :
  exists c',
    doReadPacket_iter Toy.env0
      (Toy.accepted (Toy.client_pk ++ Toy.client_nonce ++ Toy.hs_blob)) 0 =
      Next c' 0 /\
    Pubkey c' = Toy.client_pk /\
    RecvNonce c' = Toy.recv_seed /\
    SentNonce c' = rnd_SentNonce Toy.env0 /\
    Shrkey c' = fst (CBBeforeNm Toy.client_tmp_pk (rnd_tmpSeckey Toy.env0)) /\
    Status c' = TCP_STATUS_UNCONFIRMED /\
    crbuf c' = [].
Proof.
  destruct (handshake_processing Toy.env0
              (Toy.accepted (Toy.client_pk ++ Toy.client_nonce ++ Toy.hs_blob))
              0 Toy.client_pk Toy.client_nonce Toy.hs_blob []
              (fst (Toy.beforenm Toy.client_pk Toy.server_sk))
              Toy.client_tmp_pk Toy.recv_seed None None)
    as (c' & H1 & H2 & H3 & H4 & H5 & _ & _ & H8 & H9);
    try (vm_compute; reflexivity).
  exists c'. auto 10.
Defined.

Lemma partial_handshake_aborts_witness :
  doReadPacket_iter Toy.env0 (Toy.accepted Toy.client_pk) 0 =
    Halt (AssertFailed "not read enough data").
Proof.
  refine (proj1 (@partial_handshake_aborts Toy.crypto Toy_contract Toy.env0
                   (Toy.accepted Toy.client_pk) 0 eq_refl _)).
  vm_compute. reflexivity.
Defined.

(** C7. Length-prefixed reassembly, on a frame whose length prefix is 65534
    and whose 65534 bytes are all buffered: the pass of the decode loop does
    not extract the frame, it panics on the frame buffer whose size wrapped
    around to zero; so does [doReadPacket]. *)
Theorem oversized_frame_panics :
  let c := set_crbuf Toy.oversized_frame
             (Toy.established TCP_STATUS_CONFIRMED) in
  len (crbuf c) = 2 + 65534 /\
  get_uint16_be (crbuf c) = Some 65534 /\
  uint16 (2 + 65534) = 0 /\
  doReadPacket_iter Toy.env0 c 0 = Halt (Panic "slice bounds out of range") /\
  doReadPacket Toy.env0 c 0 =
    Some (Abort (Panic "slice bounds out of range")).
Proof.
  intros c.
  assert (Hlen : len (crbuf c) = 2 + 65534).
  { unfold c, Toy.oversized_frame. rewrite crbuf_set_crbuf, len_app.
    unfold len. rewrite repeat_length. cbn [List.length]. lia. }
  assert (Hf : fetch_frame c 0 = FetchAbort (Panic "slice bounds out of range")).
  { apply (fetch_frame_length_overflow c 65534 (repeat x00 (Z.to_nat 65534))).
    - lia.
    - reflexivity.
    - unfold len. rewrite repeat_length. lia. }
  assert (Hi : doReadPacket_iter Toy.env0 c 0 =
               Halt (Panic "slice bounds out of range")).
  { unfold doReadPacket_iter, fetch.
    change (Status c) with TCP_STATUS_CONFIRMED. cbv iota.
    rewrite Hf. reflexivity. }
  refine (conj Hlen (conj _ (conj _ (conj Hi _)))).
  - reflexivity.
  - reflexivity.
  - unfold doReadPacket. cbn [doReadPacket_loop]. rewrite Hi. reflexivity.
Qed.

Lemma status_monotone_witness :
  exists c',
    pipeline_step
      (set_crbuf Toy.ping_frame (Toy.established TCP_STATUS_UNCONFIRMED), 0)
      (c', 0) /\
    Status c' = TCP_STATUS_CONFIRMED /\
    status_code TCP_STATUS_UNCONFIRMED <= status_code (Status c').
Proof.
  eexists. split.
  - eapply (step_decode Toy.env0). vm_compute. reflexivity.
  - split; [reflexivity|].
    refine (proj1 (proj2 status_monotone
              (set_crbuf Toy.ping_frame
                 (Toy.established TCP_STATUS_UNCONFIRMED), 0) (_, 0) _)).
    apply rt_step. eapply (step_decode Toy.env0). vm_compute. reflexivity.
Defined.

End Examples.

(* ------------------------------------------------------------------ *)
(** ** Reassembly does not depend on how the bytes arrive *)

Lemma fire_crbuf_Write (s : bool) (e : event) (b : list byte)
    (c : TCPSecureConn) :
  fire s e (crbuf_Write b c) = crbuf_Write b (fire s e c).
Proof. destruct s; reflexivity. Qed.

Lemma SendCtrlPacket_crbuf_Write (dtime : Z) (data b : list byte)
    (c : TCPSecureConn) :
  SendCtrlPacket dtime data (crbuf_Write b c) =
  ' (err, c1) <- SendCtrlPacket dtime data c ;; Done (err, crbuf_Write b c1).
Proof.
  unfold SendCtrlPacket. cbn [cwctrlq crbuf_Write set_crbuf cwctrldlen].
  destruct (len data >? 2048); [reflexivity|].
  destruct (_ >=? _); [reflexivity|].
  destruct (chan_try_send (cwctrlq c) data); [|reflexivity].
  destruct (dtime >? _); reflexivity.
Qed.

Lemma HandlePingRequest_crbuf_Write (env : environment) (rpkt b : list byte)
    (c : TCPSecureConn) :
  HandlePingRequest env rpkt (crbuf_Write b c) =
  c1 <- HandlePingRequest env rpkt c ;; Done (crbuf_Write b c1).
Proof.
  unfold HandlePingRequest. destruct (slice_from 1 rpkt); [|reflexivity].
  cbn [bind]. rewrite SendCtrlPacket_crbuf_Write.
  destruct (SendCtrlPacket _ _ c) as [[err c1]|]; reflexivity.
Qed.

Section Reassembly.

Context {C : Crypto}.

Lemma Unpacket_crbuf_Write (encpkt b : list byte) (c : TCPSecureConn) :
  Unpacket encpkt (crbuf_Write b c) =
  ' (datlen, plnpkt, err, c1) <- Unpacket encpkt c ;;
  Done (datlen, plnpkt, err, crbuf_Write b c1).
Proof.
  unfold Unpacket. destruct (slice_from 2 encpkt) as [body|]; [|reflexivity].
  cbn [bind Shrkey RecvNonce crbuf_Write set_crbuf].
  destruct (DecryptDataSymmetric (Shrkey c) (RecvNonce c) body). reflexivity.
Qed.

Lemma HandleHandshake_crbuf_Write (env : environment) (rdbuf b : list byte)
    (c : TCPSecureConn) :
  HandleHandshake env rdbuf (crbuf_Write b c) =
  c1 <- HandleHandshake env rdbuf c ;; Done (crbuf_Write b c1).
Proof.
  unfold HandleHandshake.
  destruct (slice 0 _ rdbuf) as [pk|]; [|reflexivity]. cbn [bind].
  destruct (slice PUBLIC_KEY_SIZE _ rdbuf) as [nn|]; [|reflexivity].
  cbn [bind Seckey crbuf_Write set_crbuf].
  destruct (CBBeforeNm _ _) as [shrkey e0].
  destruct (slice_from _ rdbuf) as [blob|]; [|reflexivity]. cbn [bind].
  destruct (DecryptDataSymmetric _ _ _) as [cliplnpkt e1].
  destruct (slice 0 _ cliplnpkt) as [tpk|]; [|reflexivity]. cbn [bind].
  destruct (slice PUBLIC_KEY_SIZE _ cliplnpkt) as [seed|]; [|reflexivity].
  cbn [bind SentNonce set_Shrkey set_SentNonce].
  destruct (EncryptDataSymmetric _ _ _) as [encpkt e2]. reflexivity.
Qed.

Lemma dispatch_crbuf_Write (env : environment) (rdbuf b : list byte)
    (c : TCPSecureConn) :
  dispatch env rdbuf (crbuf_Write b c) =
  c1 <- dispatch env rdbuf c ;; Done (crbuf_Write b c1).
Proof.
  unfold dispatch. change (Status (crbuf_Write b c)) with (Status c).
  destruct (Status c).
  - rewrite HandleHandshake_crbuf_Write.
    destruct (HandleHandshake env rdbuf c); reflexivity.
  - reflexivity.
  - rewrite Unpacket_crbuf_Write.
    destruct (Unpacket rdbuf c) as [[[[dl p] er] c1]|]; [|reflexivity].
    cbn [bind]. destruct (index0 p); [|reflexivity]. cbn [bind].
    rewrite HandlePingRequest_crbuf_Write.
    destruct (HandlePingRequest env p c1) as [c2|]; [|reflexivity].
    cbn [bind]. f_equal.
    change (OnConfirmed (set_Status TCP_STATUS_CONFIRMED (crbuf_Write b c2)))
      with (OnConfirmed (set_Status TCP_STATUS_CONFIRMED c2)).
    change (set_Status TCP_STATUS_CONFIRMED (crbuf_Write b c2))
      with (crbuf_Write b (set_Status TCP_STATUS_CONFIRMED c2)).
    apply fire_crbuf_Write.
  - rewrite Unpacket_crbuf_Write.
    destruct (Unpacket rdbuf c) as [[[[dl p] er] c1]|]; [|reflexivity].
    cbn [bind]. destruct (index0 p); [|reflexivity]. cbn [bind].
    destruct (handle_confirmed _) as [[]|]; reflexivity.
Qed.

Lemma firstn_app_le (k : Z) (l b : list byte) :
  k <= len l -> firstn (Z.to_nat k) (l ++ b) = firstn (Z.to_nat k) l.
Proof.
  intros H. unfold len in H. rewrite firstn_app.
  replace (Z.to_nat k - List.length l)%nat with 0%nat by lia.
  cbn [firstn]. apply app_nil_r.
Qed.

Lemma skipn_app_le (k : Z) (l b : list byte) :
  k <= len l -> skipn (Z.to_nat k) (l ++ b) = skipn (Z.to_nat k) l ++ b.
Proof.
  intros H. unfold len in H. rewrite skipn_app.
  replace (Z.to_nat k - List.length l)%nat with 0%nat by lia.
  reflexivity.
Qed.

(** A buffer from which a frame could be taken gives the same frame when more
    bytes follow. *)
Lemma fetch_frame_Fetched_more (c c1 : TCPSecureConn) (n n1 : Z)
    (rdbuf b : list byte) :
  fetch_frame c n = Fetched c1 n1 rdbuf ->
  fetch_frame (crbuf_Write b c) n = Fetched (crbuf_Write b c1) n1 rdbuf.
Proof.
  unfold fetch_frame, crbuf_Read, crbuf_Write. rewrite !crbuf_set_crbuf.
  pose proof (len_nonneg b) as Hb. rewrite !len_app.
  destruct (Z.eqb_spec n 0) as [E0|E0]; cbn [andb].
  - destruct (Z.ltb_spec (len (crbuf c)) 2); [discriminate|].
    destruct (Z.ltb_spec (len (crbuf c) + len b) 2); [lia|].
    destruct (Z.geb_spec (len (crbuf c)) 2); [|lia].
    destruct (Z.geb_spec (len (crbuf c) + len b) 2); [|lia].
    rewrite !crbuf_set_crbuf.
    rewrite (firstn_app_le 2), (skipn_app_le 2) by lia.
    set (m := match get_uint16_be (firstn (Z.to_nat 2) (crbuf c)) with
              | Some v => v
              | None => n
              end).
    set (buf := skipn (Z.to_nat 2) (crbuf c)). rewrite len_app.
    destruct (Z.ltb_spec (len buf) m); [discriminate|].
    destruct (Z.ltb_spec (len buf + len b) m); [lia|].
    destruct (Z.ltb_spec (uint16 (2 + m)) 2); [discriminate|].
    destruct (Z.eqb_spec (len (firstn (Z.to_nat (uint16 (2 + m) - 2)) buf) + 2)
                (uint16 (2 + m))) as [E|E]; [|discriminate].
    rewrite len_firstn in E.
    rewrite (firstn_app_le (uint16 (2 + m) - 2)),
      (skipn_app_le (uint16 (2 + m) - 2)) by lia.
    rewrite len_firstn.
    destruct (Z.eqb_spec (Z.min (Z.max 0 (uint16 (2 + m) - 2)) (len buf) + 2)
                (uint16 (2 + m))); [|lia].
    intros HF.
    match type of HF with Fetched ?a ?x ?y = _ =>
      assert (Hc : c1 = a /\ n1 = x /\ rdbuf = y) by (repeat split; congruence)
    end.
    destruct Hc as (-> & -> & ->). rewrite crbuf_set_crbuf. reflexivity.
  - rewrite !crbuf_set_crbuf, ?len_app. set (buf := crbuf c).
    destruct (Z.ltb_spec (len buf) n); [discriminate|].
    destruct (Z.ltb_spec (len buf + len b) n); [lia|].
    destruct (Z.ltb_spec (uint16 (2 + n)) 2); [discriminate|].
    destruct (Z.eqb_spec (len (firstn (Z.to_nat (uint16 (2 + n) - 2)) buf) + 2)
                (uint16 (2 + n))) as [E|E]; [|discriminate].
    rewrite len_firstn in E.
    rewrite (firstn_app_le (uint16 (2 + n) - 2)),
      (skipn_app_le (uint16 (2 + n) - 2)) by lia.
    rewrite len_firstn.
    destruct (Z.eqb_spec (Z.min (Z.max 0 (uint16 (2 + n) - 2)) (len buf) + 2)
                (uint16 (2 + n))); [|lia].
    intros HF.
    match type of HF with Fetched ?a ?x ?y = _ =>
      assert (Hc : c1 = a /\ n1 = x /\ rdbuf = y) by (repeat split; congruence)
    end.
    destruct Hc as (-> & -> & ->). rewrite crbuf_set_crbuf. reflexivity.
Qed.

(** After a return for lack of bytes, going on with the pending length once
    more bytes arrived is the same as decoding the whole buffer afresh. *)
Lemma fetch_frame_resumes (c c1 : TCPSecureConn) (n n1 : Z) (b : list byte) :
  fetch_frame c n = Starved c1 n1 ->
  fetch_frame (crbuf_Write b c1) n1 = fetch_frame (crbuf_Write b c) n.
Proof.
  unfold fetch_frame at 1. unfold crbuf_Read.
  destruct (Z.eqb_spec n 0) as [E0|E0]; cbn [andb].
  - destruct (Z.ltb_spec (len (crbuf c)) 2) as [H2|H2].
    { intros HF. assert (c1 = c /\ n1 = n) as [-> ->] by (split; congruence).
      reflexivity. }
    destruct (Z.geb_spec (len (crbuf c)) 2); [|lia].
    rewrite crbuf_set_crbuf.
    set (m := match get_uint16_be (firstn (Z.to_nat 2) (crbuf c)) with
              | Some v => v
              | None => n
              end).
    set (buf := skipn (Z.to_nat 2) (crbuf c)).
    destruct (Z.ltb_spec (len buf) m) as [Hm|Hm].
    + intros HF.
      match type of HF with Starved ?a ?x = _ =>
        assert (Hc : c1 = a /\ n1 = x) by (split; congruence) end.
      destruct Hc as (-> & ->).
      pose proof (len_nonneg buf) as Hbuf. pose proof (len_nonneg b) as Hb.
      unfold fetch_frame, crbuf_Read, crbuf_Write.
      rewrite !crbuf_set_crbuf, !len_app. subst n.
      destruct (Z.eqb_spec m 0); [lia|]. cbn [Z.eqb andb].
      destruct (Z.ltb_spec (len (crbuf c) + len b) 2); [lia|].
      destruct (Z.geb_spec (len (crbuf c) + len b) 2); [|lia].
      rewrite !crbuf_set_crbuf.
      rewrite (firstn_app_le 2), (skipn_app_le 2) by lia.
      fold m. fold buf. reflexivity.
    + destruct (uint16 (2 + m) <? 2); [discriminate|].
      destruct (_ =? _); discriminate.
  - destruct (Z.ltb_spec (len (crbuf c)) n).
    + intros HF. assert (c1 = c /\ n1 = n) as [-> ->] by (split; congruence).
      reflexivity.
    + destruct (uint16 (2 + n) <? 2); [discriminate|].
      destruct (_ =? _); discriminate.
Qed.

End Reassembly.

Section Segmentation.

Context {C : Crypto} {CC : CryptoContract C}.

Lemma fetch_Fetched_more (c c1 : TCPSecureConn) (n n1 : Z)
    (rdbuf b : list byte) :
  fetch c n = Fetched c1 n1 rdbuf ->
  fetch (crbuf_Write b c) n = Fetched (crbuf_Write b c1) n1 rdbuf.
Proof.
  unfold fetch. change (Status (crbuf_Write b c)) with (Status c).
  destruct (Status c).
  - unfold crbuf_Read, crbuf_Write. rewrite !crbuf_set_crbuf.
    destruct (Z.eqb_spec
                (len (firstn (Z.to_nat HANDSHAKE_REQUEST_SIZE) (crbuf c)))
                HANDSHAKE_REQUEST_SIZE) as [E|E]; [|discriminate].
    rewrite len_firstn in E.
    rewrite (firstn_app_le HANDSHAKE_REQUEST_SIZE),
      (skipn_app_le HANDSHAKE_REQUEST_SIZE) by lia.
    rewrite len_firstn.
    destruct (Z.eqb_spec
                (Z.min (Z.max 0 HANDSHAKE_REQUEST_SIZE) (len (crbuf c)))
                HANDSHAKE_REQUEST_SIZE); [|lia].
    intros HF.
    match type of HF with Fetched ?a ?x ?y = _ =>
      assert (Hc : c1 = a /\ n1 = x /\ rdbuf = y) by (repeat split; congruence)
    end.
    destruct Hc as (-> & -> & ->). rewrite crbuf_set_crbuf. reflexivity.
  - intros HF.
    assert (Hc : c1 = c /\ n1 = n /\ rdbuf = []) by (repeat split; congruence).
    destruct Hc as (-> & -> & ->). reflexivity.
  - apply fetch_frame_Fetched_more.
  - apply fetch_frame_Fetched_more.
Qed.

Lemma fetch_resumes (c c1 : TCPSecureConn) (n n1 : Z) (b : list byte) :
  fetch c n = Starved c1 n1 ->
  fetch (crbuf_Write b c1) n1 = fetch (crbuf_Write b c) n.
Proof.
  intros HF. pose proof (fetch_Starved_keeps _ _ _ _ HF) as Hs.
  revert HF. unfold fetch.
  change (Status (crbuf_Write b c)) with (Status c).
  change (Status (crbuf_Write b c1)) with (Status c1). rewrite Hs.
  destruct (Status c).
  - unfold crbuf_Read. destruct (_ =? _); discriminate.
  - discriminate.
  - apply fetch_frame_resumes.
  - apply fetch_frame_resumes.
Qed.

Lemma doReadPacket_iter_Next_more (env : environment) (c c' : TCPSecureConn)
    (n n' : Z) (b : list byte) :
  doReadPacket_iter env c n = Next c' n' ->
  doReadPacket_iter env (crbuf_Write b c) n = Next (crbuf_Write b c') n'.
Proof.
  unfold doReadPacket_iter.
  destruct (fetch c n) as [c1 n1 rdbuf| |] eqn:Ef; try discriminate.
  rewrite (fetch_Fetched_more _ _ _ _ _ b Ef), dispatch_crbuf_Write.
  destruct (dispatch env rdbuf c1) as [c2|]; [|discriminate]. cbn [bind].
  intros HF. assert (c' = c2 /\ n' = 0) as [-> ->] by (split; congruence).
  reflexivity.
Qed.

Lemma doReadPacket_iter_resumes (env : environment) (c c1 : TCPSecureConn)
    (n n1 : Z) (b : list byte) :
  doReadPacket_iter env c n = Return c1 n1 ->
  doReadPacket_iter env (crbuf_Write b c1) n1 =
  doReadPacket_iter env (crbuf_Write b c) n.
Proof.
  unfold doReadPacket_iter.
  destruct (fetch c n) as [c2 n2 rdbuf|c2 n2|] eqn:Ef; try discriminate.
  - destruct (dispatch env rdbuf c2); discriminate.
  - intros HF. assert (c1 = c2 /\ n1 = n2) as [-> ->] by (split; congruence).
    rewrite (fetch_resumes _ _ _ _ b Ef). reflexivity.
Qed.

Lemma doReadPacket_iter_Return_range (env : environment)
    (c c1 : TCPSecureConn) (n n1 : Z) :
  0 <= n < 65536 ->
  doReadPacket_iter env c n = Return c1 n1 -> 0 <= n1 < 65536.
Proof.
  intros Hn. unfold doReadPacket_iter.
  destruct (fetch c n) as [c2 n2 rdbuf|c2 n2|] eqn:Ef; try discriminate.
  - destruct (dispatch env rdbuf c2); discriminate.
  - intros HF. assert (n1 = n2) as -> by congruence.
    revert Ef. unfold fetch. destruct (Status c).
    + unfold crbuf_Read. destruct (_ =? _); discriminate.
    + discriminate.
    + unfold fetch_frame, crbuf_Read.
      destruct (_ && _); [intros HS; assert (n2 = n) by congruence; lia|].
      destruct (_ && _).
      * destruct (get_uint16_be _) as [v|] eqn:Eg.
        -- apply get_uint16_be_range in Eg.
           destruct (_ <? v); [intros HS; assert (n2 = v) by congruence; lia|].
           destruct (_ <? 2); [discriminate|]. destruct (_ =? _); discriminate.
        -- destruct (_ <? n); [intros HS; assert (n2 = n) by congruence; lia|].
           destruct (_ <? 2); [discriminate|]. destruct (_ =? _); discriminate.
      * destruct (_ <? n); [intros HS; assert (n2 = n) by congruence; lia|].
        destruct (_ <? 2); [discriminate|]. destruct (_ =? _); discriminate.
    + unfold fetch_frame, crbuf_Read.
      destruct (_ && _); [intros HS; assert (n2 = n) by congruence; lia|].
      destruct (_ && _).
      * destruct (get_uint16_be _) as [v|] eqn:Eg.
        -- apply get_uint16_be_range in Eg.
           destruct (_ <? v); [intros HS; assert (n2 = v) by congruence; lia|].
           destruct (_ <? 2); [discriminate|]. destruct (_ =? _); discriminate.
        -- destruct (_ <? n); [intros HS; assert (n2 = n) by congruence; lia|].
           destruct (_ <? 2); [discriminate|]. destruct (_ =? _); discriminate.
      * destruct (_ <? n); [intros HS; assert (n2 = n) by congruence; lia|].
        destruct (_ <? 2); [discriminate|]. destruct (_ =? _); discriminate.
Qed.

Lemma doReadPacket_loop_more_fuel (env : environment) (f : nat) :
  forall (k : nat) (c : TCPSecureConn) (n : Z) r,
    doReadPacket_loop f env c n = Some r ->
    doReadPacket_loop (f + k) env c n = Some r.
Proof.
  induction f as [|f IH]; intros k c n r; [discriminate|].
  cbn [doReadPacket_loop Nat.add].
  destruct (doReadPacket_iter env c n); auto.
Qed.

Lemma doReadPacket_loop_deterministic (env : environment) (f g : nat)
    (c : TCPSecureConn) (n : Z) r r' :
  doReadPacket_loop f env c n = Some r ->
  doReadPacket_loop g env c n = Some r' -> r = r'.
Proof.
  intros Hf Hg.
  apply (doReadPacket_loop_more_fuel env f g) in Hf.
  apply (doReadPacket_loop_more_fuel env g f) in Hg.
  rewrite Nat.add_comm in Hg. congruence.
Qed.

Lemma doReadPacket_loop_range (env : environment) (f : nat) :
  forall (c c1 : TCPSecureConn) (n n1 : Z),
    0 <= n < 65536 ->
    doReadPacket_loop f env c n = Some (Done (c1, n1)) -> 0 <= n1 < 65536.
Proof.
  induction f as [|f IH]; intros c c1 n n1 Hn; [discriminate|].
  cbn [doReadPacket_loop].
  destruct (doReadPacket_iter env c n) as [c2 n2|c2 n2|e] eqn:E.
  - apply doReadPacket_iter_Next in E as (-> & _). apply IH. lia.
  - intros HF. assert (n1 = n2) as -> by congruence.
    eapply doReadPacket_iter_Return_range; eassumption.
  - discriminate.
Qed.

Lemma doReadPacket_loop_resumes (env : environment) (b : list byte)
    (f : nat) :
  forall (c c1 : TCPSecureConn) (n n1 : Z),
    doReadPacket_loop f env c n = Some (Done (c1, n1)) ->
    forall g r,
      doReadPacket_loop g env (crbuf_Write b c1) n1 = Some r ->
      exists g', doReadPacket_loop g' env (crbuf_Write b c) n = Some r.
Proof.
  induction f as [|f IH]; intros c c1 n n1; [discriminate|].
  cbn [doReadPacket_loop].
  destruct (doReadPacket_iter env c n) as [c2 n2|c2 n2|e] eqn:E.
  - intros Hl g r Hg. destruct (IH _ _ _ _ Hl g r Hg) as [g' Hg'].
    exists (S g'). cbn [doReadPacket_loop].
    rewrite (doReadPacket_iter_Next_more _ _ _ _ _ b E). exact Hg'.
  - intros HF g r Hg.
    assert (c1 = c2 /\ n1 = n2) as [-> ->] by (split; congruence).
    exists g. destruct g as [|g]; [discriminate|].
    cbn [doReadPacket_loop] in *.
    rewrite <- (doReadPacket_iter_resumes _ _ _ _ _ b E). exact Hg.
  - discriminate.
Qed.

(** Reassembly is independent of segmentation.  When [doReadPacket] has come
    back from decoding what a first delivery left in the buffer, running it
    again after a second delivery gives what a single run would have given
    had all the bytes arrived at once: frames cut anywhere, in the length
    prefix or in the body, are put together again unchanged. *)
Lemma doReadPacket_segmentation (env : environment) (c c1 : TCPSecureConn)
    (n n1 : Z) (a b : list byte) :
  0 <= n < 65536 ->
  doReadPacket env (crbuf_Write a c) n = Some (Done (c1, n1)) ->
  doReadPacket env (crbuf_Write b c1) n1 =
  doReadPacket env (crbuf_Write (a ++ b) c) n.
Proof.
  intros Hn H1.
  pose proof (doReadPacket_loop_range _ _ _ _ _ _ Hn H1) as Hn1.
  destruct (doReadPacket_total env (crbuf_Write b c1) n1 Hn1) as [r Hr].
  destruct (doReadPacket_total env (crbuf_Write (a ++ b) c) n Hn) as [r' Hr'].
  rewrite Hr, Hr'. f_equal.
  destruct (doReadPacket_loop_resumes env b _ _ _ _ _ H1 _ _ Hr) as [g' Hg'].
  replace (crbuf_Write b (crbuf_Write a c)) with (crbuf_Write (a ++ b) c)
    in Hg' by (unfold crbuf_Write; rewrite crbuf_set_crbuf, app_assoc;
               reflexivity).
  eapply doReadPacket_loop_deterministic; eassumption.
Qed.

End Segmentation.

Section ReassemblyExample.

#[local] Existing Instance Toy.crypto.

(** A 100-byte frame delivered by three socket reads of 10, 40 and 50 bytes
    is decoded once, after the third read, exactly as when it arrives in a
    single read. *)
Example hundred_byte_frame_in_three_reads :
  let c := Toy.established TCP_STATUS_CONFIRMED in
  let f := Toy.data_frame in
  len f = 100 /\
  runReadLoop Toy.env0 [mkRead (firstn 10 f) None] c 0 =
    Some (Running (set_crbuf (skipn 2 (firstn 10 f)) c) 98) /\
  runReadLoop Toy.env0
    [mkRead (firstn 10 f) None; mkRead (firstn 40 (skipn 10 f)) None] c 0 =
    Some (Running (set_crbuf (skipn 2 (firstn 50 f)) c) 98) /\
  runReadLoop Toy.env0
    [mkRead (firstn 10 f) None; mkRead (firstn 40 (skipn 10 f)) None;
     mkRead (skipn 50 f) None] c 0 =
    Some (Running (set_RecvNonce (Incr (RecvNonce c)) c) 0) /\
  runReadLoop Toy.env0 [mkRead f None] c 0 =
    Some (Running (set_RecvNonce (Incr (RecvNonce c)) c) 0).
Proof.
  cbv zeta. refine (conj _ (conj _ (conj _ (conj _ _))));
    vm_compute; reflexivity.
Qed.

(** End to end: the handshake request and the first data frame, a ping
    request with ping id 42, arrive; the relay answers the handshake, becomes
    Confirmed and queues the pong with ping id 42; the write loop then sends
    the pong as a frame under the session key and the send nonce, and
    increments the send nonce. *)
Example handshake_then_first_ping :
  exists c1 c2,
    runReadLoop Toy.env0
      [mkRead Toy.hs_request None; mkRead Toy.first_ping_frame None]
      (Toy.accepted []) 0 = Some (Running c1 0) /\
    Status c1 = TCP_STATUS_CONFIRMED /\
    Shrkey c1 = Toy.session_key /\
    Sock c1 = Toy.hs_response /\
    chan_buf (cwctrlq c1) = [Toy.pong42] /\
    RecvNonce c1 = Incr Toy.recv_seed /\
    runWriteLoop_iter true (fun _ => mkWrite 27 None) c1 = Some (true, c2) /\
    Sock c2 =
      Toy.hs_response ++ put_uint16_be 25 ++
      fst (Toy.encrypt Toy.session_key (rnd_SentNonce Toy.env0) Toy.pong42) /\
    chan_buf (cwctrlq c2) = [] /\
    SentNonce c2 = Incr (rnd_SentNonce Toy.env0).
Proof.
  eexists. eexists.
  do 9 (apply conj; [vm_compute; reflexivity|]).
  vm_compute. reflexivity.
Qed.

(** The same handshake request cut in two by the network: the read loop ends
    in the failed assertion on the first part. *)
Example handshake_in_two_reads :
  runReadLoop Toy.env0
    [mkRead (firstn 60 Toy.hs_request) None;
     mkRead (skipn 60 Toy.hs_request) None]
    (Toy.accepted []) 0 =
  Some (Crashed (AssertFailed "not read enough data")).
Proof. vm_compute. reflexivity. Qed.

End ReassemblyExample.

(* ------------------------------------------------------------------ *)
(** * Further properties of the decode loop *)

Section DecodeLoop.

Context {C : Crypto} {CC : CryptoContract C}.

Lemma fetch_frame_Starved_short (c c1 : TCPSecureConn) (n n1 : Z) :
  fetch_frame c n = Starved c1 n1 ->
  (n1 = 0 /\ len (crbuf c1) < 2) \/ (n1 <> 0 /\ len (crbuf c1) < n1).
Proof.
  unfold fetch_frame, crbuf_Read.
  destruct (Z.eqb_spec n 0) as [E0|E0]; cbn [andb].
  - destruct (Z.ltb_spec (len (crbuf c)) 2) as [H2|H2].
    + intros HS. assert (c1 = c /\ n1 = n) as [-> ->] by (split; congruence).
      left. split; assumption.
    + destruct (Z.geb_spec (len (crbuf c)) 2); [|lia].
      rewrite crbuf_set_crbuf.
      set (m := match get_uint16_be (firstn (Z.to_nat 2) (crbuf c)) with
                | Some v => v
                | None => n
                end).
      set (buf := skipn (Z.to_nat 2) (crbuf c)).
      destruct (Z.ltb_spec (len buf) m) as [Hm|Hm].
      * intros HS.
        match type of HS with Starved ?a ?x = _ =>
          assert (Hc : c1 = a /\ n1 = x) by (split; congruence) end.
        destruct Hc as (-> & ->). rewrite crbuf_set_crbuf.
        pose proof (len_nonneg buf). right. split; lia.
      * destruct (uint16 (2 + m) <? 2); [discriminate|].
        destruct (_ =? _); discriminate.
  - destruct (Z.ltb_spec (len (crbuf c)) n) as [Hm|Hm].
    + intros HS. assert (c1 = c /\ n1 = n) as [-> ->] by (split; congruence).
      right. split; assumption.
    + destruct (uint16 (2 + n) <? 2); [discriminate|].
      destruct (_ =? _); discriminate.
Qed.

Lemma doReadPacket_iter_Return_short (env : environment)
    (c c1 : TCPSecureConn) (n n1 : Z) :
  doReadPacket_iter env c n = Return c1 n1 ->
  (Status c1 = TCP_STATUS_UNCONFIRMED \/ Status c1 = TCP_STATUS_CONFIRMED) /\
  ((n1 = 0 /\ len (crbuf c1) < 2) \/ (n1 <> 0 /\ len (crbuf c1) < n1)).
Proof.
  unfold doReadPacket_iter.
  destruct (fetch c n) as [c2 n2 rdbuf|c2 n2|] eqn:Ef; try discriminate.
  - destruct (dispatch env rdbuf c2); discriminate.
  - intros HR. assert (c1 = c2 /\ n1 = n2) as [-> ->] by (split; congruence).
    pose proof (fetch_Starved_keeps _ _ _ _ Ef) as Hs.
    revert Ef. unfold fetch. destruct (Status c) eqn:Es.
    + unfold crbuf_Read. destruct (_ =? _); discriminate.
    + discriminate.
    + intros Ef. split; [left; exact Hs|].
      eapply fetch_frame_Starved_short; eassumption.
    + intros Ef. split; [right; exact Hs|].
      eapply fetch_frame_Starved_short; eassumption.
Qed.

Lemma doReadPacket_loop_Done_short (env : environment) (f : nat) :
  forall (c c1 : TCPSecureConn) (n n1 : Z),
    doReadPacket_loop f env c n = Some (Done (c1, n1)) ->
    (Status c1 = TCP_STATUS_UNCONFIRMED \/ Status c1 = TCP_STATUS_CONFIRMED) /\
    ((n1 = 0 /\ len (crbuf c1) < 2) \/ (n1 <> 0 /\ len (crbuf c1) < n1)).
Proof.
  induction f as [|f IH]; intros c c1 n n1; [discriminate|].
  cbn [doReadPacket_loop].
  destruct (doReadPacket_iter env c n) as [c2 n2|c2 n2|e] eqn:E.
  - apply IH.
  - intros HR. assert (c1 = c2 /\ n1 = n2) as [-> ->] by (split; congruence).
    eapply doReadPacket_iter_Return_short; eassumption.
  - discriminate.
Qed.

(** [doReadPacket] comes back only when no whole frame is left: the handshake
    is done, and either no length is pending and fewer than two bytes are
    buffered, or a length is pending and fewer bytes than it announces are
    buffered. *)
Theorem doReadPacket_drains (env : environment) (c c1 : TCPSecureConn)
    (n n1 : Z) :
  doReadPacket env c n = Some (Done (c1, n1)) ->
  (Status c1 = TCP_STATUS_UNCONFIRMED \/ Status c1 = TCP_STATUS_CONFIRMED) /\
  ((n1 = 0 /\ len (crbuf c1) < 2) \/ (n1 <> 0 /\ len (crbuf c1) < n1)).
Proof. apply doReadPacket_loop_Done_short. Qed.

(** Every pass of the decode loop that goes on takes at least one byte out of
    the buffer, so [doReadPacket] ends within one pass more than the buffer
    holds bytes: it always comes back, with a value or with an abort. *)
Theorem doReadPacket_terminates (env : environment) (c : TCPSecureConn)
    (n : Z) :
  0 <= n < 65536 ->
  (forall c' n', doReadPacket_iter env c n = Next c' n' ->
                 len (crbuf c') < len (crbuf c)) /\
  exists r, doReadPacket env c n = Some r.
Proof.
  intros Hn. split.
  - intros c' n' H. apply (doReadPacket_iter_progress env) in H; [|exact Hn].
    unfold len. lia.
  - apply doReadPacket_loop_total; [exact Hn | lia].
Qed.

Lemma fetch_frame_Fetched_same (c c1 : TCPSecureConn) (n n1 : Z)
    (rdbuf : list byte) :
  fetch_frame c n = Fetched c1 n1 rdbuf -> c1 = set_crbuf (crbuf c1) c.
Proof.
  unfold fetch_frame, crbuf_Read.
  destruct (_ && _); [discriminate|]. destruct (_ && _).
  - destruct (_ <? _); [discriminate|]. destruct (_ <? 2); [discriminate|].
    destruct (_ =? _); [|discriminate]. intros HF.
    match type of HF with Fetched ?a _ _ = _ =>
      assert (Hc : c1 = a) by congruence end.
    rewrite Hc. reflexivity.
  - destruct (_ <? _); [discriminate|]. destruct (_ <? 2); [discriminate|].
    destruct (_ =? _); [|discriminate]. intros HF.
    match type of HF with Fetched ?a _ _ = _ =>
      assert (Hc : c1 = a) by congruence end.
    rewrite Hc. reflexivity.
Qed.

(** Taking a frame conserves the bytes: the frame buffer is the two length
    bytes followed by exactly as many bytes as they announce, at most 65533,
    and the buffer before is the bytes taken followed by the bytes left.
    Nothing else of the connection changes. *)
Theorem fetch_frame_conserves (c c1 : TCPSecureConn) (n n1 : Z)
    (rdbuf : list byte) :
  0 <= n < 65536 ->
  fetch_frame c n = Fetched c1 n1 rdbuf ->
  exists body,
    rdbuf = put_uint16_be n1 ++ body /\
    len body = n1 /\
    0 <= n1 <= 65533 /\
    ((n = 0 /\ crbuf c = put_uint16_be n1 ++ body ++ crbuf c1) \/
     (n <> 0 /\ n1 = n /\ crbuf c = body ++ crbuf c1)) /\
    c1 = set_crbuf (crbuf c1) c.
Proof.
  intros Hn HF. pose proof (fetch_frame_Fetched_same _ _ _ _ _ HF) as Hsame.
  revert HF. unfold fetch_frame, crbuf_Read.
  assert (Hwrap : forall m, 0 <= m < 65536 -> 2 <= uint16 (2 + m) ->
                            m <= 65533 /\ uint16 (2 + m) = 2 + m).
  { intros m Hm H2. destruct (Z.le_gt_cases m 65533) as [Hle|Hgt].
    - split; [exact Hle | apply uint16_two_plus; lia].
    - exfalso. unfold uint16 in H2.
      replace (2 + m) with ((m - 65534) + 1 * 65536) in H2 by lia.
      rewrite Z.mod_add, Z.mod_small in H2 by lia. lia. }
  destruct (Z.eqb_spec n 0) as [E0|E0]; cbn [andb].
  - destruct (Z.ltb_spec (len (crbuf c)) 2) as [H2|H2]; [discriminate|].
    destruct (Z.geb_spec (len (crbuf c)) 2); [|lia].
    rewrite crbuf_set_crbuf.
    destruct (crbuf c) as [|b0 [|b1 rest]] eqn:Eb;
      try (unfold len in H2; cbn in H2; lia).
    change (firstn (Z.to_nat 2) (b0 :: b1 :: rest)) with [b0; b1].
    change (skipn (Z.to_nat 2) (b0 :: b1 :: rest)) with rest.
    rewrite get_uint16_be_cons.
    set (m := byte_to_Z b0 * 256 + byte_to_Z b1).
    assert (Hm : 0 <= m < 65536).
    { pose proof (byte_to_Z_range b0). pose proof (byte_to_Z_range b1).
      unfold m. lia. }
    destruct (Z.ltb_spec (len rest) m) as [Hl|Hl]; [discriminate|].
    destruct (Z.ltb_spec (uint16 (2 + m)) 2) as [Hu|Hu]; [discriminate|].
    destruct (Hwrap m Hm Hu) as [Hle Heq]. rewrite Heq.
    replace (2 + m - 2) with m by lia.
    destruct (_ =? _); [|discriminate]. intros HF.
    match type of HF with Fetched ?a ?x ?y = _ =>
      assert (Hc : c1 = a /\ n1 = x /\ rdbuf = y) by (repeat split; congruence)
    end.
    destruct Hc as (Hc1 & -> & ->).
    exists (firstn (Z.to_nat m) rest).
    assert (Hrest : crbuf c1 = skipn (Z.to_nat m) rest)
      by (rewrite Hc1; reflexivity).
    refine (conj eq_refl (conj _ (conj _ (conj _ Hsame)))).
    + rewrite len_firstn. lia.
    + lia.
    + left. split; [exact E0|]. rewrite Hrest, firstn_skipn.
      unfold m. rewrite put_get_uint16_be. reflexivity.
  - destruct (Z.ltb_spec (len (crbuf c)) n) as [Hl|Hl]; [discriminate|].
    destruct (Z.ltb_spec (uint16 (2 + n)) 2) as [Hu|Hu]; [discriminate|].
    destruct (Hwrap n Hn Hu) as [Hle Heq]. rewrite Heq.
    replace (2 + n - 2) with n by lia.
    destruct (_ =? _); [|discriminate]. intros HF.
    match type of HF with Fetched ?a ?x ?y = _ =>
      assert (Hc : c1 = a /\ n1 = x /\ rdbuf = y) by (repeat split; congruence)
    end.
    destruct Hc as (Hc1 & -> & ->).
    exists (firstn (Z.to_nat n) (crbuf c)).
    assert (Hrest : crbuf c1 = skipn (Z.to_nat n) (crbuf c))
      by (rewrite Hc1; reflexivity).
    refine (conj eq_refl (conj _ (conj _ (conj _ Hsame)))).
    + rewrite len_firstn. lia.
    + lia.
    + right. split; [exact E0|]. split; [reflexivity|].
      rewrite Hrest, firstn_skipn. reflexivity.
Qed.

(** A frame whose decryption gives an empty plaintext, as a failed decryption
    that returns [nil] does, makes the pass panic on [plnpkt[0]], in state
    Unconfirmed as in state Confirmed: the decryption error is printed and
    not looked at. *)
Theorem empty_plaintext_panics (env : environment) (c : TCPSecureConn)
    (n : Z) (ct rest : list byte) (err : option error) :
  Status c = TCP_STATUS_UNCONFIRMED \/ Status c = TCP_STATUS_CONFIRMED ->
  0 <= n <= 65533 ->
  crbuf c = put_uint16_be n ++ ct ++ rest ->
  len ct = n ->
  DecryptDataSymmetric (Shrkey c) (RecvNonce c) ct = ([], err) ->
  doReadPacket_iter env c 0 = Halt (Panic "index out of range").
Proof.
  intros Hs Hn Hb Hl Hd. unfold doReadPacket_iter, fetch.
  destruct Hs as [Hs|Hs]; rewrite Hs;
    rewrite (fetch_frame_extracts c n ct rest Hn Hb Hl);
    unfold dispatch; rewrite Status_set_crbuf, Hs;
    rewrite Unpacket_frame by lia;
    change (Shrkey (set_crbuf rest c)) with (Shrkey c);
    change (RecvNonce (set_crbuf rest c)) with (RecvNonce c);
    rewrite Hd; reflexivity.
Qed.

(** In state Confirmed a pass that goes on only takes the frame out of the
    buffer and increments the receive nonce: status, keys, send nonce, queues,
    socket and callbacks are as before, whatever the packet type and whatever
    the decryption reported. *)
Theorem confirmed_pass_effect (env : environment) (c c' : TCPSecureConn)
    (n n' : Z) :
  Status c = TCP_STATUS_CONFIRMED ->
  doReadPacket_iter env c n = Next c' n' ->
  c' = set_RecvNonce (Incr (RecvNonce c)) (set_crbuf (crbuf c') c).
Proof.
  intros Hs. unfold doReadPacket_iter, fetch. rewrite Hs.
  destruct (fetch_frame c n) as [c1 n1 rdbuf| |] eqn:Ef; try discriminate.
  pose proof (fetch_frame_Fetched_same _ _ _ _ _ Ef) as Hsame.
  unfold dispatch. rewrite Hsame, Status_set_crbuf, Hs.
  unfold Unpacket. destruct (slice_from 2 rdbuf) as [body|]; [|discriminate].
  cbn [bind].
  destruct (DecryptDataSymmetric _ _ body) as [p e].
  cbn [bind]. destruct (index0 p) as [pt|]; [|discriminate]. cbn [bind].
  destruct (handle_confirmed pt) as [[]|]; [|discriminate]. cbn [bind].
  intros HN.
  match type of HN with Next ?a _ = _ =>
    assert (Hc : c' = a) by congruence end.
  rewrite Hc. reflexivity.
Qed.

End DecodeLoop.

(* ------------------------------------------------------------------ *)
(** * The outbound queues *)

Lemma int32_spec (x : Z) : exists k, int32 x = x + k * 4294967296.
Proof.
  exists (- ((x + 2147483648) / 4294967296)). unfold int32.
  rewrite Z.mod_eq by lia. lia.
Qed.

Lemma int32_shift (x k : Z) : int32 (x + k * 4294967296) = int32 x.
Proof.
  unfold int32.
  replace (x + k * 4294967296 + 2147483648)
    with (x + 2147483648 + k * 4294967296) by lia.
  rewrite Z.mod_add by lia. reflexivity.
Qed.

Lemma int32_add_l (a b : Z) : int32 (int32 a + b) = int32 (a + b).
Proof.
  destruct (int32_spec a) as [k ->].
  replace (a + k * 4294967296 + b) with (a + b + k * 4294967296) by lia.
  apply int32_shift.
Qed.

Lemma int32_add_r (a b : Z) : int32 (a + int32 b) = int32 (a + b).
Proof. rewrite Z.add_comm, int32_add_l. f_equal. lia. Qed.

Lemma int32_opp (a : Z) : int32 (- int32 a) = int32 (- a).
Proof.
  destruct (int32_spec a) as [k ->].
  replace (- (a + k * 4294967296)) with (- a + (- k) * 4294967296) by lia.
  apply int32_shift.
Qed.

Lemma total_len_app (q : list (list byte)) (d : list byte) :
  total_len (q ++ [d]) = total_len q + len d.
Proof.
  induction q as [|x q IH]; cbn [total_len app fold_right].
  - lia.
  - fold (total_len (q ++ [d])). fold (total_len q). rewrite IH. lia.
Qed.

Lemma chan_ok_send (q q' : chan) (dlen : Z) (data : list byte) :
  chan_ok q dlen ->
  chan_try_send q data = Some q' ->
  chan_ok q' (int32 (dlen + int32 (len data))).
Proof.
  intros [Hb Hd]. unfold chan_try_send.
  destruct (Z.ltb_spec (len (chan_buf q)) (chan_cap q)); [|discriminate].
  intros [= <-]. split; cbn [chan_buf chan_cap].
  - rewrite len_app. unfold len at 2. cbn [List.length]. lia.
  - rewrite total_len_app, Hd, int32_add_r, int32_add_l. reflexivity.
Qed.

Lemma chan_ok_recv (q q' : chan) (dlen : Z) (data : list byte) :
  chan_ok q dlen ->
  chan_recv q = Some (data, q') ->
  chan_ok q' (int32 (dlen + int32 (- int32 (len data)))).
Proof.
  intros [Hb Hd]. unfold chan_recv.
  destruct (chan_buf q) as [|v rest] eqn:E; [discriminate|].
  intros [= <- <-]. split; cbn [chan_buf chan_cap].
  - rewrite len_cons in Hb. lia.
  - rewrite Hd, int32_opp, int32_add_r, int32_add_l. f_equal.
    cbn [total_len fold_right]. fold (total_len rest). lia.
Qed.

Lemma same_queues_refl (c : TCPSecureConn) : same_queues c c.
Proof. unfold same_queues. auto. Qed.

Ltac same_queues_by_computation :=
  unfold same_queues; repeat split; reflexivity.

Lemma same_queues_trans (a b c : TCPSecureConn) :
  same_queues a b -> same_queues b c -> same_queues a c.
Proof.
  unfold same_queues. intros (A1 & A2 & A3 & A4) (B1 & B2 & B3 & B4).
  repeat split; congruence.
Qed.

Lemma same_queues_ok (c c' : TCPSecureConn) :
  same_queues c c' -> queues_ok c -> queues_ok c'.
Proof.
  unfold same_queues, queues_ok. intros (A1 & A2 & A3 & A4).
  rewrite A1, A2, A3, A4. auto.
Qed.

Lemma fire_same_queues (b : bool) (e : event) (c : TCPSecureConn) :
  same_queues c (fire b e c).
Proof. destruct b; unfold same_queues; cbn; auto. Qed.

Lemma SendCtrlPacket_queues_ok (dtime : Z) (data : list byte)
    (c c' : TCPSecureConn) (err : option error) :
  SendCtrlPacket dtime data c = Done (err, c') ->
  queues_ok c -> queues_ok c'.
Proof.
  unfold SendCtrlPacket.
  destruct (len data >? 2048); [intros [= _ <-]; auto|].
  destruct (_ >=? _); [intros [= _ <-]; auto|].
  destruct (chan_try_send (cwctrlq c) data) as [q|] eqn:Eq;
    [|intros [= _ <-]; auto].
  destruct (dtime >? _); [discriminate|]. intros [= _ <-] [Hc Hd].
  split; cbn [cwctrlq cwctrldlen cwdataq cwdatadlen set_cwctrlq].
  - eapply chan_ok_send; eassumption.
  - exact Hd.
Qed.

Lemma HandlePingRequest_queues_ok (env : environment) (rpkt : list byte)
    (c c' : TCPSecureConn) :
  HandlePingRequest env rpkt c = Done c' -> queues_ok c -> queues_ok c'.
Proof.
  unfold HandlePingRequest.
  destruct (slice_from 1 rpkt) as [pingid|]; [|discriminate]. cbn [bind].
  destruct (SendCtrlPacket _ _ c) as [[err c1]|] eqn:E; [|discriminate].
  cbn [bind]. intros [= <-]. eapply SendCtrlPacket_queues_ok; eassumption.
Qed.

Section Queues.

Context {C : Crypto}.

Lemma Unpacket_same_queues (encpkt : list byte) (c c' : TCPSecureConn)
    (datlen : Z) (plnpkt : list byte) (err : option error) :
  Unpacket encpkt c = Done (datlen, plnpkt, err, c') -> same_queues c c'.
Proof.
  unfold Unpacket. destruct (slice_from 2 encpkt) as [body|]; [|discriminate].
  cbn [bind].
  destruct (DecryptDataSymmetric (Shrkey c) (RecvNonce c) body) as [p e].
  intros [= _ _ _ <-]. same_queues_by_computation.
Qed.

Lemma HandleHandshake_same_queues (env : environment) (rdbuf : list byte)
    (c c' : TCPSecureConn) :
  HandleHandshake env rdbuf c = Done c' -> same_queues c c'.
Proof.
  unfold HandleHandshake.
  destruct (slice 0 _ rdbuf) as [pk|]; [|discriminate]. cbn [bind].
  destruct (slice PUBLIC_KEY_SIZE _ rdbuf) as [nn|]; [|discriminate].
  cbn [bind]. destruct (CBBeforeNm _ _) as [shrkey e0].
  destruct (slice_from _ rdbuf) as [blob|]; [|discriminate]. cbn [bind].
  destruct (DecryptDataSymmetric _ _ _) as [cliplnpkt e1].
  destruct (slice 0 _ cliplnpkt) as [tpk|]; [|discriminate]. cbn [bind].
  destruct (slice PUBLIC_KEY_SIZE _ cliplnpkt) as [seed|]; [|discriminate].
  cbn [bind]. destruct (EncryptDataSymmetric _ _ _) as [encpkt e2].
  intros [= <-]. same_queues_by_computation.
Qed.

Lemma fetch_same_queues (c : TCPSecureConn) (n : Z) :
  match fetch c n with
  | Fetched c1 _ _ => same_queues c c1
  | Starved c1 _ => same_queues c c1
  | FetchAbort _ => True
  end.
Proof.
  unfold fetch, fetch_frame, crbuf_Read.
  destruct (Status c);
    repeat match goal with
    | |- context [if ?b then _ else _] => destruct b
    end; try exact I; same_queues_by_computation.
Qed.

Lemma dispatch_queues_ok (env : environment) (rdbuf : list byte)
    (c c' : TCPSecureConn) :
  dispatch env rdbuf c = Done c' -> queues_ok c -> queues_ok c'.
Proof.
  unfold dispatch. destruct (Status c).
  - destruct (HandleHandshake env rdbuf c) as [c1|] eqn:E; [|discriminate].
    cbn [bind]. intros [= <-]. apply HandleHandshake_same_queues in E.
    apply same_queues_ok. exact E.
  - discriminate.
  - destruct (Unpacket rdbuf c) as [[[[dl p] er] c1]|] eqn:E; [|discriminate].
    cbn [bind]. destruct (index0 p); [|discriminate]. cbn [bind].
    destruct (HandlePingRequest env p c1) as [c2|] eqn:E2; [|discriminate].
    cbn [bind]. intros [= <-] Hok.
    apply Unpacket_same_queues in E.
    apply (same_queues_ok _ _ (fire_same_queues _ _ _)).
    assert (Hok1 : queues_ok c1) by (eapply same_queues_ok; eassumption).
    exact (HandlePingRequest_queues_ok _ _ _ _ E2 Hok1).
  - destruct (Unpacket rdbuf c) as [[[[dl p] er] c1]|] eqn:E; [|discriminate].
    cbn [bind]. destruct (index0 p); [|discriminate]. cbn [bind].
    destruct (handle_confirmed _) as [[]|]; [|discriminate]. cbn [bind].
    intros [= <-]. apply Unpacket_same_queues in E.
    apply same_queues_ok. exact E.
Qed.

Lemma doReadPacket_iter_queues_ok (env : environment) (c : TCPSecureConn)
    (n : Z) :
  queues_ok c ->
  match doReadPacket_iter env c n with
  | Next c' _ => queues_ok c'
  | Return c' _ => queues_ok c'
  | Halt _ => True
  end.
Proof.
  intros Hok. unfold doReadPacket_iter.
  pose proof (fetch_same_queues c n) as Hf.
  destruct (fetch c n) as [c1 n1 rdbuf|c1 n1|e].
  - destruct (dispatch env rdbuf c1) as [c2|] eqn:Ed; [|exact I].
    eapply dispatch_queues_ok; [exact Ed|].
    eapply same_queues_ok; eassumption.
  - eapply same_queues_ok; eassumption.
  - exact I.
Qed.

Lemma runWriteLoop_send_same_queues (w : write_result) (data : list byte)
    (c : TCPSecureConn) :
  same_queues c (snd (runWriteLoop_send w data c)).
Proof.
  unfold runWriteLoop_send, WritePacket.
  destruct (CreatePacket data c) as [encpkt e].
  destruct (wr_err w); cbn [snd]; [same_queues_by_computation|].
  eapply same_queues_trans; [|apply fire_same_queues].
  same_queues_by_computation.
Qed.

Lemma flushCtrl_queues_ok (items : list (list byte)) :
  forall (sockw : nat -> write_result) (c : TCPSecureConn),
    chan_buf (cwctrlq c) = items ->
    queues_ok c ->
    queues_ok (snd (flushCtrl items sockw c)).
Proof.
  induction items as [|data rest IH]; intros sockw c Hq Hok; [exact Hok|].
  cbn [flushCtrl].
  set (c1 := set_cwctrlq (mkChan (chan_cap (cwctrlq c)) rest)
               (int32 (cwctrldlen c + int32 (- int32 (len data)))) c).
  assert (Hok1 : queues_ok c1).
  { destruct Hok as [Hc Hd]. split; [|exact Hd].
    apply (chan_ok_recv (cwctrlq c) _ _ data Hc).
    unfold chan_recv. rewrite Hq. reflexivity. }
  pose proof (runWriteLoop_send_same_queues (sockw O) data c1) as Hs.
  destruct (runWriteLoop_send (sockw O) data c1) as [[e|] c2]; cbn [snd] in *.
  - eapply same_queues_ok; eassumption.
  - apply IH.
    + destruct Hs as (Hs1 & _). rewrite Hs1. reflexivity.
    + eapply same_queues_ok; eassumption.
Qed.

Lemma runWriteLoop_iter_queues_ok (pick : bool) (sockw : nat -> write_result)
    (c c' : TCPSecureConn) (go : bool) :
  runWriteLoop_iter pick sockw c = Some (go, c') ->
  queues_ok c -> queues_ok c'.
Proof.
  intros H Hok.
  assert (Hctrl : forall data q,
            chan_recv (cwctrlq c) = Some (data, q) ->
            forall w, queues_ok (snd (runWriteLoop_send w data
              (set_cwctrlq q
                 (int32 (cwctrldlen c + int32 (- int32 (len data)))) c)))).
  { intros data q Hr w.
    eapply same_queues_ok; [apply runWriteLoop_send_same_queues|].
    destruct Hok as [Hc Hd]. split; [|exact Hd].
    eapply chan_ok_recv; eassumption. }
  assert (Hdata : forall data q,
            chan_recv (cwdataq c) = Some (data, q) ->
            forall w, queues_ok (snd (runWriteLoop_send w data
              (set_cwdataq q
                 (int32 (cwdatadlen c + int32 (- int32 (len data)))) c)))).
  { intros data q Hr w.
    eapply same_queues_ok; [apply runWriteLoop_send_same_queues|].
    destruct Hok as [Hc Hd]. split; [exact Hc|].
    eapply chan_ok_recv; eassumption. }
  revert H. unfold runWriteLoop_iter.
  destruct (chan_recv (cwctrlq c)) as [[d1 q1]|] eqn:E1;
    destruct (chan_recv (cwdataq c)) as [[d2 q2]|] eqn:E2;
    try discriminate; try destruct pick;
    try (specialize (Hctrl _ _ eq_refl (sockw O)));
    try (specialize (Hdata _ _ eq_refl (sockw O)));
    repeat match goal with
    | H : queues_ok (snd (runWriteLoop_send ?w ?d ?c1))
      |- context [runWriteLoop_send ?w ?d ?c1] =>
        destruct (runWriteLoop_send w d c1) as [[e|] c2]; cbn [snd] in H
    | |- context [flushCtrl ?i ?w ?c1] =>
        let Hf := fresh "Hf" in
        pose proof (flushCtrl_queues_ok i w c1 eq_refl) as Hf;
        destruct (flushCtrl i w c1) as [[e'|] c3]; cbn [snd] in Hf
    end;
    intros [= _ <-]; auto.
Qed.

Lemma pipeline_step_queues_ok (s s' : TCPSecureConn * Z) :
  pipeline_step s s' -> queues_ok (fst s) -> queues_ok (fst s').
Proof.
  intros H. destruct H as [env c n c' n' H|env c n c' n' H|r c n c' n' H
                          |pick sockw c n c' H|dtime data c n err c' H];
    cbn [fst]; intros Hok.
  - pose proof (doReadPacket_iter_queues_ok env c n Hok) as Hq.
    rewrite H in Hq. exact Hq.
  - pose proof (doReadPacket_iter_queues_ok env c n Hok) as Hq.
    rewrite H in Hq. exact Hq.
  - revert H. unfold runReadLoop_recv.
    destruct (rd_err r); [discriminate|]. destruct (_ <? 1); [discriminate|].
    destruct (_ <=? CRBUF_CAP); [|discriminate]. intros HR.
    match type of HR with Running ?a _ = _ =>
      assert (Hc : c' = a) by congruence end.
    rewrite Hc. eapply same_queues_ok; [|exact Hok].
    eapply same_queues_trans; [apply fire_same_queues|].
    same_queues_by_computation.
  - eapply runWriteLoop_iter_queues_ok; eassumption.
  - eapply SendCtrlPacket_queues_ok; eassumption.
Qed.

(** The queues stay bounded and accounted for.  On a connection built by
    [NewTCPSecureConn], and from there along every execution of the
    pipelines, neither queue ever holds more entries than its capacity, and
    each byte counter ([cwctrldlen], [cwdatadlen]) is the number of bytes its
    queue holds, as an [int32]. *)
Theorem queues_stay_ok :
  queues_ok NewTCPSecureConn /\
  (forall s s', clos_refl_trans _ pipeline_step s s' ->
                queues_ok (fst s) -> queues_ok (fst s')).
Proof.
  split.
  - unfold queues_ok, chan_ok. cbn. unfold len. cbn. lia.
  - intros s s' H. induction H as [s s' H| |s1 s2 s3 _ IH1 _ IH2]; auto.
    apply pipeline_step_queues_ok. exact H.
Qed.

End Queues.

(* ------------------------------------------------------------------ *)
(** * The write loop *)

Section WriteLoop.

Context {C : Crypto}.

Lemma firstn_all_le (k : Z) (l : list byte) :
  len l <= k -> firstn (Z.to_nat k) l = l.
Proof. intros H. apply firstn_all2. unfold len in H. lia. Qed.

Lemma runWriteLoop_send_ok (w : write_result) (data : list byte)
    (c : TCPSecureConn) :
  let encdat := fst (EncryptDataSymmetric (Shrkey c) (SentNonce c) data) in
  let frame := put_uint16_be (uint16 (len encdat)) ++ encdat in
  wr_err w = None ->
  len frame <= wr_n w ->
  runWriteLoop_send w data c =
    (None,
     fire (OnNetSent c) (EvNetSent (wr_n w))
       (set_SentNonce (Incr (SentNonce c)) (set_Sock (Sock c ++ frame) c))).
Proof.
  intros encdat frame Hok Hfull.
  unfold runWriteLoop_send, WritePacket, CreatePacket, Sock_Write.
  subst frame encdat.
  destruct (EncryptDataSymmetric (Shrkey c) (SentNonce c) data) as [ed e].
  cbn [fst] in *. rewrite Hok, firstn_all_le by exact Hfull. reflexivity.
Qed.

Lemma full_writes_tail (sockw : nat -> write_result) (f : list byte)
    (frames : list (list byte)) :
  full_writes sockw (f :: frames) ->
  wr_err (sockw O) = None /\ len f <= wr_n (sockw O) /\
  full_writes (fun i => sockw (S i)) frames.
Proof.
  intros H. destruct (H O) as [H0 H1]. repeat split; try assumption.
  - apply (H (S i)).
  - apply (H (S i)).
Qed.

Lemma flushCtrl_run (items : list (list byte)) :
  forall (sockw : nat -> write_result) (c : TCPSecureConn),
    full_writes sockw (wire_frames (Shrkey c) (SentNonce c) items) ->
    exists c',
      flushCtrl items sockw c = (None, c') /\
      Sock c' =
        Sock c ++ List.concat (wire_frames (Shrkey c) (SentNonce c) items) /\
      SentNonce c' = Nat.iter (List.length items) Incr (SentNonce c) /\
      Shrkey c' = Shrkey c /\
      Status c' = Status c /\
      cwdataq c' = cwdataq c /\
      (items <> [] -> chan_buf (cwctrlq c') = []) /\
      (items = [] -> c' = c).
Proof.
  induction items as [|data rest IH]; intros sockw c Hw.
  - exists c. cbn. rewrite app_nil_r. repeat split; auto. congruence.
  - cbn [wire_frames] in Hw.
    apply full_writes_tail in Hw as (Hok & Hfull & Hrest).
    cbn [flushCtrl].
    set (c1 := set_cwctrlq (mkChan (chan_cap (cwctrlq c)) rest)
                 (int32 (cwctrldlen c + int32 (- int32 (len data)))) c).
    rewrite (runWriteLoop_send_ok (sockw O) data c1 Hok Hfull).
    match goal with |- context [flushCtrl rest _ ?x] => set (c2 := x) end.
    assert (Hk : Shrkey c2 = Shrkey c) by (unfold c2; destruct (OnNetSent c1);
                                           reflexivity).
    assert (Hn : SentNonce c2 = Incr (SentNonce c))
      by (unfold c2; destruct (OnNetSent c1); reflexivity).
    assert (Hq : chan_buf (cwctrlq c2) = rest)
      by (unfold c2; destruct (OnNetSent c1); reflexivity).
    destruct (IH (fun i => sockw (S i)) c2) as (c' & Hf & Hs & Hsn & Hsk & Hst
                                                 & Hdq & Hne & Hnil).
    { rewrite Hk, Hn. exact Hrest. }
    exists c'. split; [exact Hf|].
    refine (conj _ (conj _ (conj _ (conj _ (conj _ (conj _ _)))))).
    + rewrite Hs, Hk, Hn. cbn [wire_frames List.concat].
      replace (Sock c2)
        with (Sock c ++
              (put_uint16_be
                 (uint16 (len (fst (EncryptDataSymmetric (Shrkey c)
                                      (SentNonce c) data)))) ++
               fst (EncryptDataSymmetric (Shrkey c) (SentNonce c) data)))
        by (unfold c2; destruct (OnNetSent c1); reflexivity).
      rewrite <- !app_assoc. reflexivity.
    + rewrite Hsn, Hn. cbn [List.length]. rewrite Nat.iter_succ_r.
      reflexivity.
    + congruence.
    + rewrite Hst. unfold c2. destruct (OnNetSent c1); reflexivity.
    + rewrite Hdq. unfold c2. destruct (OnNetSent c1); reflexivity.
    + intros _. destruct rest as [|d rest'].
      * rewrite (Hnil eq_refl). exact Hq.
      * apply Hne. discriminate.
    + discriminate.
Qed.

(** [flushCtrl], when every socket write goes through in full: the control
    queue ends up empty, the socket has received the frames of the queued
    entries, oldest first, each encrypted under the send nonce the one before
    left, and the send nonce has been incremented once per entry. *)
Theorem flushCtrl_sends_all (sockw : nat -> write_result)
    (c : TCPSecureConn) :
  let items := chan_buf (cwctrlq c) in
  let frames := wire_frames (Shrkey c) (SentNonce c) items in
  full_writes sockw frames ->
  exists c',
    flushCtrl items sockw c = (None, c') /\
    chan_buf (cwctrlq c') = [] /\
    Sock c' = Sock c ++ List.concat frames /\
    SentNonce c' = Nat.iter (List.length items) Incr (SentNonce c).
Proof.
  intros items frames Hw.
  destruct (flushCtrl_run items sockw c Hw)
    as (c' & Hf & Hs & Hn & _ & _ & _ & Hne & Hnil).
  exists c'. refine (conj Hf (conj _ (conj Hs Hn))).
  destruct items as [|d rest] eqn:E.
  - rewrite (Hnil eq_refl). exact E.
  - apply Hne. discriminate.
Qed.

(** A pass of the write loop that takes a data packet: when every socket
    write goes through in full, the data frame is written first and then the
    whole control queue is flushed behind it, in order, so the control queue
    is empty when the loop waits again. *)
Theorem data_pass_flushes_control (pick : bool) (sockw : nat -> write_result)
    (c : TCPSecureConn) (data : list byte) (q : chan) :
  chan_recv (cwdataq c) = Some (data, q) ->
  pick = false \/ chan_buf (cwctrlq c) = [] ->
  full_writes sockw
    (wire_frames (Shrkey c) (SentNonce c) (data :: chan_buf (cwctrlq c))) ->
  exists c',
    runWriteLoop_iter pick sockw c = Some (true, c') /\
    Sock c' =
      Sock c ++
      List.concat (wire_frames (Shrkey c) (SentNonce c)
                (data :: chan_buf (cwctrlq c))) /\
    chan_buf (cwctrlq c') = [] /\
    cwdataq c' = q /\
    SentNonce c' =
      Nat.iter (S (List.length (chan_buf (cwctrlq c)))) Incr (SentNonce c).
Proof.
  intros Hd Hpick Hw. cbn [wire_frames] in Hw.
  apply full_writes_tail in Hw as (Hok & Hfull & Hrest).
  unfold runWriteLoop_iter. rewrite Hd.
  assert (Hsel : match chan_recv (cwctrlq c) with
                 | Some _ => Some pick
                 | None => Some false
                 end = Some false).
  { unfold chan_recv. destruct Hpick as [-> | ->]; [|reflexivity].
    destruct (chan_buf (cwctrlq c)); reflexivity. }
  rewrite Hsel.
  set (c1 := set_cwdataq q
               (int32 (cwdatadlen c + int32 (- int32 (len data)))) c).
  rewrite (runWriteLoop_send_ok (sockw O) data c1 Hok Hfull).
  match goal with |- context [flushCtrl _ _ ?x] => set (c2 := x) end.
  assert (Hk : Shrkey c2 = Shrkey c)
    by (unfold c2; destruct (OnNetSent c1); reflexivity).
  assert (Hn : SentNonce c2 = Incr (SentNonce c))
    by (unfold c2; destruct (OnNetSent c1); reflexivity).
  assert (Hq : cwctrlq c2 = cwctrlq c)
    by (unfold c2; destruct (OnNetSent c1); reflexivity).
  assert (Hdq : cwdataq c2 = q)
    by (unfold c2; destruct (OnNetSent c1); reflexivity).
  destruct (flushCtrl_run (chan_buf (cwctrlq c2)) (fun i => sockw (S i)) c2)
    as (c' & Hf & Hs & Hsn & _ & _ & Hdq' & Hne & Hnil).
  { rewrite Hk, Hn, Hq. exact Hrest. }
  rewrite Hf. exists c'. split; [reflexivity|].
  refine (conj _ (conj _ (conj _ _))).
  - rewrite Hs, Hk, Hn, Hq. cbn [wire_frames List.concat].
    replace (Sock c2)
      with (Sock c ++
            (put_uint16_be
               (uint16 (len (fst (EncryptDataSymmetric (Shrkey c)
                                    (SentNonce c) data)))) ++
             fst (EncryptDataSymmetric (Shrkey c) (SentNonce c) data)))
      by (unfold c2; destruct (OnNetSent c1); reflexivity).
    rewrite <- !app_assoc. reflexivity.
  - destruct (chan_buf (cwctrlq c2)) as [|d rest] eqn:E.
    + rewrite (Hnil eq_refl). exact E.
    + apply Hne. discriminate.
  - congruence.
  - rewrite Hsn, Hn, Hq, Nat.iter_succ_r. reflexivity.
Qed.

(** A pass of the write loop whose first socket write fails: the loop ends,
    the packet it had taken from its queue is in neither queue any more, the
    send nonce is not incremented and no callback is fired. *)
Theorem failed_write_ends_loop (pick : bool) (sockw : nat -> write_result)
    (c c' : TCPSecureConn) (go : bool) (e : error) :
  wr_err (sockw O) = Some e ->
  runWriteLoop_iter pick sockw c = Some (go, c') ->
  go = false /\
  len (chan_buf (cwctrlq c')) + len (chan_buf (cwdataq c')) + 1 =
    len (chan_buf (cwctrlq c)) + len (chan_buf (cwdataq c)) /\
  SentNonce c' = SentNonce c /\
  events c' = events c.
Proof.
  intros He. unfold runWriteLoop_iter, chan_recv, runWriteLoop_send,
    WritePacket.
  destruct (chan_buf (cwctrlq c)) as [|d1 r1] eqn:E1;
    destruct (chan_buf (cwdataq c)) as [|d2 r2] eqn:E2;
    try discriminate; try destruct pick;
    destruct (CreatePacket _ _) as [encpkt e0]; rewrite He;
    intros [= <- <-];
    cbn [cwctrlq cwdataq chan_buf set_cwctrlq set_cwdataq Sock_Write set_Sock
         SentNonce events];
    rewrite ?E1, ?E2, ?len_cons; repeat split; try reflexivity; lia.
Qed.

End WriteLoop.

(* ------------------------------------------------------------------ *)
(** * From one connection's write loop to the other's decode loop *)

Section Delivery.

Context {C : Crypto} {CC : CryptoContract C}.




End Delivery.

(* ------------------------------------------------------------------ *)
(** * The read loop *)

Section ReadLoop.

Context {C : Crypto}.






Lemma runReadLoop_app (env : environment) (a b : list read_result) :
  forall (c : TCPSecureConn) (n : Z),
    runReadLoop env (a ++ b) c n =
    match runReadLoop env a c n with
    | Some (Running c1 n1) => runReadLoop env b c1 n1
    | other => other
    end.
Proof.
  induction a as [|r a IH]; intros c n; cbn [app runReadLoop].
  - reflexivity.
  - destruct (runReadLoop_iter env r c n) as [[c1 n1|c1|e]|]; auto.
Qed.

(** The read loop ends on the first read that returns an error or no bytes.
    No later read is looked at, bytes that came with the error are not
    buffered, [OnClosed] is fired if it is set, and the status becomes
    NoStatus when the error is [io.EOF] and is left as it is otherwise. *)
Theorem runReadLoop_ends_at_failed_read (env : environment)
    (before after : list read_result) (r : read_result)
    (c c1 : TCPSecureConn) (n n1 : Z) :
  rd_err r <> None \/ len (rd_data r) < 1 ->
  runReadLoop env before c n = Some (Running c1 n1) ->
  exists c',
    runReadLoop env (before ++ r :: after) c n = Some (Stopped c') /\
    crbuf c' = crbuf c1 /\
    events c' = events c1 ++ (if OnClosed c1 then [EvClosed] else []) /\
    Status c' = match rd_err r with
                | Some ErrEOF => TCP_STATUS_NO_STATUS
                | _ => Status c1
                end.
Proof.
  intros Hbad Hrun. rewrite runReadLoop_app, Hrun. cbn [runReadLoop].
  unfold runReadLoop_iter, runReadLoop_recv.
  destruct (rd_err r) as [e|] eqn:Ee.
  - eexists. split; [reflexivity|].
    destruct e; cbn [OnClosed set_Status];
      destruct (OnClosed c1); cbn; rewrite ?app_nil_r; auto.
  - destruct Hbad as [Hbad|Hbad]; [congruence|].
    destruct (Z.ltb_spec (len (rd_data r)) 1); [|lia].
    eexists. split; [reflexivity|].
    destruct (OnClosed c1); cbn; rewrite ?app_nil_r; auto.
Qed.

End ReadLoop.

(* ------------------------------------------------------------------ *)
(** * The relay server *)

Lemma listen_ports_Some (listen : nat -> Z -> bool) (ports : list Z) :
  forall (i : nat) (acc ls : list Z),
    listen_ports listen i ports acc = Some ls ->
    ls = acc ++ ports /\
    forall j port, nth_error ports j = Some port ->
                   listen (i + j)%nat port = true.
Proof.
  induction ports as [|p ports IH]; intros i acc ls; cbn [listen_ports].
  - intros [= <-]. rewrite app_nil_r. split; [reflexivity|].
    intros j port H. destruct j; discriminate.
  - destruct (listen i p) eqn:E; [|discriminate]. intros H.
    apply IH in H as [-> Hall]. split.
    + rewrite <- app_assoc. reflexivity.
    + intros [|j] port Hn; cbn [nth_error] in Hn.
      * injection Hn as <-. rewrite Nat.add_0_r. exact E.
      * replace (i + S j)%nat with (S i + j)%nat by lia. apply Hall. exact Hn.
Qed.

Lemma listen_ports_None (listen : nat -> Z -> bool) (ports : list Z) :
  forall (i : nat) (acc : list Z),
    listen_ports listen i ports acc = None ->
    exists j port, nth_error ports j = Some port /\
                   listen (i + j)%nat port = false.
Proof.
  induction ports as [|p ports IH]; intros i acc; cbn [listen_ports].
  - discriminate.
  - destruct (listen i p) eqn:E.
    + intros H. apply IH in H as (j & port & Hn & Hl).
      exists (S j), port. split; [exact Hn|].
      replace (i + S j)%nat with (S i + j)%nat by lia. exact Hl.
    + intros _. exists 0%nat, p. rewrite Nat.add_0_r. auto.
Qed.

(** [NewTCPServer] is all or nothing.  It returns [nil] exactly when one of
    the calls of [net.Listen] fails; otherwise the server listens on every
    port, in the order given, holds the secret key and the public key derived
    from it, and both registries are empty. *)
Theorem NewTCPServer_all_or_nothing (derive : CryptoKey -> CryptoKey)
    (listen : nat -> Z -> bool) (ports : list Z) (seckey : CryptoKey) :
  (NewTCPServer derive listen ports seckey = None <->
   exists j port, nth_error ports j = Some port /\ listen j port = false) /\
  (forall s, NewTCPServer derive listen ports seckey = Some s ->
     lsners s = ports /\
     srv_Seckey s = seckey /\
     srv_Pubkey s = derive seckey /\
     (forall k, Conns s k = None) /\
     (forall k, HSConns s k = None)).
Proof.
  unfold NewTCPServer.
  destruct (listen_ports listen 0 ports []) as [ls|] eqn:E.
  - apply listen_ports_Some in E as [-> Hall]. split.
    + split; [discriminate|]. intros (j & port & Hn & Hl).
      pose proof (Hall j port Hn) as Ht. cbn [Nat.add] in Ht. congruence.
    + intros s [= <-]. cbn. auto.
  - split.
    + split; [intros _|reflexivity].
      apply listen_ports_None in E. exact E.
    + discriminate.
Qed.

Lemma startHandshake_keeps (sock : Z) (s : TCPServer) :
  lsners (startHandshake sock s) = lsners s /\
  srv_Seckey (startHandshake sock s) = srv_Seckey s /\
  srv_Pubkey (startHandshake sock s) = srv_Pubkey s /\
  Conns (startHandshake sock s) = Conns s.
Proof. unfold startHandshake. cbn. auto. Qed.

Lemma runAcceptProc_run (accepts : list (option Z)) :
  forall (s : TCPServer),
    let s' := runAcceptProc accepts s in
    lsners s' = lsners s /\
    srv_Seckey s' = srv_Seckey s /\
    srv_Pubkey s' = srv_Pubkey s /\
    Conns s' = Conns s /\
    forall k,
      HSConns s' k =
      if existsb (Z.eqb k) (accepted_sockets accepts)
      then Some (pending_conn s)
      else HSConns s k.
Proof.
  induction accepts as [|[sock|] rest IH]; intros s; cbn zeta;
    cbn [runAcceptProc accepted_sockets existsb].
  - auto.
  - destruct (IH (startHandshake sock s)) as (H1 & H2 & H3 & H4 & H5).
    destruct (startHandshake_keeps sock s) as (K1 & K2 & K3 & K4).
    refine (conj _ (conj _ (conj _ (conj _ _)))); try congruence.
    intros k. rewrite H5. unfold pending_conn. rewrite K2.
    destruct (existsb (Z.eqb k) (accepted_sockets rest));
      [rewrite orb_true_r; reflexivity|].
    rewrite orb_false_r. unfold startHandshake. cbn [HSConns].
    reflexivity.
  - auto.
Qed.

(** The accept loop registers what it accepts and nothing else.  After
    [runAcceptProc], every socket accepted before the first error of
    [Accept] is in the registry of pending connections, with a connection in
    state NoStatus that holds the server's secret key and has empty buffers
    and queues; every other entry of that registry is as before; and the
    registry of established connections, the keys and the listeners are
    untouched. *)
Theorem runAcceptProc_registers (accepts : list (option Z)) (s : TCPServer) :
  let s' := runAcceptProc accepts s in
  (forall k, In k (accepted_sockets accepts) ->
     exists secon,
       HSConns s' k = Some secon /\
       Seckey secon = srv_Seckey s /\
       Status secon = TCP_STATUS_NO_STATUS /\
       crbuf secon = [] /\
       cwctrlq secon = make_chan 64 /\
       cwdataq secon = make_chan 128) /\
  (forall k, ~ In k (accepted_sockets accepts) -> HSConns s' k = HSConns s k) /\
  Conns s' = Conns s /\
  lsners s' = lsners s /\
  srv_Seckey s' = srv_Seckey s /\
  srv_Pubkey s' = srv_Pubkey s.
Proof.
  destruct (runAcceptProc_run accepts s) as (H1 & H2 & H3 & H4 & H5).
  cbn zeta. refine (conj _ (conj _ (conj H4 (conj H1 (conj H2 H3))))).
  - intros k Hin. exists (pending_conn s). rewrite H5.
    replace (existsb (Z.eqb k) (accepted_sockets accepts)) with true.
    + repeat split; reflexivity.
    + symmetry. apply existsb_exists. exists k. split; [exact Hin|].
      apply Z.eqb_refl.
  - intros k Hnot. rewrite H5.
    destruct (existsb (Z.eqb k) (accepted_sockets accepts)) eqn:E;
      [|reflexivity].
    apply existsb_exists in E as (x & Hx & Heq).
    apply Z.eqb_eq in Heq. subst x. contradiction.
Qed.

(* ------------------------------------------------------------------ *)
(** * Ping packets and packet names *)

Lemma be_value_snoc (l : list byte) (b : byte) :
  be_value (l ++ [b]) = be_value l * 256 + byte_to_Z b.
Proof.
  unfold be_value. rewrite fold_left_app. cbn [fold_left].
  apply lor_shiftl_8. apply byte_to_Z_range.
Qed.

Lemma put_be_length (k : nat) : forall v, List.length (put_be k v) = k.
Proof.
  induction k as [|k IH]; intros v; cbn [put_be]; [reflexivity|].
  rewrite length_app, IH. cbn. lia.
Qed.

(** What [binary.Write] writes big-endian reads back as the value, modulo the
    width. *)
Lemma be_value_put_be (k : nat) :
  forall v, be_value (put_be k v) = v mod 256 ^ Z.of_nat k.
Proof.
  induction k as [|k IH]; intros v.
  - cbn. rewrite Z.mod_1_r. reflexivity.
  - cbn [put_be]. rewrite be_value_snoc, IH, byte_to_of_Z.
    rewrite Z.shiftr_div_pow2 by lia. change (2 ^ 8) with 256.
    rewrite Nat2Z.inj_succ, Z.pow_succ_r by lia.
    assert (0 < 256 ^ Z.of_nat k) by (apply Z.pow_pos_nonneg; lia).
    rewrite (Z.rem_mul_r v 256 (256 ^ Z.of_nat k)) by lia. lia.
Qed.

Lemma tcppktname_control (t : Z) :
  0 <= t <= 9 ->
  tcppktname t <> "" /\ tcppktname t <> "TCP_PACKET_INVALID".
Proof.
  intros H.
  assert (E : t = 0 \/ t = 1 \/ t = 2 \/ t = 3 \/ t = 4 \/ t = 5 \/ t = 6 \/
              t = 7 \/ t = 8 \/ t = 9) by lia.
  repeat (destruct E as [-> | E]); try subst t;
    split; vm_compute; discriminate.
Qed.

(** [tcppktname] on a packet-type byte: the name is never empty (the lookup in
    [tcppktnames] never misses), it is "TCP_PACKET_INVALID" exactly for the
    reserved types 10 to 15, and for a connection id, 16 and above, it is
    "DATA_FOR_CONNID_" followed by the id in decimal. *)
Theorem tcppktname_spec (t : Z) :
  0 <= t < 256 ->
  tcppktname t <> "" /\
  (tcppktname t = "TCP_PACKET_INVALID" <-> 10 <= t <= 15) /\
  (16 <= t -> tcppktname t = String.append "DATA_FOR_CONNID_" (decimal t)).
Proof.
  intros Hr. destruct (Z.le_gt_cases t 9) as [Hc|Hc].
  - destruct (tcppktname_control t ltac:(lia)) as [Hne Hni].
    refine (conj Hne (conj _ _)).
    + split; [intros E; contradiction | lia].
    + lia.
  - unfold tcppktname, TCP_PACKET_ONION_RESPONSE, NUM_RESERVED_PORTS.
    destruct (Z.gtb_spec t 9); [|lia]. cbn [andb].
    destruct (Z.ltb_spec t 16).
    + refine (conj _ (conj _ _)); [discriminate | | lia].
      split; [lia | reflexivity].
    + destruct (Z.geb_spec t 16); [|lia].
      refine (conj _ (conj _ _)); [discriminate | | reflexivity].
      split; [discriminate | lia].
Qed.

Section PingPackets.

Context {C : Crypto} {CC : CryptoContract C}.

Lemma MakePingPacket_frame (rnd : Z) (c : TCPSecureConn) :
  let pingid := if uint64 rnd =? 0 then 1 else uint64 rnd in
  let plain := byte_of_Z TCP_PACKET_PING :: put_uint64_be pingid in
  MakePingPacket rnd c =
    (put_uint16_be (9 + MAC_SIZE) ++
     fst (EncryptDataSymmetric (Shrkey c) (SentNonce c) plain), pingid) /\
  len plain = 9 /\
  1 <= pingid < 2 ^ 64.
Proof.
  intros pingid plain.
  assert (Hlen : len plain = 9).
  { unfold plain, put_uint64_be, len. cbn [List.length].
    rewrite put_be_length. reflexivity. }
  refine (conj _ (conj Hlen _)).
  - unfold MakePingPacket. fold pingid. fold plain.
    pose proof (CreatePacket_frame plain c) as Hf.
    destruct (CreatePacket plain c) as [encpkt e]. cbn [fst] in Hf.
    rewrite Hf, Hlen. pose proof mac_size_range as Hm.
    unfold PUBLIC_KEY_SIZE, NONCE_SIZE in Hm.
    rewrite uint16_small by lia. reflexivity.
  - unfold pingid, uint64.
    pose proof (Z.mod_pos_bound rnd (2 ^ 64) ltac:(lia)).
    destruct (Z.eqb_spec (rnd mod 2 ^ 64) 0); lia.
Qed.

(** [MakePingPacket]: the ping id it stores is never zero (a zero draw becomes
    1); the frame is two length bytes and the encryption, under the send nonce
    as it stands, of the byte PING followed by the id as eight big-endian
    bytes; a peer with the same key whose receive nonce equals that send nonce
    recovers that plaintext with [Unpacket], and the eight bytes read back as
    the id.  The send nonce itself is not touched. *)
Theorem MakePingPacket_round_trip (rnd : Z) (tx rx : TCPSecureConn) :
  Shrkey rx = Shrkey tx ->
  RecvNonce rx = SentNonce tx ->
  exists encpkt pingid idbytes,
    MakePingPacket rnd tx = (encpkt, pingid) /\
    1 <= pingid < 2 ^ 64 /\
    (uint64 rnd <> 0 -> pingid = uint64 rnd) /\
    len encpkt = 2 + 9 + MAC_SIZE /\
    Unpacket encpkt rx =
      Done (9 + MAC_SIZE, byte_of_Z TCP_PACKET_PING :: idbytes, None,
            set_RecvNonce (Incr (RecvNonce rx)) rx) /\
    len idbytes = 8 /\
    be_value idbytes = pingid.
Proof.
  intros Hk Hn.
  destruct (MakePingPacket_frame rnd tx) as (Hf & Hlen & Hid).
  set (pingid := if uint64 rnd =? 0 then 1 else uint64 rnd) in *.
  set (plain := byte_of_Z TCP_PACKET_PING :: put_uint64_be pingid) in *.
  pose proof mac_size_range as Hm. unfold PUBLIC_KEY_SIZE, NONCE_SIZE in Hm.
  eexists. exists pingid, (put_uint64_be pingid).
  split; [exact Hf|].
  refine (conj Hid (conj _ (conj _ (conj _ (conj _ _))))).
  - intros Hnz. unfold pingid.
    destruct (Z.eqb_spec (uint64 rnd) 0); [contradiction | reflexivity].
  - rewrite len_app, encrypt_length, Hlen, len_put_uint16_be. lia.
  - rewrite Unpacket_frame by lia. rewrite Hk, Hn, decrypt_encrypt.
    reflexivity.
  - unfold put_uint64_be, len. rewrite put_be_length. reflexivity.
  - unfold put_uint64_be. rewrite be_value_put_be.
    change (256 ^ Z.of_nat 8) with (2 ^ 64). apply Z.mod_small. lia.
Qed.

(** A ping made by [MakePingPacket] on one side and received as the first
    frame after the handshake on the other, with the same session key and
    matching nonces, room in the control queue and an enqueue within five
    milliseconds: the receiver queues the PONG whose eight id bytes are those
    of the ping, big-endian the ping id [MakePingPacket] stored, and becomes
    Confirmed. *)
Theorem ping_is_answered_with_its_id (env : environment) (rnd : Z)
    (tx rx : TCPSecureConn) :
  Status rx = TCP_STATUS_UNCONFIRMED ->
  crbuf rx = [] ->
  Shrkey rx = Shrkey tx ->
  RecvNonce rx = SentNonce tx ->
  len (chan_buf (cwctrlq rx)) < chan_cap (cwctrlq rx) ->
  enqueue_elapsed env <= 5 * Millisecond ->
  exists rx' idbytes,
    doReadPacket_iter env (crbuf_Write (fst (MakePingPacket rnd tx)) rx) 0 =
      Next rx' 0 /\
    Status rx' = TCP_STATUS_CONFIRMED /\
    chan_buf (cwctrlq rx') =
      chan_buf (cwctrlq rx) ++ [byte_of_Z TCP_PACKET_PONG :: idbytes] /\
    len idbytes = 8 /\
    be_value idbytes = snd (MakePingPacket rnd tx) /\
    snd (MakePingPacket rnd tx) <> 0.
Proof.
  intros Hs Hb Hk Hn Hroom Hfast.
  destruct (MakePingPacket_frame rnd tx) as (Hf & Hlen & Hid).
  set (pingid := if uint64 rnd =? 0 then 1 else uint64 rnd) in *.
  set (plain := byte_of_Z TCP_PACKET_PING :: put_uint64_be pingid) in *.
  set (ct := fst (EncryptDataSymmetric (Shrkey tx) (SentNonce tx) plain)) in *.
  pose proof mac_size_range as Hm. unfold PUBLIC_KEY_SIZE, NONCE_SIZE in Hm.
  rewrite Hf. cbn [fst snd].
  assert (Hct : len ct = 9 + MAC_SIZE)
    by (unfold ct; rewrite encrypt_length, Hlen; reflexivity).
  set (rx0 := crbuf_Write (put_uint16_be (9 + MAC_SIZE) ++ ct) rx).
  assert (Hpass := first_packet_pass env rx0 (9 + MAC_SIZE) ct []
                     (byte_of_Z TCP_PACKET_PING) (put_uint64_be pingid) None).
  rewrite Hpass; clear Hpass.
  - unfold SendCtrlPacket, chan_try_send.
    cbn [cwctrlq cwctrldlen set_RecvNonce set_crbuf rx0 crbuf_Write].
    assert (Hl8 : len (put_uint64_be pingid) = 8)
      by (unfold put_uint64_be, len; rewrite put_be_length; reflexivity).
    rewrite len_cons, Hl8.
    destruct (Z.gtb_spec (1 + 8) 2048); [lia|].
    destruct (Z.geb_spec (len (chan_buf (cwctrlq rx)))
                (chan_cap (cwctrlq rx))); [lia|].
    destruct (Z.ltb_spec (len (chan_buf (cwctrlq rx)))
                (chan_cap (cwctrlq rx))); [|lia].
    destruct (Z.gtb_spec (enqueue_elapsed env) (5 * Millisecond)); [lia|].
    eexists. exists (put_uint64_be pingid). split; [reflexivity|].
    rewrite fire_Status, fire_cwctrlq.
    refine (conj eq_refl (conj eq_refl (conj Hl8 (conj _ _)))).
    + unfold put_uint64_be. rewrite be_value_put_be.
      change (256 ^ Z.of_nat 8) with (2 ^ 64). apply Z.mod_small. lia.
    + lia.
  - exact Hs.
  - lia.
  - unfold rx0, crbuf_Write. rewrite crbuf_set_crbuf, Hb, app_nil_r.
    reflexivity.
  - exact Hct.
  - change (Shrkey rx0) with (Shrkey rx). change (RecvNonce rx0) with (RecvNonce rx).
    rewrite Hk, Hn. unfold ct. apply decrypt_encrypt.
Qed.

(** The first frame after the handshake with a plaintext longer than 2048
    bytes: the PONG would exceed what [SendCtrlPacket] takes, it is refused
    and nothing is queued, and the connection becomes Confirmed all the
    same. *)
Theorem first_packet_oversized (env : environment) (c : TCPSecureConn)
    (n : Z) (ct rest : list byte) (ptype : byte) (pingid : list byte)
    (err : option error) :
  Status c = TCP_STATUS_UNCONFIRMED ->
  0 <= n <= 65533 ->
  crbuf c = put_uint16_be n ++ ct ++ rest ->
  len ct = n ->
  DecryptDataSymmetric (Shrkey c) (RecvNonce c) ct = (ptype :: pingid, err) ->
  2048 < len (ptype :: pingid) ->
  exists c',
    doReadPacket_iter env c 0 = Next c' 0 /\
    Status c' = TCP_STATUS_CONFIRMED /\
    cwctrlq c' = cwctrlq c /\
    cwctrldlen c' = cwctrldlen c.
Proof.
  intros Hs Hn Hb Hl Hd Hbig.
  rewrite (first_packet_pass env c n ct rest ptype pingid err Hs Hn Hb Hl Hd).
  unfold SendCtrlPacket. rewrite len_cons in *.
  destruct (Z.gtb_spec (1 + len pingid) 2048); [|lia].
  eexists. split; [reflexivity|].
  rewrite fire_Status, fire_cwctrlq.
  destruct (OnConfirmed _); cbn; auto.
Qed.


(** A handshake request whose blob does not decrypt to the 56 bytes of a
    temporary public key and a nonce, as when the decryption fails and
    returns [nil]: the error is printed and not looked at, and slicing the
    plaintext panics, so the pass of the decode loop aborts. *)
Theorem bad_handshake_panics (env : environment) (c : TCPSecureConn)
    (nxt : Z) (pk nn blob rest shrkey0 p : list byte) (e0 e1 : option error) :
  Status c = TCP_STATUS_NO_STATUS ->
  crbuf c = pk ++ nn ++ blob ++ rest ->
  len pk = PUBLIC_KEY_SIZE ->
  len nn = NONCE_SIZE ->
  len blob = PUBLIC_KEY_SIZE + NONCE_SIZE + MAC_SIZE ->
  CBBeforeNm pk (Seckey c) = (shrkey0, e0) ->
  DecryptDataSymmetric shrkey0 nn blob = (p, e1) ->
  len p < PUBLIC_KEY_SIZE + NONCE_SIZE ->
  doReadPacket_iter env c nxt = Halt (Panic "slice bounds out of range").
Proof.
  intros Hs Hb Hpk Hnn Hblob Hk Hd Hp.
  assert (Hreq : len (pk ++ nn ++ blob) = HANDSHAKE_REQUEST_SIZE).
  { rewrite !len_app. unfold HANDSHAKE_REQUEST_SIZE. lia. }
  unfold doReadPacket_iter, fetch, crbuf_Read. rewrite Hs, Hb.
  replace (pk ++ nn ++ blob ++ rest) with ((pk ++ nn ++ blob) ++ rest)
    by (rewrite <- !app_assoc; reflexivity).
  rewrite <- Hreq, firstn_len_app, skipn_len_app, Z.eqb_refl.
  unfold dispatch. rewrite Status_set_crbuf, Hs.
  unfold HandleHandshake.
  rewrite (slice_prefix pk (nn ++ blob)) by lia. cbn [bind].
  rewrite (slice_mid pk nn blob) by lia. cbn [bind].
  unfold NewCryptoKey, NewCBNonce. cbn [Seckey set_crbuf]. rewrite Hk.
  rewrite app_assoc.
  rewrite (slice_from_suffix (pk ++ nn) blob) by (rewrite len_app; lia).
  cbn [bind]. rewrite Hd.
  unfold slice. pose proof (len_nonneg p).
  unfold PUBLIC_KEY_SIZE, NONCE_SIZE in *.
  destruct (Z.leb_spec 32 (len p)).
  - cbn [Z.leb andb bind].
    destruct (Z.leb_spec (32 + 24) (len p)); [lia|].
    cbn [andb bind]. reflexivity.
  - cbn [Z.leb andb bind]. reflexivity.
Qed.

End PingPackets.

(* ------------------------------------------------------------------ *)
(** * The further properties on concrete connections *)

Section MoreExamples.

#[local] Existing Instance Toy.crypto.

Lemma doReadPacket_segmentation_witness :
  let c := Toy.established TCP_STATUS_CONFIRMED in
  let f := Toy.data_frame in
  doReadPacket Toy.env0
    (crbuf_Write (skipn 10 f) (set_crbuf (skipn 2 (firstn 10 f)) c)) 98 =
  doReadPacket Toy.env0 (crbuf_Write (firstn 10 f ++ skipn 10 f) c) 0.
Proof.
  refine (@doReadPacket_segmentation Toy.crypto Toy_contract Toy.env0
            (Toy.established TCP_STATUS_CONFIRMED) _ 0 98
            (firstn 10 Toy.data_frame) (skipn 10 Toy.data_frame) _ _).
  - lia.
  - vm_compute. reflexivity.
Defined.

Lemma doReadPacket_terminates_witness :
  exists r,
    doReadPacket Toy.env0
      (set_crbuf Toy.ping_frame (Toy.established TCP_STATUS_CONFIRMED)) 0 =
    Some r.
Proof.
  refine (proj2 (@doReadPacket_terminates Toy.crypto Toy_contract Toy.env0
                   (set_crbuf Toy.ping_frame
                      (Toy.established TCP_STATUS_CONFIRMED)) 0 _)).
  lia.
Defined.

Lemma doReadPacket_drains_witness :
  let c1 := set_crbuf (skipn 2 (firstn 10 Toy.data_frame))
              (Toy.established TCP_STATUS_CONFIRMED) in
  (Status c1 = TCP_STATUS_UNCONFIRMED \/ Status c1 = TCP_STATUS_CONFIRMED) /\
  ((98 = 0 /\ len (crbuf c1) < 2) \/ (98 <> 0 /\ len (crbuf c1) < 98)).
Proof.
  refine (doReadPacket_drains Toy.env0
            (set_crbuf (firstn 10 Toy.data_frame)
               (Toy.established TCP_STATUS_CONFIRMED)) _ 0 98 _).
  vm_compute. reflexivity.
Defined.

Lemma fetch_frame_conserves_witness :
  let c := set_crbuf (Toy.ping_frame ++ [x07])
             (Toy.established TCP_STATUS_CONFIRMED) in
  exists body,
    Toy.ping_frame = put_uint16_be 25 ++ body /\
    len body = 25 /\
    0 <= 25 <= 65533 /\
    ((0 = 0 /\ crbuf c = put_uint16_be 25 ++ body ++ crbuf (set_crbuf [x07] c)) \/
     (0 <> 0 /\ 25 = 0 /\ crbuf c = body ++ crbuf (set_crbuf [x07] c))) /\
    set_crbuf [x07] c = set_crbuf (crbuf (set_crbuf [x07] c)) c.
Proof.
  refine (fetch_frame_conserves
            (set_crbuf (Toy.ping_frame ++ [x07])
               (Toy.established TCP_STATUS_CONFIRMED))
            _ 0 25 Toy.ping_frame _ _).
  - lia.
  - vm_compute. reflexivity.
Defined.

Lemma empty_plaintext_panics_witness :
  doReadPacket_iter Toy.env0
    (set_crbuf Toy.tampered_frame (Toy.established TCP_STATUS_CONFIRMED)) 0 =
  Halt (Panic "index out of range").
Proof.
  refine (empty_plaintext_panics Toy.env0
            (set_crbuf Toy.tampered_frame
               (Toy.established TCP_STATUS_CONFIRMED))
            25 (skipn 2 Toy.tampered_frame) [] (Some ErrCrypto) _ _ _ _ _).
  - right. reflexivity.
  - lia.
  - vm_compute. reflexivity.
  - vm_compute. reflexivity.
  - vm_compute. reflexivity.
Defined.

Lemma confirmed_pass_effect_witness :
  let c := set_crbuf Toy.ping_frame (Toy.established TCP_STATUS_CONFIRMED) in
  let c' := set_RecvNonce (Incr (RecvNonce c)) (set_crbuf [] c) in
  c' = set_RecvNonce (Incr (RecvNonce c)) (set_crbuf (crbuf c') c).
Proof.
  refine (confirmed_pass_effect Toy.env0
            (set_crbuf Toy.ping_frame (Toy.established TCP_STATUS_CONFIRMED))
            _ 0 0 eq_refl _).
  vm_compute. reflexivity.
Defined.

Lemma queues_stay_ok_witness :
  exists c',
    SendCtrlPacket 1000 Toy.pong42 NewTCPSecureConn = Done (None, c') /\
    queues_ok c'.
Proof.
  eexists. split; [vm_compute; reflexivity|].
  refine (proj2 queues_stay_ok (NewTCPSecureConn, 0) (_, 0) _
            (proj1 queues_stay_ok)).
  apply rt_step. eapply (step_enqueue 1000 Toy.pong42).
  vm_compute. reflexivity.
Defined.

Lemma flushCtrl_sends_all_witness :
  exists c',
    flushCtrl (chan_buf (cwctrlq Sample.sender)) Sample.writes_ok
      Sample.sender = (None, c') /\
    chan_buf (cwctrlq c') = [] /\
    Sock c' =
      Sock Sample.sender ++
      List.concat (wire_frames (Shrkey Sample.sender)
                     (SentNonce Sample.sender)
                     (chan_buf (cwctrlq Sample.sender))) /\
    SentNonce c' =
      Nat.iter (List.length (chan_buf (cwctrlq Sample.sender))) Incr
        (SentNonce Sample.sender).
Proof.
  refine (flushCtrl_sends_all Sample.writes_ok Sample.sender _).
  intros i. split; [reflexivity|].
  destruct i as [|[|[|i]]]; vm_compute; congruence.
Defined.

Lemma data_pass_flushes_control_witness :
  exists c',
    runWriteLoop_iter false Sample.writes_ok Sample.sender_with_data =
      Some (true, c') /\
    Sock c' =
      Sock Sample.sender_with_data ++
      List.concat (wire_frames (Shrkey Sample.sender_with_data)
                     (SentNonce Sample.sender_with_data)
                     (Sample.routed ::
                      chan_buf (cwctrlq Sample.sender_with_data))) /\
    chan_buf (cwctrlq c') = [] /\
    cwdataq c' = mkChan 128 [] /\
    SentNonce c' =
      Nat.iter (S (List.length (chan_buf (cwctrlq Sample.sender_with_data))))
        Incr (SentNonce Sample.sender_with_data).
Proof.
  refine (data_pass_flushes_control false Sample.writes_ok
            Sample.sender_with_data Sample.routed (mkChan 128 [])
            eq_refl (or_introl eq_refl) _).
  intros i. split; [reflexivity|].
  destruct i as [|[|[|i]]]; vm_compute; congruence.
Defined.

Lemma failed_write_ends_loop_witness :
  exists c',
    runWriteLoop_iter true Sample.writes_fail Sample.sender = Some (false, c') /\
    len (chan_buf (cwctrlq c')) + len (chan_buf (cwdataq c')) + 1 =
      len (chan_buf (cwctrlq Sample.sender)) +
      len (chan_buf (cwdataq Sample.sender)) /\
    SentNonce c' = SentNonce Sample.sender /\
    events c' = events Sample.sender.
Proof.
  eexists.
  assert (Hrun : runWriteLoop_iter true Sample.writes_fail Sample.sender =
                 Some (false, _)) by (vm_compute; reflexivity).
  split; [exact Hrun|].
  exact (proj2 (failed_write_ends_loop true Sample.writes_fail Sample.sender
                  _ false ErrSocket eq_refl Hrun)).
Defined.



Lemma runReadLoop_ends_at_failed_read_witness :
  let c := Toy.established TCP_STATUS_CONFIRMED in
  exists c',
    runReadLoop Toy.env0
      ([] ++ mkRead [x01; x02] (Some ErrEOF) :: [mkRead Toy.ping_frame None])
      c 0 = Some (Stopped c') /\
    crbuf c' = crbuf c /\
    events c' = events c ++ (if OnClosed c then [EvClosed] else []) /\
    Status c' = TCP_STATUS_NO_STATUS.
Proof.
  refine (runReadLoop_ends_at_failed_read Toy.env0 []
            [mkRead Toy.ping_frame None] (mkRead [x01; x02] (Some ErrEOF))
            (Toy.established TCP_STATUS_CONFIRMED) _ 0 0 _ eq_refl).
  left. discriminate.
Defined.

Lemma first_packet_oversized_witness :
  exists c',
    doReadPacket_iter Toy.env0
      (set_crbuf (put_uint16_be 2065 ++ Sample.big_ct)
         (Toy.established TCP_STATUS_UNCONFIRMED)) 0 = Next c' 0 /\
    Status c' = TCP_STATUS_CONFIRMED /\
    cwctrlq c' = make_chan 64 /\
    cwctrldlen c' = 0.
Proof.
  refine (first_packet_oversized Toy.env0
            (set_crbuf (put_uint16_be 2065 ++ Sample.big_ct)
               (Toy.established TCP_STATUS_UNCONFIRMED))
            2065 Sample.big_ct [] x04 (repeat x2a (Z.to_nat 2048)) None
            eq_refl _ _ _ _ _).
  - lia.
  - rewrite app_nil_r. reflexivity.
  - vm_compute. reflexivity.
  - vm_compute. reflexivity.
  - vm_compute. reflexivity.
Defined.

Lemma first_packet_queue_full_witness :
  let c := set_cwctrlq (mkChan 1 [Toy.pong42]) 9
             (set_crbuf Toy.ping_frame
                (Toy.established TCP_STATUS_UNCONFIRMED)) in
  exists c',
    doReadPacket_iter Toy.env0 c 0 = Next c' 0 /\
    Status c' = TCP_STATUS_CONFIRMED /\
    cwctrlq c' = cwctrlq c.
Proof.
  refine (first_packet_queue_full Toy.env0
            (set_cwctrlq (mkChan 1 [Toy.pong42]) 9
               (set_crbuf Toy.ping_frame
                  (Toy.established TCP_STATUS_UNCONFIRMED)))
            25 Toy.ping_ct [] x04 (tl Toy.ping42) None eq_refl _ _ _ _ _).
  - lia.
  - vm_compute. reflexivity.
  - vm_compute. reflexivity.
  - vm_compute. reflexivity.
  - vm_compute. congruence.
Defined.

Lemma first_packet_slow_enqueue_witness :
  doReadPacket_iter
    (mkEnv (repeat x07 24) (repeat x08 24) (repeat x09 32) (repeat x0a 32)
       (mkWrite 96 None) (6 * Millisecond))
    (set_crbuf Toy.ping_frame (Toy.established TCP_STATUS_UNCONFIRMED)) 0 =
  Halt (Fatal "send use too long").
Proof.
  refine (first_packet_slow_enqueue _
            (set_crbuf Toy.ping_frame (Toy.established TCP_STATUS_UNCONFIRMED))
            25 Toy.ping_ct [] x04 (tl Toy.ping42) None eq_refl _ _ _ _ _ _ _).
  - lia.
  - vm_compute. reflexivity.
  - vm_compute. reflexivity.
  - vm_compute. reflexivity.
  - vm_compute. congruence.
  - vm_compute. reflexivity.
  - vm_compute. reflexivity.
Defined.

Lemma MakePingPacket_round_trip_witness :
  let c := Toy.established TCP_STATUS_CONFIRMED in
  exists encpkt pingid idbytes,
    MakePingPacket 0 c = (encpkt, pingid) /\
    1 <= pingid < 2 ^ 64 /\
    (uint64 0 <> 0 -> pingid = uint64 0) /\
    len encpkt = 2 + 9 + MAC_SIZE /\
    Unpacket encpkt c =
      Done (9 + MAC_SIZE, byte_of_Z TCP_PACKET_PING :: idbytes, None,
            set_RecvNonce (Incr (RecvNonce c)) c) /\
    len idbytes = 8 /\
    be_value idbytes = pingid.
Proof.
  exact (@MakePingPacket_round_trip Toy.crypto Toy_contract 0
           (Toy.established TCP_STATUS_CONFIRMED)
           (Toy.established TCP_STATUS_CONFIRMED) eq_refl eq_refl).
Defined.

Lemma ping_is_answered_with_its_id_witness :
  let tx := Toy.established TCP_STATUS_CONFIRMED in
  let rx := Toy.established TCP_STATUS_UNCONFIRMED in
  exists rx' idbytes,
    doReadPacket_iter Toy.env0 (crbuf_Write (fst (MakePingPacket 42 tx)) rx) 0 =
      Next rx' 0 /\
    Status rx' = TCP_STATUS_CONFIRMED /\
    chan_buf (cwctrlq rx') =
      chan_buf (cwctrlq rx) ++ [byte_of_Z TCP_PACKET_PONG :: idbytes] /\
    len idbytes = 8 /\
    be_value idbytes = snd (MakePingPacket 42 tx) /\
    snd (MakePingPacket 42 tx) <> 0.
Proof.
  refine (@ping_is_answered_with_its_id Toy.crypto Toy_contract Toy.env0 42
            (Toy.established TCP_STATUS_CONFIRMED)
            (Toy.established TCP_STATUS_UNCONFIRMED)
            eq_refl eq_refl eq_refl eq_refl _ _).
  - vm_compute. reflexivity.
  - vm_compute. congruence.
Defined.


Lemma bad_handshake_panics_witness :
  doReadPacket_iter Toy.env0 (Toy.accepted Sample.bad_hs_request) 0 =
  Halt (Panic "slice bounds out of range").
Proof.
  refine (bad_handshake_panics Toy.env0
            (Toy.accepted Sample.bad_hs_request) 0
            Toy.client_pk Toy.client_nonce (repeat x00 72) []
            (fst (Toy.beforenm Toy.client_pk Toy.server_sk)) []
            None (Some ErrCrypto) eq_refl _ _ _ _ _ _ _);
    vm_compute; reflexivity.
Defined.

Lemma WritePacket_nonce_iff_witness :
  let c := Toy.established TCP_STATUS_CONFIRMED in
  (SentNonce (snd (WritePacket (mkWrite 27 None) Toy.pong42 c)) =
     Incr (SentNonce c) <-> wr_err (mkWrite 27 None) = None) /\
  (SentNonce (snd (WritePacket (mkWrite 27 None) Toy.pong42 c)) = SentNonce c
     <-> wr_err (mkWrite 27 None) <> None).
Proof.
  refine (WritePacket_nonce_iff (mkWrite 27 None) Toy.pong42
            (Toy.established TCP_STATUS_CONFIRMED) _).
  vm_compute. discriminate.
Defined.


End MoreExamples.

Lemma tcppktname_spec_witness :
  tcppktname 200 <> "" /\
  (tcppktname 200 = "TCP_PACKET_INVALID" <-> 10 <= 200 <= 15) /\
  (16 <= 200 -> tcppktname 200 = String.append "DATA_FOR_CONNID_" (decimal 200)).
Proof. apply (tcppktname_spec 200). lia. Defined.

Lemma NewTCPServer_all_or_nothing_witness :
  NewTCPServer (fun k => k) (fun _ port => negb (port =? 80)) [33445; 80; 443]
    Toy.server_sk = None.
Proof.
  apply (proj1 (NewTCPServer_all_or_nothing (fun k => k)
                  (fun _ port => negb (port =? 80)) [33445; 80; 443]
                  Toy.server_sk)).
  exists 1%nat, 80. split; reflexivity.
Defined.

Lemma runAcceptProc_registers_witness :
  exists secon,
    HSConns (runAcceptProc [Some 7; Some 9; None; Some 11] Sample.server0) 9 =
      Some secon /\
    Seckey secon = Toy.server_sk /\
    Status secon = TCP_STATUS_NO_STATUS /\
    crbuf secon = [] /\
    cwctrlq secon = make_chan 64 /\
    cwdataq secon = make_chan 128.
Proof.
  apply (proj1 (runAcceptProc_registers [Some 7; Some 9; None; Some 11]
                  Sample.server0) 9).
  right. left. reflexivity.
Defined.
